(** * The logo scene of js/logoScene.js: particle life cycle and hand-off

    A shallow embedding of the animation engine of [js/logoScene.js]: the
    easing helpers, the cycle generator [prepareBuildCycle] and the frame
    callback [tick] with its four phases.

    Modelling conventions.
    - A JavaScript number is a real number ([R]); [Float32Array] rounding is
      not modelled.  Division is the division of [R]; the model agrees with
      the program wherever the divisor is not zero, and statements that
      depend on a quotient say so in a hypothesis.
    - A [Float32Array] is a [list R] read with [f32get] and written with
      [f32set]; a typed array ignores a write past its end.
    - [Math.random] is a sequence [random : nat -> R] of draws together with
      the index of the next draw, threaded through the generator by the
      monad [Rand].
    - [performance.now() / 1000] and [clock.getDelta()] are inputs of a
      frame: [now] and [dt] for [tick], [now'] for the second reading of the
      clock made inside [prepareBuildCycle].
    - [THREE.MathUtils.lerp] and [degToRad] come from three.js r160, which
      the file imports by URL.
    - For [sampleImageToPoints] and [init] the image is its two sides and
      the RGBA bytes the canvas returns once the image is drawn on it;
      [getImageData] throws on a canvas with a side of 0, and then [init]
      does not start the animation: the result is [None].  The sides of the
      canvas are computed over the reals ([canvas_width], [canvas_height]);
      what is proved of [init] is proved for every pair of canvas sides.
      Loading the image and the texture is left to the host. *)

From Stdlib Require Import Reals Lra Lia List ZArith Bool PeanoNat.
From Stdlib Require Import Zfloor.
Import ListNotations.

Local Open Scope R_scope.

(** ** Numbers of the host language *)

Module Math.

(** [Math.max], [Math.min] and [Math.floor]; [Math.sin] and [Math.PI] are
    [sin] and [PI]. *)
Definition max (a b : R) : R := Rmax a b.
Definition min (a b : R) : R := Rmin a b.
Definition floor (x : R) : Z := Zfloor x.

(** [Math.pow] on a base that is not negative: a zero base gives 1 for a
    zero exponent and 0 for a positive one. *)
Definition pow (x y : R) : R :=
  if Req_dec_T x 0
  then (if Req_dec_T y 0 then 1 else 0)
  else Rpower x y.

(** [Math.hypot] of two arguments. *)
Definition hypot (x y : R) : R := sqrt (x * x + y * y).

End Math.

Module MathUtils.

(** three.js: [lerp( x, y, t ) { return ( 1 - t ) * x + t * y; }] *)
Definition lerp (x y t : R) : R := (1 - t) * x + t * y.

(** three.js: [degToRad( degrees ) { return degrees * DEG2RAD; }] *)
Definition degToRad (degrees : R) : R := degrees * (PI / 180).

End MathUtils.

(** ** SETTINGS *)

Module SETTINGS.
Definition LOGO_DIAMETER : R := 6.0.
Definition IMAGE_FIT : R := 0.81.
Module BUILD.
Definition startJitter : R := 1.2.
Definition minDur : R := 2.0.
Definition maxDur : R := 4.0.
Definition planeFadeAt : R := 0.92.
End BUILD.
Module HANDOFF.
Definition startProg : R := 0.94.
Definition endProg : R := 1.00.
End HANDOFF.
Module SHAKE.
Definition secs : R := 8.0.
Definition maxYawDeg : R := 25.
Definition speed : R := 0.5.
End SHAKE.
Module EXIT.
Definition startJitter : R := 0.5.
Definition minDur : R := 1.0.
Definition maxDur : R := 1.8.
Definition pushDistance : R := 6.0.
End EXIT.
Module LOOP.
Definition rebuildDelay : R := 1.0.
End LOOP.
End SETTINGS.

(** ** Helpers *)

Definition easeOutExpo (t : R) : R :=
  if Rge_dec t 1 then 1 else 1 - Math.pow 2 (-10 * t).

Definition easeInCubic (t : R) : R := t * t * t.

Definition clamp01 (v : R) : R := Math.max 0 (Math.min 1 v).

Definition smoothstep (a b x : R) : R :=
  let t := clamp01 ((x - a) / (b - a)) in
  t * t * (3 - 2 * t).

Definition randBetween_of (r a b : R) : R := a + r * (b - a).

Definition MAX_YAW : R := MathUtils.degToRad SETTINGS.SHAKE.maxYawDeg.

(** ** Typed arrays *)

Definition f32get (a : list R) (i : nat) : R := nth i a 0.

Fixpoint f32set (a : list R) (i : nat) (v : R) : list R :=
  match a, i with
  | [], _ => []
  | _ :: t, O => v :: t
  | h :: t, S j => h :: f32set t j v
  end.

(** [new Float32Array(n)] *)
Definition f32new (n : nat) : list R := repeat 0 n.

(** [for (let i = 0; i < n; i++) body], started at index [i]. *)
Fixpoint for_range {St : Type} (n i : nat) (body : nat -> St -> St) (s : St)
  : St :=
  match n with
  | O => s
  | S n' => for_range n' (S i) body (body i s)
  end.

(** ** The random source *)

Definition Rand (A : Type) : Type := nat -> A * nat.

Definition ret {A : Type} (a : A) : Rand A := fun g => (a, g).

Definition bind {A B : Type} (c : Rand A) (k : A -> Rand B) : Rand B :=
  fun g => let (a, g') := c g in k a g'.

Notation "x <- c ;; k" := (bind c (fun x => k))
  (at level 61, c at next level, right associativity).

(** The same loop, with a body that draws random numbers. *)
Fixpoint for_rand {St : Type} (n i : nat) (body : nat -> St -> Rand St)
  (s : St) : Rand St :=
  match n with
  | O => ret s
  | S n' => s' <- body i s ;; for_rand n' (S i) body s'
  end.

(** ** Phases and state *)

Inductive Phase : Type := BUILD_SPIN | SHAKE | EXIT | WAIT.

(** The module-level bindings of the file.  [position] is the array of the
    geometry's 'position' attribute, a copy ([slice]) of [startPositions];
    the 'target', 't0' and 'td' attributes share their arrays with
    [endPositions], [startTimesBuild] and [durationsBuild], which are never
    written after their creation. *)
Record State : Type := mkState {
  phase : Phase;
  tPhaseStart : R;
  shakePhase : R;
  bounds_w : R;
  bounds_h : R;
  scale : R;
  N : nat;
  startPositions : list R;
  endPositions : list R;
  exitPositions : list R;
  startTimesBuild : list R;
  durationsBuild : list R;
  startTimesExit : list R;
  durationsExit : list R;
  avgBuildProgress : R;
  position : list R;
  points_visible : bool;
  points_opacity : R;
  plane_opacity : R;
  rotation_x : R;
  rotation_y : R;
  rotation_z : R;
  rng : nat
}.

(** What a frame asks of the outside. *)
Inductive Call : Type := CallPrepareBuildCycle | CallRender.

Section LogoScene.

(** The successive results of [Math.random()]. *)
Variable random : nat -> R.

Definition Math_random : Rand R := fun g => (random g, S g).

Definition randBetween (a b : R) : Rand R :=
  r <- Math_random ;; ret (randBetween_of r a b).

(** *** prepareBuildCycle *)

(** The divisor of the exit direction: [Math.hypot(vx, vy) || 1]. *)
Definition exit_len (vx vy : R) : R :=
  let h := Math.hypot vx vy in
  if Req_dec_T h 0 then 1 else h.

(** The body of the first loop; the state of the loop is the pair
    [(startPositions, exitPositions)]. *)
Definition spawn_body (halfW halfH : R) (endPositions : list R) (i : nat)
  (arrs : list R * list R) : Rand (list R * list R) :=
  let (startPositions, exitPositions) := arrs in
  r_edge <- Math_random ;;
  let edge := Math.floor (r_edge * 4) in
  r_sz <- Math_random ;;
  let sz := (r_sz * 2 - 1) * 0.8 in
  sxy <- (if (edge =? 0)%Z then
            sy <- randBetween (- halfH) halfH ;; ret (- halfW, sy)
          else if (edge =? 1)%Z then
            sy <- randBetween (- halfH) halfH ;; ret (halfW, sy)
          else if (edge =? 2)%Z then
            sx <- randBetween (- halfW) halfW ;; ret (sx, halfH)
          else
            sx <- randBetween (- halfW) halfW ;; ret (sx, - halfH)) ;;
  let sx := fst sxy in
  let sy := snd sxy in
  let ix := (i * 3)%nat in
  let startPositions := f32set startPositions (ix + 0) sx in
  let startPositions := f32set startPositions (ix + 1) sy in
  let startPositions := f32set startPositions (ix + 2) sz in
  let vx := f32get endPositions (ix + 0) in
  let vy := f32get endPositions (ix + 1) in
  let len := exit_len vx vy in
  let dx := vx / len in
  let dy := vy / len in
  r_mag <- Math_random ;;
  let mag := SETTINGS.EXIT.pushDistance
             + r_mag * (SETTINGS.LOGO_DIAMETER * 0.8) in
  let exitPositions := f32set exitPositions (ix + 0) (vx + dx * mag) in
  let exitPositions := f32set exitPositions (ix + 1) (vy + dy * mag) in
  r_ez <- Math_random ;;
  let exitPositions := f32set exitPositions (ix + 2) ((r_ez * 2 - 1) * 1.2) in
  ret (startPositions, exitPositions).

(** The body of the two timing loops; the state of the loop is the pair
    (start times, durations). *)
Definition timing_body (jitter minDur maxDur : R) (i : nat)
  (arrs : list R * list R) : Rand (list R * list R) :=
  let (starts, durs) := arrs in
  r_start <- Math_random ;;
  let starts := f32set starts i (r_start * jitter) in
  r_dur <- Math_random ;;
  let durs := f32set durs i (minDur + r_dur * (maxDur - minDur)) in
  ret (starts, durs).

Definition PAD : R := SETTINGS.LOGO_DIAMETER * 0.75.
Definition halfW_of (st : State) : R := (bounds_w st * scale st) / 2 + PAD.
Definition halfH_of (st : State) : R := (bounds_h st * scale st) / 2 + PAD.

Definition prepareBuildCycle (now' : R) (st : State) : State :=
  let n := N st in
  let g0 := rng st in
  let halfW := halfW_of st in
  let halfH := halfH_of st in
  let '((startP, exitP), g1) :=
    for_rand n 0 (spawn_body halfW halfH (endPositions st))
      (f32new (n * 3), f32new (n * 3)) g0 in
  let '((t0, td), g2) :=
    for_rand n 0
      (timing_body SETTINGS.BUILD.startJitter SETTINGS.BUILD.minDur
         SETTINGS.BUILD.maxDur)
      (f32new n, f32new n) g1 in
  let '((e0, ed), g3) :=
    for_rand n 0
      (timing_body SETTINGS.EXIT.startJitter SETTINGS.EXIT.minDur
         SETTINGS.EXIT.maxDur)
      (f32new n, f32new n) g2 in
  {| phase := BUILD_SPIN;
     tPhaseStart := now';
     shakePhase := 0;
     bounds_w := bounds_w st;
     bounds_h := bounds_h st;
     scale := scale st;
     N := n;
     startPositions := startP;
     endPositions := endPositions st;
     exitPositions := exitP;
     startTimesBuild := t0;
     durationsBuild := td;
     startTimesExit := e0;
     durationsExit := ed;
     avgBuildProgress := 0;
     position := startP;
     points_visible := true;
     points_opacity := 1.0;
     plane_opacity := 0.0;
     rotation_x := 0;
     rotation_y := - PI;
     rotation_z := 0;
     rng := g3 |}.

(** *** tick *)

(** Progress of particle [i] at time [now] in the build and exit phases. *)
Definition build_prog (now : R) (st : State) (i : nat) : R :=
  let start := f32get (startTimesBuild st) i in
  let dur := f32get (durationsBuild st) i in
  clamp01 ((now - tPhaseStart st - start) / dur).

Definition exit_prog (now : R) (st : State) (i : nat) : R :=
  let start := f32get (startTimesExit st) i in
  let dur := f32get (durationsExit st) i in
  clamp01 ((now - tPhaseStart st - start) / dur).

(** Loop of the BUILD_SPIN branch; the state of the loop is the pair of the
    position array and [avg]. *)
Definition build_body (now : R) (st : State) (i : nat) (acc : list R * R)
  : list R * R :=
  let (pos, avg) := acc in
  let prog := build_prog now st i in
  let e := easeOutExpo prog in
  let ix := (i * 3)%nat in
  let pos := f32set pos (ix + 0)
    (MathUtils.lerp (f32get (startPositions st) (ix + 0))
                    (f32get (endPositions st) (ix + 0)) e) in
  let pos := f32set pos (ix + 1)
    (MathUtils.lerp (f32get (startPositions st) (ix + 1))
                    (f32get (endPositions st) (ix + 1)) e) in
  let pos := f32set pos (ix + 2)
    (MathUtils.lerp (f32get (startPositions st) (ix + 2))
                    (f32get (endPositions st) (ix + 2)) e) in
  (pos, avg + e).

(** Loop of the EXIT branch; the state of the loop is the pair of the
    position array and [done]. *)
Definition exit_body (now : R) (st : State) (i : nat) (acc : list R * nat)
  : list R * nat :=
  let (pos, done) := acc in
  let p := exit_prog now st i in
  let e := easeInCubic p in
  let ix := (i * 3)%nat in
  let pos := f32set pos (ix + 0)
    (MathUtils.lerp (f32get (endPositions st) (ix + 0))
                    (f32get (exitPositions st) (ix + 0)) e) in
  let pos := f32set pos (ix + 1)
    (MathUtils.lerp (f32get (endPositions st) (ix + 1))
                    (f32get (exitPositions st) (ix + 1)) e) in
  let pos := f32set pos (ix + 2)
    (MathUtils.lerp (f32get (endPositions st) (ix + 2))
                    (f32get (exitPositions st) (ix + 2)) e) in
  (pos, if Rge_dec p 1 then S done else done).

(** The blend factor and the two yaws of the hand-off, as [tick] computes
    them from the average build progress. *)
Definition handoff_s (avg : R) : R :=
  smoothstep SETTINGS.HANDOFF.startProg SETTINGS.HANDOFF.endProg avg.

Definition yawBuild_of (avg : R) : R := MathUtils.lerp (- PI) 0 avg.

Definition tick_build (now dt : R) (st : State) : State * list Call :=
  let (pos, avg) := for_range (N st) 0 (build_body now st) (position st, 0) in
  let avgBuildProgress := avg / INR (N st) in
  let plane_opacity :=
    if Rgt_dec avgBuildProgress SETTINGS.BUILD.planeFadeAt
    then Math.min 1 (plane_opacity st + 0.03)
    else plane_opacity st in
  let s := handoff_s avgBuildProgress in
  let yawBuild := yawBuild_of avgBuildProgress in
  let shakePhase :=
    shakePhase st
    + SETTINGS.SHAKE.speed * dt * (if Rgt_dec s 0 then 1 else 0) in
  let yawShake := MAX_YAW * sin shakePhase * s in
  let fade := Math.pow (1 - s) 1.5 in
  let full := if Rge_dec s 0.999 then true else false in
  let shown := if Rge_dec plane_opacity 0.999 then true else false in
  ({| phase := if full && shown then SHAKE else phase st;
      tPhaseStart := if full && shown then now else tPhaseStart st;
      shakePhase := shakePhase;
      bounds_w := bounds_w st;
      bounds_h := bounds_h st;
      scale := scale st;
      N := N st;
      startPositions := startPositions st;
      endPositions := endPositions st;
      exitPositions := exitPositions st;
      startTimesBuild := startTimesBuild st;
      durationsBuild := durationsBuild st;
      startTimesExit := startTimesExit st;
      durationsExit := durationsExit st;
      avgBuildProgress := avgBuildProgress;
      position := pos;
      points_visible := if full then false else points_visible st;
      points_opacity := fade;
      plane_opacity := plane_opacity;
      rotation_x := sin (now * 0.6) * 0.05;
      rotation_y := (1 - s) * yawBuild + yawShake;
      rotation_z := rotation_z st;
      rng := rng st |}, [CallRender]).

Definition tick_shake (now dt : R) (st : State) : State * list Call :=
  let shakePhase := shakePhase st + SETTINGS.SHAKE.speed * dt in
  let over :=
    if Rge_dec (now - tPhaseStart st) SETTINGS.SHAKE.secs
    then true else false in
  ({| phase := if over then EXIT else phase st;
      tPhaseStart := if over then now else tPhaseStart st;
      shakePhase := shakePhase;
      bounds_w := bounds_w st;
      bounds_h := bounds_h st;
      scale := scale st;
      N := N st;
      startPositions := startPositions st;
      endPositions := endPositions st;
      exitPositions := exitPositions st;
      startTimesBuild := startTimesBuild st;
      durationsBuild := durationsBuild st;
      startTimesExit := startTimesExit st;
      durationsExit := durationsExit st;
      avgBuildProgress := avgBuildProgress st;
      position := position st;
      points_visible := if over then true else points_visible st;
      points_opacity := if over then 1.0 else points_opacity st;
      plane_opacity := plane_opacity st;
      rotation_x := sin (now * 0.6) * 0.05;
      rotation_y := MAX_YAW * sin shakePhase;
      rotation_z := rotation_z st;
      rng := rng st |}, [CallRender]).

Definition tick_exit (now : R) (st : State) : State * list Call :=
  let (pos, done) := for_range (N st) 0 (exit_body now st) (position st, O) in
  let over := (N st <=? done)%nat in
  ({| phase := if over then WAIT else phase st;
      tPhaseStart := if over then now else tPhaseStart st;
      shakePhase := shakePhase st;
      bounds_w := bounds_w st;
      bounds_h := bounds_h st;
      scale := scale st;
      N := N st;
      startPositions := startPositions st;
      endPositions := endPositions st;
      exitPositions := exitPositions st;
      startTimesBuild := startTimesBuild st;
      durationsBuild := durationsBuild st;
      startTimesExit := startTimesExit st;
      durationsExit := durationsExit st;
      avgBuildProgress := avgBuildProgress st;
      position := pos;
      points_visible := points_visible st;
      points_opacity := points_opacity st;
      plane_opacity := Math.max 0 (plane_opacity st - 0.03);
      rotation_x := rotation_x st;
      rotation_y := rotation_y st;
      rotation_z := rotation_z st;
      rng := rng st |}, [CallRender]).

Definition tick_wait (now now' : R) (st : State) : State * list Call :=
  if Rge_dec (now - tPhaseStart st) SETTINGS.LOOP.rebuildDelay
  then (prepareBuildCycle now' st, [CallPrepareBuildCycle])
  else (st, [CallRender]).

(** One frame.  [now] is [performance.now() / 1000] read by [tick], [dt]
    is [clock.getDelta()], [now'] the clock as [prepareBuildCycle] reads
    it. *)
Definition tick (now dt now' : R) (st : State) : State * list Call :=
  match phase st with
  | BUILD_SPIN => tick_build now dt st
  | SHAKE => tick_shake now dt st
  | EXIT => tick_exit now st
  | WAIT => tick_wait now now' st
  end.

End LogoScene.

(** ** Well-formed states *)

(** The sizes the arrays have by construction: three coordinates per
    particle for the positions, one entry per particle for the timings. *)
Definition wf (st : State) : Prop :=
  length (startPositions st) = (N st * 3)%nat /\
  length (endPositions st) = (N st * 3)%nat /\
  length (exitPositions st) = (N st * 3)%nat /\
  length (position st) = (N st * 3)%nat /\
  length (startTimesBuild st) = N st /\
  length (durationsBuild st) = N st /\
  length (startTimesExit st) = N st /\
  length (durationsExit st) = N st.

(** The sum [f 0 + ... + f (n - 1)], in the order in which the loops add. *)
Fixpoint sum_upto (f : nat -> R) (n : nat) : R :=
  match n with
  | O => 0
  | S n' => sum_upto f n' + f n'
  end.

(** How many [i < n] satisfy [p], in the order in which the loops count. *)
Fixpoint count_upto (p : nat -> bool) (n : nat) : nat :=
  match n with
  | O => O
  | S n' => (count_upto p n' + if p n' then 1 else 0)%nat
  end.

(** ** Quantities of a frame *)

(** Eased build progress of particle [i] and its mean over the particles:
    the value [tick] stores in [avgBuildProgress]. *)
Definition build_e (now : R) (st : State) (i : nat) : R :=
  easeOutExpo (build_prog now st i).

Definition build_avg (now : R) (st : State) : R :=
  sum_upto (build_e now st) (N st) / INR (N st).

(** Whether particle [i] has finished its exit, and the [done] count. *)
Definition exit_finished (now : R) (st : State) (i : nat) : bool :=
  if Rge_dec (exit_prog now st i) 1 then true else false.

Definition exit_done (now : R) (st : State) : nat :=
  count_upto (exit_finished now st) (N st).

(** The spawn position the generator gives a particle from its three draws:
    the edge, the depth and the place along the edge. *)
Definition spawn_xyz (halfW halfH r_edge r_sz r_pos : R) : list R :=
  let edge := Math.floor (r_edge * 4) in
  let sz := (r_sz * 2 - 1) * 0.8 in
  if (edge =? 0)%Z then [- halfW; randBetween_of r_pos (- halfH) halfH; sz]
  else if (edge =? 1)%Z then [halfW; randBetween_of r_pos (- halfH) halfH; sz]
  else if (edge =? 2)%Z then [randBetween_of r_pos (- halfW) halfW; halfH; sz]
  else [randBetween_of r_pos (- halfW) halfW; - halfH; sz].

(** The exit target the generator gives a particle whose target is
    [(vx, vy)], from its two draws. *)
Definition exit_xyz (vx vy r_mag r_ez : R) : list R :=
  let len := exit_len vx vy in
  let mag := SETTINGS.EXIT.pushDistance
             + r_mag * (SETTINGS.LOGO_DIAMETER * 0.8) in
  [vx + vx / len * mag; vy + vy / len * mag; (r_ez * 2 - 1) * 1.2].

(** A point [(x, y)] lies on the boundary of the rectangle of half extents
    [hw] and [hh] around the origin. *)
Definition on_rectangle_edge (hw hh x y : R) : Prop :=
  (x = - hw /\ - hh <= y <= hh) \/
  (x = hw /\ - hh <= y <= hh) \/
  (y = hh /\ - hw <= x <= hw) \/
  (y = - hh /\ - hw <= x <= hw).

(** A point lies outside the closed rectangle of half extents [hw], [hh]. *)
Definition outside_rectangle (hw hh x y : R) : Prop :=
  hw < Rabs x \/ hh < Rabs y.

(** ** Concrete scenes *)

(** A stream of draws that cycles through 0, 1/4, 1/2, 3/4. *)
Definition draws (n : nat) : R := INR (n mod 4) / 4.

Definition scene (ph : Phase) (n : nat)
  (spawn target exit t0 td e0 ed : list R) : State :=
  {| phase := ph; tPhaseStart := 0; shakePhase := 0;
     bounds_w := 512; bounds_h := 256; scale := 4.86 / 512;
     N := n;
     startPositions := spawn; endPositions := target; exitPositions := exit;
     startTimesBuild := t0; durationsBuild := td;
     startTimesExit := e0; durationsExit := ed;
     avgBuildProgress := 0; position := spawn;
     points_visible := true; points_opacity := 1; plane_opacity := 0;
     rotation_x := 0; rotation_y := - PI; rotation_z := 0; rng := 0 |}.

(** One particle that starts its build after 0.5 s and takes 2.5 s. *)
Definition scene1 (ph : Phase) : State :=
  scene ph 1 [-7; 1; 0.4] [1; 2; 0] [4; 8; 0.6] [0.5] [2.5] [0.25] [1.5].

(** Scenario A of the specification: four particles, every build start 0
    and every build duration 2. *)
Definition scenarioA : State :=
  scene BUILD_SPIN 4
    [-7; 1; 0.4;  7; -2; -0.3;  3; 6; 0.1;  -4; -6; 0.8]
    [1; 2; 0;  -1; 2; 0;  1; -2; 0;  0; 0; 0]
    [4; 8; 0.6;  -4; 8; -0.6;  4; -8; 1;  0; 0; -1]
    [0; 0; 0; 0] [2; 2; 2; 2] [0; 0; 0; 0] [1; 1; 1; 1].

(** Scenario B of the specification: the same particles in the exit phase,
    every exit start 0 and every exit duration 1. *)
Definition scenarioB : State :=
  scene EXIT 4
    [-7; 1; 0.4;  7; -2; -0.3;  3; 6; 0.1;  -4; -6; 0.8]
    [1; 2; 0;  -1; 2; 0;  1; -2; 0;  0; 0; 0]
    [4; 8; 0.6;  -4; 8; -0.6;  4; -8; 1;  0; 0; -1]
    [0; 0; 0; 0] [2; 2; 2; 2] [0; 0; 0; 0] [1; 1; 1; 1].

(** ** Runs of frames *)

(** The phase that follows a phase in the cycle. *)
Definition next_phase (p : Phase) : Phase :=
  match p with
  | BUILD_SPIN => SHAKE
  | SHAKE => EXIT
  | EXIT => WAIT
  | WAIT => BUILD_SPIN
  end.

(** What the host passes to one call of [tick]: the two readings of the
    clock and the delta of [THREE.Clock]. *)
Record Frame : Type := mkFrame {
  frame_now : R;
  frame_dt : R;
  frame_now' : R
}.

(** [renderer.setAnimationLoop(tick)]: one call of [tick] per frame. *)
Fixpoint run (random : nat -> R) (frames : list Frame) (st : State) : State :=
  match frames with
  | [] => st
  | f :: fs =>
      run random fs
        (fst (tick random (frame_now f) (frame_dt f) (frame_now' f) st))
  end.

(** ** sampleImageToPoints and init *)

(** [for (let x = x0; x < bound; x += step) body].  The loop is run for at
    most [fuel] rounds; with [step >= 1], [bound] rounds are enough. *)
Fixpoint for_step {St : Type} (fuel x bound step : nat)
  (body : nat -> St -> Rand St) (s : St) : Rand St :=
  match fuel with
  | O => ret s
  | S fuel' =>
      if (x <? bound)%nat
      then s' <- body x s ;; for_step fuel' (x + step) bound step body s'
      else ret s
  end.

Record Bounds : Type := mkBounds {
  b_w : R;
  b_h : R;
  b_cx : R;
  b_cy : R
}.

Record Samples : Type := mkSamples {
  targets : list (R * R);
  bounds : Bounds
}.

(** The side of the canvas for an image of [iw] by [ih] pixels: the image
    is scaled down so that no side exceeds [maxSide = 512].  The product and
    its floor are taken over the reals; the program's product of doubles can
    fall just below an integer and give a side one pixel shorter. *)
Definition maxSide : R := 512.

Definition canvas_scale (iw ih : nat) : R :=
  Math.min 1 (maxSide / Math.max (INR iw) (INR ih)).

Definition canvas_width (iw ih : nat) : nat :=
  Z.to_nat (Math.floor (INR iw * canvas_scale iw ih)).

Definition canvas_height (iw ih : nat) : nat :=
  Z.to_nat (Math.floor (INR ih * canvas_scale iw ih)).

(** One pixel of the sampling grid.  [data] is the RGBA byte array of the
    canvas; a read past its end gives [undefined], which is not greater
    than the cutoff. *)
Definition sample_pixel (random : nat -> R) (cw alphaCutoff : nat)
  (data : list nat) (y x : nat) (pts : list (R * R)) : Rand (list (R * R)) :=
  let i := ((y * cw + x) * 4)%nat in
  match nth_error data (i + 3) with
  | Some a =>
      if (alphaCutoff <? a)%nat
      then rx <- Math_random random ;;
           ry <- Math_random random ;;
           ret (pts ++ [(INR x + (rx - 0.5) * 0.6, INR y + (ry - 0.5) * 0.6)])
      else ret pts
  | None => ret pts
  end.

Definition sample_row (random : nat -> R) (cw step alphaCutoff : nat)
  (data : list nat) (y : nat) (pts : list (R * R)) : Rand (list (R * R)) :=
  for_step cw 0 cw step (sample_pixel random cw alphaCutoff data y) pts.

(** The two loops of [sampleImageToPoints] over a canvas of [cw] by [ch]
    pixels with the bytes [data]. *)
Definition sample_grid (random : nat -> R) (cw ch step alphaCutoff : nat)
  (data : list nat) : Rand (list (R * R)) :=
  for_step ch 0 ch step (sample_row random cw step alphaCutoff data) [].

(** [sampleImageToPoints] from the point where the canvas has its sides
    [cw] and [ch]; [pixels cw ch] is what [getImageData] returns once the
    image is drawn on the canvas.  [getImageData] throws [IndexSizeError]
    when a side is 0: the result is then [None], and nothing is drawn. *)
Definition sample_canvas (random : nat -> R) (cw ch : nat)
  (pixels : nat -> nat -> list nat) (step alphaCutoff : nat)
  : Rand (option Samples) :=
  if ((cw =? 0) || (ch =? 0))%nat then ret None
  else
    let data := pixels cw ch in
    pts <- sample_grid random cw ch step alphaCutoff data ;;
    ret (Some {| targets := pts;
                 bounds := {| b_w := INR cw; b_h := INR ch;
                              b_cx := INR cw / 2; b_cy := INR ch / 2 |} |}).

(** [sampleImageToPoints(img, { step, alphaCutoff })] for an image of [iw]
    by [ih] pixels. *)
Definition sampleImageToPoints (random : nat -> R) (iw ih : nat)
  (pixels : nat -> nat -> list nat) (step alphaCutoff : nat)
  : Rand (option Samples) :=
  sample_canvas random (canvas_width iw ih) (canvas_height iw ih) pixels
    step alphaCutoff.

(** [centeredTargets]: the samples centred on the image and scaled. *)
Definition init_scale (b : Bounds) : R :=
  (SETTINGS.LOGO_DIAMETER * SETTINGS.IMAGE_FIT) / Math.max (b_w b) (b_h b).

Definition centeredTargets (s : Samples) : list (R * R * R) :=
  map (fun p => ((fst p - b_cx (bounds s)) * init_scale (bounds s),
                 (b_cy (bounds s) - snd p) * init_scale (bounds s),
                 0))
      (targets s).

(** The loop of [init] that fills [endPositions]. *)
Definition fill_body (centered : list (R * R * R)) (i : nat) (arr : list R)
  : list R :=
  let v := nth i centered (0, 0, 0) in
  let arr := f32set arr (i * 3 + 0) (fst (fst v)) in
  let arr := f32set arr (i * 3 + 1) (snd (fst v)) in
  let arr := f32set arr (i * 3 + 2) (snd v) in
  arr.

(** The state [init] hands to the animation loop: the module's bindings as
    declared, then [N], [endPositions], [bounds] and [scale] from the
    samples, then [prepareBuildCycle]. *)
Definition init_of_samples (random : nat -> R) (now' : R) (s : Samples)
  (g : nat) : State :=
  let centered := centeredTargets s in
  let n := length centered in
  prepareBuildCycle random now'
    {| phase := BUILD_SPIN; tPhaseStart := 0; shakePhase := 0;
       bounds_w := b_w (bounds s); bounds_h := b_h (bounds s);
       scale := init_scale (bounds s);
       N := n;
       startPositions := [];
       endPositions := for_range n 0 (fill_body centered) (f32new (n * 3));
       exitPositions := [];
       startTimesBuild := []; durationsBuild := [];
       startTimesExit := []; durationsExit := [];
       avgBuildProgress := 0; position := [];
       points_visible := true; points_opacity := 1.0; plane_opacity := 0.0;
       rotation_x := 0; rotation_y := 0; rotation_z := 0; rng := g |}.

(** [SETTINGS.BUILD.step] and [SETTINGS.BUILD.alphaCutoff]. *)
Definition BUILD_step : nat := 3.
Definition BUILD_alphaCutoff : nat := 12.

(** [init] from the point where the canvas has its sides [cw] and [ch]:
    the state it hands to the animation loop, or [None] when the sampling
    throws and the loop is never started. *)
Definition init_on_canvas (random : nat -> R) (cw ch : nat)
  (pixels : nat -> nat -> list nat) (now' : R) (g : nat) : option State :=
  let (os, g') :=
    sample_canvas random cw ch pixels BUILD_step BUILD_alphaCutoff g in
  match os with
  | Some s => Some (init_of_samples random now' s g')
  | None => None
  end.

Definition init (random : nat -> R) (iw ih : nat)
  (pixels : nat -> nat -> list nat) (now' : R) (g : nat) : option State :=
  init_on_canvas random (canvas_width iw ih) (canvas_height iw ih) pixels
    now' g.

(** A canvas of 4 by 4 pixels, all opaque but the first of each row. *)
Definition pixels4 (cw ch : nat) : list nat :=
  concat (repeat [0; 0; 0; 0;  9; 9; 9; 255;  9; 9; 9; 255;  9; 9; 9; 255]%nat
            ch).

(** The values [x], [x + step], ... below [bound] that [for_step] visits
    with [fuel] rounds. *)
Fixpoint steps (fuel x bound step : nat) : list nat :=
  match fuel with
  | O => []
  | S fuel' =>
      if (x <? bound)%nat then x :: steps fuel' (x + step) bound step else []
  end.

(** A body run over a list of values, left to right. *)
Fixpoint for_each {A St : Type} (body : A -> St -> Rand St) (l : list A)
  (s : St) : Rand St :=
  match l with
  | [] => ret s
  | a :: l' => s' <- body a s ;; for_each body l' s'
  end.

(** The alpha byte of the pixel [(x, y)] of a canvas [cw] wide, if the
    array holds it. *)
Definition alpha_at (cw : nat) (data : list nat) (x y : nat) : option nat :=
  nth_error data ((y * cw + x) * 4 + 3).

(** A sample [p] comes from the grid pixel [(x, y)]: the pixel is on the
    canvas and on the grid, its alpha exceeds the cutoff, and [p] is within
    0.3 of it in both directions. *)
Definition sampled_from (cw ch step alphaCutoff : nat) (data : list nat)
  (p : R * R) (x y : nat) : Prop :=
  (x < cw)%nat /\ (y < ch)%nat /\
  (exists k, x = (k * step)%nat) /\ (exists k, y = (k * step)%nat) /\
  (exists a, alpha_at cw data x y = Some a /\ (alphaCutoff < a)%nat) /\
  - 0.3 <= fst p - INR x < 0.3 /\ - 0.3 <= snd p - INR y < 0.3.

(** What the two loops keep true of the samples collected so far. *)
Definition samples_ok (cw ch step alphaCutoff : nat) (data : list nat)
  (g0 : nat) (pts : list (R * R)) (g : nat) : Prop :=
  Forall (fun p => exists x y,
            sampled_from cw ch step alphaCutoff data p x y) pts /\
  g = (g0 + 2 * length pts)%nat.

(** The indices of the nine draws [prepareBuildCycle] makes for particle
    [i] of [n], when the first draw of the cycle has index [g]: edge, spawn
    depth, place on the edge, exit magnitude, exit depth; build start, build
    duration; exit start, exit duration. *)
Definition particle_draws (g n i : nat) : list nat :=
  [g + 5 * i; g + 5 * i + 1; g + 5 * i + 2; g + 5 * i + 3; g + 5 * i + 4;
   g + 5 * n + 2 * i; g + 5 * n + 2 * i + 1;
   g + 7 * n + 2 * i; g + 7 * n + 2 * i + 1]%nat.

(** * Lemmas *)

(** ** Arithmetic of the helpers *)

Ltac minmax :=
  unfold clamp01, Math.max, Math.min, Rmax, Rmin in *;
  repeat destruct Rle_dec; try lra.

Lemma clamp01_range (v : R) : 0 <= clamp01 v <= 1.
Proof. minmax. Qed.

Lemma clamp01_id (v : R) : 0 <= v <= 1 -> clamp01 v = v.
Proof. intros H. minmax. Qed.

Lemma clamp01_low (v : R) : v <= 0 -> clamp01 v = 0.
Proof. intros H. minmax. Qed.

Lemma clamp01_high (v : R) : 1 <= v -> clamp01 v = 1.
Proof. intros H. minmax. Qed.

Lemma clamp01_mono (u v : R) : u <= v -> clamp01 u <= clamp01 v.
Proof. intros H. minmax. Qed.

Lemma div_ge_1 (x d : R) : 0 < d -> x >= d -> 1 <= x / d.
Proof.
  intros Hd Hx. apply Rmult_le_reg_r with d; [exact Hd |].
  unfold Rdiv. rewrite Rmult_assoc, Rinv_l by lra. lra.
Qed.

Lemma pow2 (y : R) : Math.pow 2 y = Rpower 2 y.
Proof.
  unfold Math.pow. destruct (Req_dec_T 2 0) as [E | _]; [lra | reflexivity].
Qed.

Lemma Rpower2_pos (y : R) : 0 < Rpower 2 y.
Proof. unfold Rpower. apply exp_pos. Qed.

Lemma Rpower2_le1 (y : R) : y <= 0 -> Rpower 2 y <= 1.
Proof.
  intros H. destruct (Req_dec_T y 0) as [-> | Hn].
  - rewrite Rpower_O; lra.
  - rewrite <- (Rpower_O 2) by lra. left. apply Rpower_lt; lra.
Qed.

Lemma Rpower2_neg_nat (n : nat) : Rpower 2 (- INR n) = / 2 ^ n.
Proof. rewrite Rpower_Ropp, Rpower_pow by lra. reflexivity. Qed.

Lemma easeOutExpo_0 : easeOutExpo 0 = 0.
Proof.
  unfold easeOutExpo. destruct (Rge_dec 0 1) as [H | _]; [lra |].
  rewrite pow2, Rmult_0_r, Rpower_O; lra.
Qed.

Lemma easeOutExpo_1 : easeOutExpo 1 = 1.
Proof.
  unfold easeOutExpo. destruct (Rge_dec 1 1) as [_ | H]; [reflexivity | lra].
Qed.

Lemma easeOutExpo_range (t : R) : 0 <= t -> 0 <= easeOutExpo t <= 1.
Proof.
  intros Ht. unfold easeOutExpo. destruct (Rge_dec t 1) as [_ | _]; [lra |].
  rewrite pow2.
  pose proof (Rpower2_pos (-10 * t)).
  pose proof (Rpower2_le1 (-10 * t)). lra.
Qed.

Lemma lerp_0 (x y : R) : MathUtils.lerp x y 0 = x.
Proof. unfold MathUtils.lerp. lra. Qed.

Lemma lerp_1 (x y : R) : MathUtils.lerp x y 1 = y.
Proof. unfold MathUtils.lerp. lra. Qed.

Lemma lerp_between (x y t : R) :
  0 <= t <= 1 ->
  Rmin x y <= MathUtils.lerp x y t <= Rmax x y.
Proof.
  intros Ht. unfold MathUtils.lerp, Rmin, Rmax.
  destruct (Rle_dec x y); nra.
Qed.

(** ** Typed arrays *)

Lemma f32set_length (a : list R) (i : nat) (v : R) :
  length (f32set a i v) = length a.
Proof.
  revert i. induction a as [| h t IH]; intros [| j]; simpl; auto.
Qed.

Lemma f32get_set_same (a : list R) (i : nat) (v : R) :
  (i < length a)%nat -> f32get (f32set a i v) i = v.
Proof.
  unfold f32get. revert i.
  induction a as [| h t IH]; intros [| j] H; simpl in *; try lia; auto.
  apply IH. lia.
Qed.

Lemma f32get_set_other (a : list R) (i j : nat) (v : R) :
  i <> j -> f32get (f32set a i v) j = f32get a j.
Proof.
  unfold f32get. revert i j.
  induction a as [| h t IH]; intros [| i] [| j] H; simpl; auto; try lia.
Qed.

Lemma f32new_length (n : nat) : length (f32new n) = n.
Proof. apply repeat_length. Qed.

(** Three successive writes at [j*3], [j*3+1], [j*3+2], read back at the
    coordinate [k] of particle [i]. *)
Lemma write3_get (a : list R) (i j k : nat) (v0 v1 v2 : R) :
  (j * 3 + 2 < length a)%nat -> (k < 3)%nat ->
  f32get
    (f32set (f32set (f32set a (j * 3 + 0) v0) (j * 3 + 1) v1) (j * 3 + 2) v2)
    (i * 3 + k)
  = if (i =? j)%nat then nth k [v0; v1; v2] 0 else f32get a (i * 3 + k).
Proof.
  intros Hlen Hk.
  destruct (Nat.eqb_spec i j) as [-> | Hij].
  - destruct k as [| [| [| k]]]; try lia; simpl nth.
    + rewrite !f32get_set_other by lia.
      apply f32get_set_same. lia.
    + rewrite f32get_set_other by lia.
      apply f32get_set_same. rewrite f32set_length. lia.
    + apply f32get_set_same. rewrite !f32set_length. lia.
  - rewrite !f32get_set_other by lia. reflexivity.
Qed.

(** ** Loops *)

(** The rule of the loop invariant for [for_range]. *)
Lemma for_range_inv {St : Type} (P : nat -> St -> Prop)
  (body : nat -> St -> St) (n : nat) :
  forall (i : nat) (s : St),
    P i s ->
    (forall j s', (i <= j < i + n)%nat -> P j s' -> P (S j) (body j s')) ->
    P (i + n)%nat (for_range n i body s).
Proof.
  induction n as [| n IH]; intros i s H0 Hstep; simpl.
  - rewrite Nat.add_0_r. exact H0.
  - replace (i + S n)%nat with (S i + n)%nat by lia.
    apply IH.
    + apply Hstep; [lia | exact H0].
    + intros j s' Hj. apply Hstep. lia.
Qed.

(** The same rule for a loop that draws random numbers; the invariant also
    sees the index of the next draw. *)
Lemma for_rand_inv {St : Type} (P : nat -> St -> nat -> Prop)
  (body : nat -> St -> Rand St) (n : nat) :
  forall (i : nat) (s : St) (g : nat),
    P i s g ->
    (forall j s' g', (i <= j < i + n)%nat -> P j s' g' ->
       P (S j) (fst (body j s' g')) (snd (body j s' g'))) ->
    P (i + n)%nat (fst (for_rand n i body s g)) (snd (for_rand n i body s g)).
Proof.
  induction n as [| n IH]; intros i s g H0 Hstep; simpl.
  - rewrite Nat.add_0_r. exact H0.
  - unfold bind. destruct (body i s g) as [s1 g1] eqn:E.
    replace (i + S n)%nat with (S i + n)%nat by lia.
    apply IH.
    + specialize (Hstep i s g). rewrite E in Hstep. apply Hstep; [lia | exact H0].
    + intros j s' g' Hj. apply Hstep. lia.
Qed.

(** ** The loops of [tick] *)

Lemma build_loop_spec (now : R) (st : State) :
  length (position st) = (N st * 3)%nat ->
  let r := for_range (N st) 0 (build_body now st) (position st, 0) in
  length (fst r) = (N st * 3)%nat /\
  (forall i k, (i < N st)%nat -> (k < 3)%nat ->
     f32get (fst r) (i * 3 + k)
     = MathUtils.lerp (f32get (startPositions st) (i * 3 + k))
         (f32get (endPositions st) (i * 3 + k)) (build_e now st i)) /\
  snd r = sum_upto (build_e now st) (N st).
Proof.
  intros Hlen r. subst r.
  pose (P := fun (j : nat) (acc : list R * R) =>
    length (fst acc) = (N st * 3)%nat /\
    (forall i k, (i < j)%nat -> (k < 3)%nat ->
       f32get (fst acc) (i * 3 + k)
       = MathUtils.lerp (f32get (startPositions st) (i * 3 + k))
           (f32get (endPositions st) (i * 3 + k)) (build_e now st i)) /\
    snd acc = sum_upto (build_e now st) j).
  apply (for_range_inv P (build_body now st) (N st) 0).
  - unfold P; simpl. repeat split; auto. intros; lia.
  - intros j [pos avg] Hj (HL & Hpos & Havg). simpl in *.
    unfold P, build_body; simpl. repeat split.
    + rewrite !f32set_length. exact HL.
    + intros i k Hi Hk. rewrite write3_get by lia.
      destruct (Nat.eqb_spec i j) as [-> | Hne].
      * destruct k as [| [| [| k]]]; try lia; reflexivity.
      * apply Hpos; lia.
    + rewrite Havg. reflexivity.
Qed.

Lemma exit_loop_spec (now : R) (st : State) :
  length (position st) = (N st * 3)%nat ->
  let r := for_range (N st) 0 (exit_body now st) (position st, O) in
  length (fst r) = (N st * 3)%nat /\
  (forall i k, (i < N st)%nat -> (k < 3)%nat ->
     f32get (fst r) (i * 3 + k)
     = MathUtils.lerp (f32get (endPositions st) (i * 3 + k))
         (f32get (exitPositions st) (i * 3 + k))
         (easeInCubic (exit_prog now st i))) /\
  snd r = exit_done now st.
Proof.
  intros Hlen r. subst r. unfold exit_done.
  pose (P := fun (j : nat) (acc : list R * nat) =>
    length (fst acc) = (N st * 3)%nat /\
    (forall i k, (i < j)%nat -> (k < 3)%nat ->
       f32get (fst acc) (i * 3 + k)
       = MathUtils.lerp (f32get (endPositions st) (i * 3 + k))
           (f32get (exitPositions st) (i * 3 + k))
           (easeInCubic (exit_prog now st i))) /\
    snd acc = count_upto (exit_finished now st) j).
  apply (for_range_inv P (exit_body now st) (N st) 0).
  - unfold P; simpl. repeat split; auto. intros; lia.
  - intros j [pos done] Hj (HL & Hpos & Hdone). simpl in *.
    unfold P, exit_body; simpl. repeat split.
    + rewrite !f32set_length. exact HL.
    + intros i k Hi Hk. rewrite write3_get by lia.
      destruct (Nat.eqb_spec i j) as [-> | Hne].
      * destruct k as [| [| [| k]]]; try lia; reflexivity.
      * apply Hpos; lia.
    + rewrite Hdone. unfold exit_finished.
      destruct (Rge_dec (exit_prog now st j) 1); lia.
Qed.

Lemma count_upto_le (p : nat -> bool) (n : nat) : (count_upto p n <= n)%nat.
Proof.
  induction n as [| n IH]; simpl; [lia |]. destruct (p n); lia.
Qed.

Lemma count_upto_full (p : nat -> bool) (n : nat) :
  count_upto p n = n <-> (forall i, (i < n)%nat -> p i = true).
Proof.
  induction n as [| n IH]; simpl.
  - split; [intros _ i Hi; lia | reflexivity].
  - pose proof (count_upto_le p n) as Hle. split.
    + intros H i Hi. destruct (p n) eqn:E; [| lia].
      destruct (Nat.eq_dec i n) as [-> | Hne]; [exact E |].
      apply IH; lia.
    + intros H. rewrite (H n) by lia.
      assert (count_upto p n = n) by (apply IH; intros; apply H; lia). lia.
Qed.

Lemma sum_upto_range (f : nat -> R) (n : nat) :
  (forall i, (i < n)%nat -> 0 <= f i <= 1) ->
  0 <= sum_upto f n <= INR n.
Proof.
  induction n as [| n IH]; intros H.
  - simpl. lra.
  - rewrite S_INR. simpl.
    assert (0 <= sum_upto f n <= INR n) by (apply IH; intros; apply H; lia).
    pose proof (H n ltac:(lia)). lra.
Qed.

(** ** The fields of the state after a frame of each phase *)

Lemma build_prog_range (now : R) (st : State) (i : nat) :
  0 <= build_prog now st i <= 1.
Proof. unfold build_prog. apply clamp01_range. Qed.

Lemma build_e_range (now : R) (st : State) (i : nat) :
  0 <= build_e now st i <= 1.
Proof.
  unfold build_e. apply easeOutExpo_range. apply build_prog_range.
Qed.

Lemma build_avg_range (now : R) (st : State) :
  (0 < N st)%nat -> 0 <= build_avg now st <= 1.
Proof.
  intros HN. unfold build_avg.
  pose proof (sum_upto_range (build_e now st) (N st)
                (fun i _ => build_e_range now st i)) as Hs.
  assert (0 < INR (N st)) by (apply lt_0_INR; exact HN).
  split.
  - apply Rmult_le_pos; [lra | left; apply Rinv_0_lt_compat; lra].
  - apply Rmult_le_reg_r with (INR (N st)); [lra |].
    unfold Rdiv. rewrite Rmult_assoc, Rinv_l by lra. lra.
Qed.

Lemma tick_build_avg (now dt : R) (st : State) :
  avgBuildProgress (fst (tick_build now dt st)) = build_avg now st.
Proof.
  unfold tick_build, build_avg.
  pose (P := fun (j : nat) (acc : list R * R) =>
               snd acc = sum_upto (build_e now st) j).
  assert (H : P (0 + N st)%nat
                (for_range (N st) 0 (build_body now st) (position st, 0))).
  { apply for_range_inv.
    - reflexivity.
    - intros j [pos avg] _ Hs. unfold P in *; simpl in *. rewrite Hs.
      reflexivity. }
  unfold P in H. simpl in H.
  destruct (for_range (N st) 0 (build_body now st) (position st, 0))
    as [pos avg]. simpl in *. rewrite H. reflexivity.
Qed.

Lemma tick_build_fields (now dt : R) (st : State) :
  let st' := fst (tick_build now dt st) in
  let avg := avgBuildProgress st' in
  let s := handoff_s avg in
  shakePhase st'
  = shakePhase st
    + SETTINGS.SHAKE.speed * dt * (if Rgt_dec s 0 then 1 else 0) /\
  rotation_y st'
  = (1 - s) * yawBuild_of avg + MAX_YAW * sin (shakePhase st') * s /\
  plane_opacity st'
  = (if Rgt_dec avg SETTINGS.BUILD.planeFadeAt
     then Math.min 1 (plane_opacity st + 0.03)
     else plane_opacity st) /\
  phase st'
  = (if (if Rge_dec s 0.999 then true else false)
        && (if Rge_dec (plane_opacity st') 0.999 then true else false)
     then SHAKE else phase st) /\
  tPhaseStart st'
  = (if (if Rge_dec s 0.999 then true else false)
        && (if Rge_dec (plane_opacity st') 0.999 then true else false)
     then now else tPhaseStart st) /\
  snd (tick_build now dt st) = [CallRender].
Proof.
  unfold tick_build.
  destruct (for_range (N st) 0 (build_body now st) (position st, 0))
    as [pos avg].
  simpl. repeat split; reflexivity.
Qed.

Lemma tick_build_frame (now dt : R) (st : State) :
  let st' := fst (tick_build now dt st) in
  N st' = N st /\
  startPositions st' = startPositions st /\
  endPositions st' = endPositions st /\
  exitPositions st' = exitPositions st /\
  startTimesBuild st' = startTimesBuild st /\
  durationsBuild st' = durationsBuild st /\
  startTimesExit st' = startTimesExit st /\
  durationsExit st' = durationsExit st.
Proof.
  unfold tick_build.
  destruct (for_range (N st) 0 (build_body now st) (position st, 0))
    as [pos avg].
  simpl. repeat split; reflexivity.
Qed.

Lemma tick_build_position (now dt : R) (st : State) (i k : nat) :
  length (position st) = (N st * 3)%nat ->
  (i < N st)%nat -> (k < 3)%nat ->
  f32get (position (fst (tick_build now dt st))) (i * 3 + k)
  = MathUtils.lerp (f32get (startPositions st) (i * 3 + k))
      (f32get (endPositions st) (i * 3 + k)) (build_e now st i).
Proof.
  intros Hlen Hi Hk.
  destruct (build_loop_spec now st Hlen) as (_ & Hpos & _).
  unfold tick_build.
  destruct (for_range (N st) 0 (build_body now st) (position st, 0))
    as [pos avg].
  simpl in *. apply Hpos; assumption.
Qed.

Lemma tick_exit_fields (now : R) (st : State) :
  length (position st) = (N st * 3)%nat ->
  let st' := fst (tick_exit now st) in
  (forall i k, (i < N st)%nat -> (k < 3)%nat ->
     f32get (position st') (i * 3 + k)
     = MathUtils.lerp (f32get (endPositions st) (i * 3 + k))
         (f32get (exitPositions st) (i * 3 + k))
         (easeInCubic (exit_prog now st i))) /\
  phase st' = (if (N st <=? exit_done now st)%nat then WAIT else phase st) /\
  tPhaseStart st'
  = (if (N st <=? exit_done now st)%nat then now else tPhaseStart st) /\
  plane_opacity st' = Math.max 0 (plane_opacity st - 0.03) /\
  snd (tick_exit now st) = [CallRender].
Proof.
  intros Hlen.
  destruct (exit_loop_spec now st Hlen) as (_ & Hpos & Hdone).
  unfold tick_exit.
  destruct (for_range (N st) 0 (exit_body now st) (position st, O))
    as [pos done].
  simpl in *. subst done. repeat split; try reflexivity. exact Hpos.
Qed.

(** The blend factor is a fraction. *)
Lemma handoff_s_range (avg : R) : 0 <= handoff_s avg <= 1.
Proof.
  unfold handoff_s, smoothstep.
  pose proof (clamp01_range
    ((avg - SETTINGS.HANDOFF.startProg)
     / (SETTINGS.HANDOFF.endProg - SETTINGS.HANDOFF.startProg))) as H.
  cbv zeta.
  set (t := clamp01 _) in *.
  assert (H2 : 0 <= t * t) by nra.
  assert (H3 : 0 <= (1 - t) * (1 - t)) by nra.
  split.
  - apply Rmult_le_pos; lra.
  - assert (0 <= (1 - t) * (1 - t) * (1 + 2 * t))
      by (apply Rmult_le_pos; lra).
    lra.
Qed.

Lemma tick_phase_build (random : nat -> R) (now dt now' : R) (st : State) :
  phase st = BUILD_SPIN -> tick random now dt now' st = tick_build now dt st.
Proof. intros H. unfold tick. rewrite H. reflexivity. Qed.

Lemma tick_phase_exit (random : nat -> R) (now dt now' : R) (st : State) :
  phase st = EXIT -> tick random now dt now' st = tick_exit now st.
Proof. intros H. unfold tick. rewrite H. reflexivity. Qed.

Lemma tick_phase_wait (random : nat -> R) (now dt now' : R) (st : State) :
  phase st = WAIT ->
  tick random now dt now' st = tick_wait random now now' st.
Proof. intros H. unfold tick. rewrite H. reflexivity. Qed.

Lemma wf_scenarioA : wf scenarioA.
Proof. repeat split; reflexivity. Qed.

Lemma wf_scenarioB : wf scenarioB.
Proof. repeat split; reflexivity. Qed.

Lemma wf_scene1 (ph : Phase) : wf (scene1 ph).
Proof. repeat split; reflexivity. Qed.

(** * The claims *)

(** ** Endpoints of the easings (C9) *)

(** C9: the ease functions fix their endpoints, [easeOutExpo 0 = 0],
    [easeOutExpo 1 = 1], [easeInCubic 0 = 0], [easeInCubic 1 = 1], and so
    does the interpolation; consequently, after a build frame, a particle
    whose progress is 0 sits exactly at its spawn position and a particle
    whose progress is 1 sits exactly at its target position. *)
Theorem ease_endpoints_fix_positions
  (random : nat -> R) (now dt now' : R) (st : State) (i k : nat)
  (Hwf : wf st) (Hphase : phase st = BUILD_SPIN)
  (Hi : (i < N st)%nat) (Hk : (k < 3)%nat) :
  let st' := fst (tick random now dt now' st) in
  let spawn := f32get (startPositions st) (i * 3 + k) in
  let target := f32get (endPositions st) (i * 3 + k) in
  easeOutExpo 0 = 0 /\ easeOutExpo 1 = 1 /\
  easeInCubic 0 = 0 /\ easeInCubic 1 = 1 /\
  MathUtils.lerp spawn target (easeOutExpo 0) = spawn /\
  MathUtils.lerp spawn target (easeOutExpo 1) = target /\
  (build_prog now st i = 0 -> f32get (position st') (i * 3 + k) = spawn) /\
  (build_prog now st i = 1 -> f32get (position st') (i * 3 + k) = target).
Proof.
  intros st' spawn target.
  destruct Hwf as (_ & _ & _ & Hpos & _).
  assert (Hp : f32get (position st') (i * 3 + k)
               = MathUtils.lerp spawn target (build_e now st i)).
  { subst st'. rewrite tick_phase_build by exact Hphase.
    apply tick_build_position; assumption. }
  repeat split.
  - exact easeOutExpo_0.
  - exact easeOutExpo_1.
  - unfold easeInCubic. lra.
  - unfold easeInCubic. lra.
  - rewrite easeOutExpo_0. apply lerp_0.
  - rewrite easeOutExpo_1. apply lerp_1.
  - intros H0. rewrite Hp. unfold build_e. rewrite H0, easeOutExpo_0.
    apply lerp_0.
  - intros H1. rewrite Hp. unfold build_e. rewrite H1, easeOutExpo_1.
    apply lerp_1.
Qed.

(** Scenario A at the start of the phase and two seconds later: the second
    particle's x coordinate is its spawn's 7, then its target's -1. *)
Lemma ease_endpoints_fix_positions_witness :
  f32get (position (fst (tick draws 0 0 0 scenarioA))) (1 * 3 + 0) = 7 /\
  f32get (position (fst (tick draws 2 0 0 scenarioA))) (1 * 3 + 0) = -1.
Proof.
  split.
  - apply (ease_endpoints_fix_positions draws 0 0 0 scenarioA 1 0
             wf_scenarioA eq_refl); simpl; try lia.
    unfold build_prog, scenarioA, scene, f32get; simpl.
    apply clamp01_low. lra.
  - apply (ease_endpoints_fix_positions draws 2 0 0 scenarioA 1 0
             wf_scenarioA eq_refl); simpl; try lia.
    unfold build_prog, scenarioA, scene, f32get; simpl.
    apply clamp01_high. lra.
Defined.

(** ** Build progress is clamped and monotone (C7) *)

(** C7: the build progress [clamp01 ((t - buildStart_i) / buildDuration_i)]
    of a particle lies in [0, 1] at every time; for a positive duration it
    is strictly increasing between two times as long as it has not reached
    1 at the earlier and has left 0 at the later; and the position a build
    frame writes stays between the spawn and the target coordinate, a frame
    that comes after the end of the particle's build putting it exactly on
    the target. *)
Theorem build_progress_clamped
  (random : nat -> R) (st : State) (i k : nat)
  (Hwf : wf st) (Hphase : phase st = BUILD_SPIN)
  (Hi : (i < N st)%nat) (Hk : (k < 3)%nat)
  (Hdur : 0 < f32get (durationsBuild st) i) :
  let start := f32get (startTimesBuild st) i in
  let dur := f32get (durationsBuild st) i in
  let spawn := f32get (startPositions st) (i * 3 + k) in
  let target := f32get (endPositions st) (i * 3 + k) in
  let buildProgress := fun now => build_prog now st i in
  (forall now,
     buildProgress now = clamp01 ((now - tPhaseStart st - start) / dur)) /\
  (forall now, 0 <= buildProgress now <= 1) /\
  (forall now1 now2, now1 < now2 ->
     buildProgress now1 < 1 -> 0 < buildProgress now2 ->
     buildProgress now1 < buildProgress now2) /\
  (forall now dt now',
     Rmin spawn target
     <= f32get (position (fst (tick random now dt now' st))) (i * 3 + k)
     <= Rmax spawn target) /\
  (forall now dt now', now - tPhaseStart st - start >= dur ->
     f32get (position (fst (tick random now dt now' st))) (i * 3 + k)
     = target).
Proof.
  intros start dur spawn target buildProgress.
  destruct Hwf as (_ & _ & _ & Hpos & _).
  assert (Hp : forall now dt now',
               f32get (position (fst (tick random now dt now' st))) (i * 3 + k)
               = MathUtils.lerp spawn target (build_e now st i)).
  { intros. rewrite tick_phase_build by exact Hphase.
    apply tick_build_position; assumption. }
  repeat split.
  - apply build_prog_range.
  - apply build_prog_range.
  - intros now1 now2 Hlt H1 H2. subst buildProgress. unfold build_prog in *.
    fold start dur in H1, H2 |- *.
    assert (Hq : (now1 - tPhaseStart st - start) / dur
                 < (now2 - tPhaseStart st - start) / dur).
    { unfold Rdiv. apply Rmult_lt_compat_r.
      - apply Rinv_0_lt_compat; exact Hdur.
      - lra. }
    revert H1 H2 Hq.
    generalize ((now1 - tPhaseStart st - start) / dur).
    generalize ((now2 - tPhaseStart st - start) / dur).
    intros x2 x1 H1 H2 Hq. minmax.
  - rewrite Hp. apply lerp_between, build_e_range.
  - rewrite Hp. apply lerp_between, build_e_range.
  - intros now dt now' Hge. rewrite Hp.
    unfold build_e, build_prog. fold start dur.
    rewrite clamp01_high, easeOutExpo_1; [apply lerp_1 |].
    apply div_ge_1; [exact Hdur | exact Hge].
Qed.

(** The particle of [scene1] a whole hour after the start of the phase: its
    x coordinate is that of its target. *)
Lemma build_progress_clamped_witness :
  f32get (position (fst (tick draws 3600 3600 0 (scene1 BUILD_SPIN))))
    (0 * 3 + 0) = 1.
Proof.
  assert (Hdur : 0 < f32get (durationsBuild (scene1 BUILD_SPIN)) 0)
    by (unfold f32get; simpl; lra).
  apply (build_progress_clamped draws (scene1 BUILD_SPIN) 0 0
           (wf_scene1 BUILD_SPIN) eq_refl
           (Nat.lt_0_succ 0) (Nat.lt_0_succ 2) Hdur).
  unfold f32get; simpl. lra.
Defined.

(** ** Interpolation of the build phase (C3) *)

(** C3: in the build phase a frame at elapsed phase time [t] puts every
    coordinate of particle [i] at the interpolation from its spawn to its
    target position by [easeOutExpo (clamp01 ((t - buildStart_i) /
    buildDuration_i))]; with build start 0 and build duration 2, at
    [t = 2] the particle is at its target. *)
Theorem build_interpolation
  (random : nat -> R) (now dt now' : R) (st : State) (i k : nat)
  (Hwf : wf st) (Hphase : phase st = BUILD_SPIN)
  (Hi : (i < N st)%nat) (Hk : (k < 3)%nat) :
  let st' := fst (tick random now dt now' st) in
  let t := now - tPhaseStart st in
  let buildStart := f32get (startTimesBuild st) i in
  let buildDuration := f32get (durationsBuild st) i in
  let spawn := f32get (startPositions st) (i * 3 + k) in
  let target := f32get (endPositions st) (i * 3 + k) in
  let e := easeOutExpo (clamp01 ((t - buildStart) / buildDuration)) in
  f32get (position st') (i * 3 + k) = MathUtils.lerp spawn target e /\
  (buildStart = 0 -> buildDuration = 2.0 -> t = 2.0 ->
   f32get (position st') (i * 3 + k) = target).
Proof.
  intros st' t buildStart buildDuration spawn target e.
  destruct Hwf as (_ & _ & _ & Hpos & _).
  assert (Hp : f32get (position st') (i * 3 + k)
               = MathUtils.lerp spawn target e).
  { subst st'. rewrite tick_phase_build by exact Hphase.
    apply tick_build_position; assumption. }
  split; [exact Hp |].
  intros H0 H2 Ht. rewrite Hp. subst e. rewrite H0, H2, Ht.
  rewrite clamp01_high by lra. rewrite easeOutExpo_1. apply lerp_1.
Qed.

(** Scenario A: at [t = 2] the depth of the fourth particle is that of its
    target, 0. *)
Lemma build_interpolation_witness :
  f32get (position (fst (tick draws 2 0.5 0 scenarioA))) (3 * 3 + 2) = 0.
Proof.
  apply (build_interpolation draws 2 0.5 0 scenarioA 3 2
           wf_scenarioA eq_refl).
  - simpl. lia.
  - lia.
  - reflexivity.
  - unfold f32get; simpl. lra.
  - unfold scenarioA, scene; simpl. lra.
Defined.

(** ** The hand-off blend (C1) *)

Lemma prepareBuildCycle_resets (random : nat -> R) (now' : R) (st : State) :
  let st' := prepareBuildCycle random now' st in
  phase st' = BUILD_SPIN /\ tPhaseStart st' = now' /\ shakePhase st' = 0 /\
  avgBuildProgress st' = 0 /\ plane_opacity st' = 0 /\
  rotation_y st' = - PI /\ N st' = N st /\
  endPositions st' = endPositions st /\
  position st' = startPositions st'.
Proof.
  unfold prepareBuildCycle.
  destruct (for_rand (N st) 0 _ _ (rng st)) as [[startP exitP] g1].
  destruct (for_rand (N st) 0 _ _ g1) as [[t0 td] g2].
  destruct (for_rand (N st) 0 _ _ g2) as [[e0 ed] g3].
  simpl. repeat split; try reflexivity. lra.
Qed.

(** C1: on every frame of the build phase of a scene with at least one
    particle (the mean over no particle is not a number), with
    [s = smoothstep 0.94 1.00 avgBuildProgress], the rendered yaw is
    [(1 - s) * sweepYaw + s * oscillationYaw], where [sweepYaw] is the
    interpolation from [- PI] to 0 by [avgBuildProgress] and
    [oscillationYaw] is [MAX_YAW * sin shakePhase]; the phase accumulator
    is advanced by [speed * dt] when [s > 0] and is left as it was when
    [s = 0], so that from the 0 the cycle generator gives it it stays 0
    as long as [s = 0]. *)
Theorem handoff_yaw_blend
  (random : nat -> R) (now dt now' : R) (st : State)
  (Hphase : phase st = BUILD_SPIN)
  (HN : (0 < N st)%nat) :
  let st' := fst (tick random now dt now' st) in
  let avg := avgBuildProgress st' in
  let s := smoothstep 0.94 1.00 avg in
  let sweepYaw := MathUtils.lerp (- PI) 0 avg in
  let oscillationYaw := MAX_YAW * sin (shakePhase st') in
  avg = build_avg now st /\
  0 <= s <= 1 /\
  rotation_y st' = (1 - s) * sweepYaw + s * oscillationYaw /\
  (s > 0 -> shakePhase st' = shakePhase st + SETTINGS.SHAKE.speed * dt) /\
  (s = 0 -> shakePhase st' = shakePhase st) /\
  (shakePhase st = 0 -> s = 0 -> shakePhase st' = 0) /\
  shakePhase (prepareBuildCycle random now' st) = 0.
Proof.
  rewrite (tick_phase_build random now dt now' st Hphase). cbv zeta.
  destruct (tick_build_fields now dt st) as (Hsp & Hyaw & _).
  set (st' := fst (tick_build now dt st)) in *.
  set (avg := avgBuildProgress st') in *.
  change (smoothstep 0.94 1.00 avg) with (handoff_s avg).
  change (MathUtils.lerp (- PI) 0 avg) with (yawBuild_of avg).
  pose proof (handoff_s_range avg) as Hrange.
  set (s := handoff_s avg) in *.
  assert (Hs0 : s = 0 -> shakePhase st' = shakePhase st).
  { intros Hs. rewrite Hsp. destruct (Rgt_dec s 0); lra. }
  repeat split.
  - apply tick_build_avg.
  - apply Hrange.
  - apply Hrange.
  - rewrite Hyaw. lra.
  - intros Hs. rewrite Hsp. destruct (Rgt_dec s 0); lra.
  - exact Hs0.
  - intros H0 Hs. rewrite Hs0 by exact Hs. exact H0.
  - apply prepareBuildCycle_resets.
Qed.

Lemma handoff_yaw_blend_witness :
  let st := scene1 BUILD_SPIN in
  let st' := fst (tick draws 1.75 0.25 0 st) in
  let avg := avgBuildProgress st' in
  let s := smoothstep 0.94 1.00 avg in
  let sweepYaw := MathUtils.lerp (- PI) 0 avg in
  let oscillationYaw := MAX_YAW * sin (shakePhase st') in
  avg = build_avg 1.75 st /\
  0 <= s <= 1 /\
  rotation_y st' = (1 - s) * sweepYaw + s * oscillationYaw /\
  (s > 0 -> shakePhase st' = shakePhase st + SETTINGS.SHAKE.speed * 0.25) /\
  (s = 0 -> shakePhase st' = shakePhase st) /\
  (shakePhase st = 0 -> s = 0 -> shakePhase st' = 0) /\
  shakePhase (prepareBuildCycle draws 0 st) = 0.
Proof.
  exact (handoff_yaw_blend draws 1.75 0.25 0 (scene1 BUILD_SPIN) eq_refl
           (Nat.lt_0_succ 0)).
Defined.

(** ** Leaving the build phase (C4) *)

(** C4: a frame of the build phase moves to the oscillation exactly when
    the blend factor is at least 0.999 and the overlay's opacity, as that
    frame leaves it, is at least 0.999; while either fails the machine stays
    in the build phase. *)
Theorem assemble_to_idle_guard
  (random : nat -> R) (now dt now' : R) (st : State)
  (Hphase : phase st = BUILD_SPIN) :
  let st' := fst (tick random now dt now' st) in
  let s := smoothstep 0.94 1.00 (avgBuildProgress st') in
  (phase st' = SHAKE <-> s >= 0.999 /\ plane_opacity st' >= 0.999) /\
  (~ (s >= 0.999 /\ plane_opacity st' >= 0.999) -> phase st' = BUILD_SPIN) /\
  (phase st' = SHAKE -> tPhaseStart st' = now).
Proof.
  rewrite (tick_phase_build random now dt now' st Hphase). cbv zeta.
  destruct (tick_build_fields now dt st) as (_ & _ & _ & Hph & Htp & _).
  set (st' := fst (tick_build now dt st)) in *.
  change (smoothstep 0.94 1.00 (avgBuildProgress st'))
    with (handoff_s (avgBuildProgress st')).
  set (s := handoff_s (avgBuildProgress st')) in *.
  rewrite Hph, Htp, Hphase.
  destruct (Rge_dec s 0.999) as [Hs | Hs];
    destruct (Rge_dec (plane_opacity st') 0.999) as [Ho | Ho];
    simpl; repeat split; intros; try tauto; try discriminate.
Qed.

Lemma assemble_to_idle_guard_witness :
  let st' := fst (tick draws 1.75 0.25 0 (scene1 BUILD_SPIN)) in
  let s := smoothstep 0.94 1.00 (avgBuildProgress st') in
  (phase st' = SHAKE <-> s >= 0.999 /\ plane_opacity st' >= 0.999) /\
  (~ (s >= 0.999 /\ plane_opacity st' >= 0.999) -> phase st' = BUILD_SPIN) /\
  (phase st' = SHAKE -> tPhaseStart st' = 1.75).
Proof.
  exact (assemble_to_idle_guard draws 1.75 0.25 0 (scene1 BUILD_SPIN) eq_refl).
Defined.

(** ** The overlay's fade-in (C8) *)

(** C8: on a frame of the build phase whose average build progress exceeds
    0.92 the overlay's opacity becomes [min 1 (opacity + 0.03)]: it grows by
    the fixed step 0.03 and never exceeds 1; the step is per call, the same
    whatever the frame's [dt]. *)
Theorem overlay_fade_step
  (random : nat -> R) (now dt now' : R) (st : State)
  (Hphase : phase st = BUILD_SPIN) :
  let st' := fst (tick random now dt now' st) in
  let avg := avgBuildProgress st' in
  (avg > 0.92 -> plane_opacity st' = Rmin 1 (plane_opacity st + 0.03)) /\
  (avg > 0.92 -> plane_opacity st + 0.03 <= 1 ->
   plane_opacity st' = plane_opacity st + 0.03) /\
  (avg > 0.92 -> plane_opacity st' <= 1) /\
  (avg <= 0.92 -> plane_opacity st' = plane_opacity st) /\
  (forall dt2,
     plane_opacity (fst (tick random now dt2 now' st)) = plane_opacity st').
Proof.
  rewrite (tick_phase_build random now dt now' st Hphase). cbv zeta.
  destruct (tick_build_fields now dt st) as (_ & _ & Hop & _).
  unfold SETTINGS.BUILD.planeFadeAt in Hop.
  set (avg := avgBuildProgress (fst (tick_build now dt st))) in *.
  repeat split.
  - intros Ha. rewrite Hop. destruct (Rgt_dec avg 0.92); [reflexivity | lra].
  - intros Ha Hle. rewrite Hop. destruct (Rgt_dec avg 0.92); [| lra].
    unfold Math.min, Rmin. destruct Rle_dec; lra.
  - intros Ha. rewrite Hop. destruct (Rgt_dec avg 0.92); [| lra].
    unfold Math.min, Rmin. destruct Rle_dec; lra.
  - intros Ha. rewrite Hop. destruct (Rgt_dec avg 0.92); [lra | reflexivity].
  - intros dt2. rewrite tick_phase_build by exact Hphase.
    destruct (tick_build_fields now dt2 st) as (_ & _ & Hop2 & _).
    rewrite Hop2, Hop. subst avg. rewrite !tick_build_avg. reflexivity.
Qed.

Lemma overlay_fade_step_witness :
  let st := scene1 BUILD_SPIN in
  let st' := fst (tick draws 1.75 0.25 0 st) in
  let avg := avgBuildProgress st' in
  (avg > 0.92 -> plane_opacity st' = Rmin 1 (plane_opacity st + 0.03)) /\
  (avg > 0.92 -> plane_opacity st + 0.03 <= 1 ->
   plane_opacity st' = plane_opacity st + 0.03) /\
  (avg > 0.92 -> plane_opacity st' <= 1) /\
  (avg <= 0.92 -> plane_opacity st' = plane_opacity st) /\
  (forall dt2,
     plane_opacity (fst (tick draws 1.75 dt2 0 st)) = plane_opacity st').
Proof.
  exact (overlay_fade_step draws 1.75 0.25 0 (scene1 BUILD_SPIN) eq_refl).
Defined.

(** ** The exit phase (C5) *)

Lemma exit_done_all (now : R) (st : State) :
  (N st <=? exit_done now st)%nat = true
  <-> (forall i, (i < N st)%nat -> exit_prog now st i >= 1).
Proof.
  unfold exit_done.
  pose proof (count_upto_le (exit_finished now st) (N st)) as Hle.
  pose proof (count_upto_full (exit_finished now st) (N st)) as Hfull.
  rewrite Nat.leb_le. split.
  - intros H i Hi. assert (He : exit_finished now st i = true)
      by (apply Hfull; [lia | exact Hi]).
    unfold exit_finished in He.
    destruct (Rge_dec (exit_prog now st i) 1); [assumption | discriminate].
  - intros H. enough (count_upto (exit_finished now st) (N st) = N st) by lia.
    apply Hfull. intros i Hi. unfold exit_finished.
    destruct (Rge_dec (exit_prog now st i) 1) as [_ | Hn];
      [reflexivity | exfalso; apply Hn, H, Hi].
Qed.

(** C5: in the exit phase a frame at elapsed phase time [t] puts every
    coordinate of particle [i] at the interpolation from its target to its
    exit target by [easeInCubic p_i], with
    [p_i = clamp01 ((t - exitStart_i) / exitDuration_i)]; the machine moves
    to the pause exactly when [p_i >= 1] for all the [N] particles, and
    otherwise stays in the exit phase; with every exit start 0 and every
    exit duration 1, at [t = 1] the done count is [N] and the machine moves
    to the pause. *)
Theorem disperse_interpolation_and_exit
  (random : nat -> R) (now dt now' : R) (st : State)
  (Hwf : wf st) (Hphase : phase st = EXIT) :
  let st' := fst (tick random now dt now' st) in
  let t := now - tPhaseStart st in
  let p := fun i =>
    clamp01 ((t - f32get (startTimesExit st) i) / f32get (durationsExit st) i) in
  (forall i k, (i < N st)%nat -> (k < 3)%nat ->
     f32get (position st') (i * 3 + k)
     = MathUtils.lerp (f32get (endPositions st) (i * 3 + k))
         (f32get (exitPositions st) (i * 3 + k)) (easeInCubic (p i))) /\
  (phase st' = WAIT <-> (forall i, (i < N st)%nat -> p i >= 1)) /\
  (phase st' = WAIT <-> exit_done now st = N st) /\
  (phase st' <> WAIT -> phase st' = EXIT) /\
  ((forall i, (i < N st)%nat ->
      f32get (startTimesExit st) i = 0 /\ f32get (durationsExit st) i = 1.0) ->
   t = 1.0 -> exit_done now st = N st /\ phase st' = WAIT).
Proof.
  rewrite (tick_phase_exit random now dt now' st Hphase). cbv zeta.
  destruct Hwf as (_ & _ & _ & Hpos & _).
  destruct (tick_exit_fields now st Hpos) as (Hp & Hph & _).
  pose proof (exit_done_all now st) as Hall.
  pose proof (count_upto_le (exit_finished now st) (N st)) as Hle.
  fold (exit_done now st) in Hle.
  assert (Hdone : phase (fst (tick_exit now st)) = WAIT
                  <-> exit_done now st = N st).
  { rewrite Hph, Hphase.
    destruct (N st <=? exit_done now st)%nat eqn:E.
    - apply Nat.leb_le in E. split; [intros _; lia | reflexivity].
    - apply Nat.leb_gt in E. split; [discriminate | lia]. }
  assert (Hiff : phase (fst (tick_exit now st)) = WAIT
                 <-> (forall i, (i < N st)%nat -> exit_prog now st i >= 1)).
  { rewrite <- Hall, Hph, Hphase.
    destruct (N st <=? exit_done now st)%nat; split;
      intros; try reflexivity; discriminate. }
  split; [exact Hp |]. split; [exact Hiff |]. split; [exact Hdone |]. split.
  - rewrite Hph, Hphase. destruct (N st <=? exit_done now st)%nat; tauto.
  - intros Hall1 Ht.
    assert (Hw : phase (fst (tick_exit now st)) = WAIT).
    { apply Hiff. intros i Hi. destruct (Hall1 i Hi) as [H0 H1].
      unfold exit_prog. rewrite H0, H1, Ht. rewrite clamp01_high; lra. }
    split; [apply Hdone; exact Hw | exact Hw].
Qed.

(** Scenario B at [t = 1]: the four particles are done and the machine
    pauses. *)
Lemma disperse_interpolation_and_exit_witness :
  exit_done 1 scenarioB = 4%nat /\
  phase (fst (tick draws 1 0.25 0 scenarioB)) = WAIT.
Proof.
  apply (disperse_interpolation_and_exit draws 1 0.25 0 scenarioB
           wf_scenarioB eq_refl).
  - intros i Hi. unfold f32get.
    destruct i as [| [| [| [| i]]]]; simpl in *; try lia; split; lra.
  - unfold scenarioB, scene; simpl. lra.
Defined.

(** ** The cycle generator *)

Lemma spawn_body_step (random : nat -> R) (halfW halfH : R)
  (endP startP exitP : list R) (i g : nat) :
  let sp := spawn_xyz halfW halfH (random g) (random (1 + g)%nat)
              (random (2 + g)%nat) in
  let ex := exit_xyz (f32get endP (i * 3 + 0)) (f32get endP (i * 3 + 1))
              (random (3 + g)%nat) (random (4 + g)%nat) in
  spawn_body random halfW halfH endP i (startP, exitP) g
  = ((f32set (f32set (f32set startP (i * 3 + 0) (nth 0 sp 0))
                (i * 3 + 1) (nth 1 sp 0)) (i * 3 + 2) (nth 2 sp 0),
      f32set (f32set (f32set exitP (i * 3 + 0) (nth 0 ex 0))
                (i * 3 + 1) (nth 1 ex 0)) (i * 3 + 2) (nth 2 ex 0)),
     (5 + g)%nat).
Proof.
  unfold spawn_body, spawn_xyz, exit_xyz, bind, Math_random, randBetween, ret.
  cbv zeta.
  destruct (Math.floor (random g * 4) =? 0)%Z;
    [reflexivity |].
  destruct (Math.floor (random g * 4) =? 1)%Z;
    [reflexivity |].
  destruct (Math.floor (random g * 4) =? 2)%Z; reflexivity.
Qed.

Lemma spawn_loop_spec (random : nat -> R) (halfW halfH : R)
  (endP : list R) (n g0 : nat) :
  let r := for_rand n 0 (spawn_body random halfW halfH endP)
             (f32new (n * 3), f32new (n * 3)) g0 in
  snd r = (g0 + 5 * n)%nat /\
  length (fst (fst r)) = (n * 3)%nat /\
  length (snd (fst r)) = (n * 3)%nat /\
  (forall i k, (i < n)%nat -> (k < 3)%nat ->
     f32get (fst (fst r)) (i * 3 + k)
     = nth k (spawn_xyz halfW halfH (random (g0 + 5 * i)%nat)
                (random (1 + (g0 + 5 * i))%nat)
                (random (2 + (g0 + 5 * i))%nat)) 0 /\
     f32get (snd (fst r)) (i * 3 + k)
     = nth k (exit_xyz (f32get endP (i * 3 + 0)) (f32get endP (i * 3 + 1))
                (random (3 + (g0 + 5 * i))%nat)
                (random (4 + (g0 + 5 * i))%nat)) 0).
Proof.
  intros r. subst r.
  pose (P := fun (j : nat) (arrs : list R * list R) (g : nat) =>
    g = (g0 + 5 * j)%nat /\
    length (fst arrs) = (n * 3)%nat /\
    length (snd arrs) = (n * 3)%nat /\
    (forall i k, (i < j)%nat -> (k < 3)%nat ->
       f32get (fst arrs) (i * 3 + k)
       = nth k (spawn_xyz halfW halfH (random (g0 + 5 * i)%nat)
                  (random (1 + (g0 + 5 * i))%nat)
                  (random (2 + (g0 + 5 * i))%nat)) 0 /\
       f32get (snd arrs) (i * 3 + k)
       = nth k (exit_xyz (f32get endP (i * 3 + 0)) (f32get endP (i * 3 + 1))
                  (random (3 + (g0 + 5 * i))%nat)
                  (random (4 + (g0 + 5 * i))%nat)) 0)).
  apply (for_rand_inv P (spawn_body random halfW halfH endP) n 0).
  - unfold P. simpl fst; simpl snd. rewrite f32new_length.
    repeat split; try lia; intros; lia.
  - intros j [startP exitP] g Hj (Hg & HL1 & HL2 & Hget).
    simpl fst in HL1, HL2, Hget. simpl snd in HL2, Hget.
    rewrite spawn_body_step. cbv zeta. unfold P. simpl fst; simpl snd.
    split; [lia |]. split; [rewrite !f32set_length; exact HL1 |].
    split; [rewrite !f32set_length; exact HL2 |].
    intros i k Hi Hk. rewrite !write3_get by lia.
    destruct (Nat.eqb_spec i j) as [-> | Hne].
    + subst g. destruct k as [| [| [| k]]]; try lia; split; reflexivity.
    + apply Hget; lia.
Qed.

Lemma prepareBuildCycle_arrays (random : nat -> R) (now' : R) (st : State)
  (i k : nat) :
  (i < N st)%nat -> (k < 3)%nat ->
  let st' := prepareBuildCycle random now' st in
  let g := (rng st + 5 * i)%nat in
  f32get (startPositions st') (i * 3 + k)
  = nth k (spawn_xyz (halfW_of st) (halfH_of st) (random g)
             (random (1 + g)%nat) (random (2 + g)%nat)) 0 /\
  f32get (exitPositions st') (i * 3 + k)
  = nth k (exit_xyz (f32get (endPositions st) (i * 3 + 0))
             (f32get (endPositions st) (i * 3 + 1))
             (random (3 + g)%nat) (random (4 + g)%nat)) 0.
Proof.
  intros Hi Hk.
  destruct (spawn_loop_spec random (halfW_of st) (halfH_of st)
              (endPositions st) (N st) (rng st)) as (_ & _ & _ & Hget).
  specialize (Hget i k Hi Hk).
  unfold prepareBuildCycle.
  destruct (for_rand (N st) 0 _ _ (rng st)) as [[startP exitP] g1].
  destruct (for_rand (N st) 0 _ _ g1) as [[t0 td] g2].
  destruct (for_rand (N st) 0 _ _ g2) as [[e0 ed] g3].
  simpl in *. exact Hget.
Qed.

(** The edge a draw selects: the quarter of [0, 1) it falls in. *)
Lemma spawn_xyz_cases (halfW halfH r_edge r_sz r_pos : R) :
  0 <= r_edge < 1 ->
  let sz := (r_sz * 2 - 1) * 0.8 in
  (r_edge < 1 / 4 /\
   spawn_xyz halfW halfH r_edge r_sz r_pos
   = [- halfW; randBetween_of r_pos (- halfH) halfH; sz]) \/
  (1 / 4 <= r_edge < 1 / 2 /\
   spawn_xyz halfW halfH r_edge r_sz r_pos
   = [halfW; randBetween_of r_pos (- halfH) halfH; sz]) \/
  (1 / 2 <= r_edge < 3 / 4 /\
   spawn_xyz halfW halfH r_edge r_sz r_pos
   = [randBetween_of r_pos (- halfW) halfW; halfH; sz]) \/
  (3 / 4 <= r_edge /\
   spawn_xyz halfW halfH r_edge r_sz r_pos
   = [randBetween_of r_pos (- halfW) halfW; - halfH; sz]).
Proof.
  intros Hr sz. unfold spawn_xyz, Math.floor. fold sz.
  destruct (Rlt_dec r_edge (1 / 4)) as [H1 | H1].
  { left. split; [exact H1 |].
    rewrite (Zfloor_eq 0) by (simpl; lra). reflexivity. }
  destruct (Rlt_dec r_edge (1 / 2)) as [H2 | H2].
  { right; left. split; [lra |].
    rewrite (Zfloor_eq 1) by (simpl; lra). reflexivity. }
  destruct (Rlt_dec r_edge (3 / 4)) as [H3 | H3].
  { right; right; left. split; [lra |].
    rewrite (Zfloor_eq 2) by (simpl; lra). reflexivity. }
  right; right; right. split; [lra |].
  rewrite (Zfloor_eq 3) by (simpl; lra). reflexivity.
Qed.

Lemma randBetween_of_range (r h : R) :
  0 <= r <= 1 -> 0 <= h -> - h <= randBetween_of r (- h) h <= h.
Proof. intros Hr Hh. unfold randBetween_of. nra. Qed.

Lemma draws_range (n : nat) : 0 <= draws n < 1.
Proof.
  unfold draws.
  assert (Hm : (n mod 4 < 4)%nat) by (apply Nat.mod_upper_bound; lia).
  pose proof (pos_INR (n mod 4)) as H0.
  apply lt_INR in Hm. change (INR 4) with (1 + 1 + 1 + 1) in Hm. lra.
Qed.

(** ** The pause and the cycle generator (C6) *)

(** Before the rebuild delay has passed a frame of the pause changes
    nothing and does not call the generator. *)
Lemma pause_waits (random : nat -> R) (now dt now' : R) (st : State) :
  phase st = WAIT ->
  now - tPhaseStart st < SETTINGS.LOOP.rebuildDelay ->
  tick random now dt now' st = (st, [CallRender]).
Proof.
  intros Hphase Hlt. rewrite tick_phase_wait by exact Hphase.
  unfold tick_wait. destruct Rge_dec; [lra | reflexivity].
Qed.

(** C6: a frame of the pause on which the time spent in the state has
    reached the rebuild delay of 1 second calls the cycle generator exactly
    once and leaves its result, in the build phase; the generator gives every
    particle a spawn position on one of the four edges of the rectangle
    inflated by the padding, hence outside the image's rectangle, and the
    edge is the one selected by the quarter of [0, 1) in which the
    particle's first draw falls: four intervals of the same length. *)
Theorem pause_regenerates_cycle
  (random : nat -> R) (now dt now' : R) (st : State)
  (Hphase : phase st = WAIT)
  (Helapsed : now - tPhaseStart st >= 1)
  (Hrandom : forall n, 0 <= random n < 1)
  (Hw : 0 <= bounds_w st * scale st)
  (Hh : 0 <= bounds_h st * scale st) :
  let st' := fst (tick random now dt now' st) in
  let halfW := bounds_w st * scale st / 2 + SETTINGS.LOGO_DIAMETER * 0.75 in
  let halfH := bounds_h st * scale st / 2 + SETTINGS.LOGO_DIAMETER * 0.75 in
  snd (tick random now dt now' st) = [CallPrepareBuildCycle] /\
  st' = prepareBuildCycle random now' st /\
  phase st' = BUILD_SPIN /\
  forall i, (i < N st)%nat ->
    let sx := f32get (startPositions st') (i * 3 + 0) in
    let sy := f32get (startPositions st') (i * 3 + 1) in
    let r_edge := random (rng st + 5 * i)%nat in
    on_rectangle_edge halfW halfH sx sy /\
    outside_rectangle (bounds_w st * scale st / 2)
      (bounds_h st * scale st / 2) sx sy /\
    (r_edge < 1 / 4 -> sx = - halfW) /\
    (1 / 4 <= r_edge < 1 / 2 -> sx = halfW) /\
    (1 / 2 <= r_edge < 3 / 4 -> sy = halfH) /\
    (3 / 4 <= r_edge -> sy = - halfH).
Proof.
  rewrite (tick_phase_wait random now dt now' st Hphase). cbv zeta.
  unfold tick_wait, SETTINGS.LOOP.rebuildDelay.
  destruct (Rge_dec (now - tPhaseStart st) 1.0) as [_ | Hn]; [| lra].
  simpl fst; simpl snd.
  split; [reflexivity |]. split; [reflexivity |].
  split; [apply prepareBuildCycle_resets |].
  intros i Hi.
  destruct (prepareBuildCycle_arrays random now' st i 0 Hi ltac:(lia))
    as [Hx _].
  destruct (prepareBuildCycle_arrays random now' st i 1 Hi ltac:(lia))
    as [Hy _].
  cbv zeta in Hx, Hy. rewrite Hx, Hy.
  unfold halfW_of, halfH_of, PAD, SETTINGS.LOGO_DIAMETER.
  set (hw := bounds_w st * scale st / 2) in *.
  set (hh := bounds_h st * scale st / 2) in *.
  assert (Hhw : 0 <= hw) by (unfold hw; lra).
  assert (Hhh : 0 <= hh) by (unfold hh; lra).
  set (g := (rng st + 5 * i)%nat).
  pose proof (Hrandom g) as Hr0.
  pose proof (Hrandom (2 + g)%nat) as Hr2.
  pose proof (randBetween_of_range (random (2 + g)%nat) (hw + 6.0 * 0.75)
                ltac:(lra) ltac:(lra)) as Hbw.
  pose proof (randBetween_of_range (random (2 + g)%nat) (hh + 6.0 * 0.75)
                ltac:(lra) ltac:(lra)) as Hbh.
  unfold on_rectangle_edge, outside_rectangle.
  destruct (spawn_xyz_cases (hw + 6.0 * 0.75) (hh + 6.0 * 0.75) (random g)
              (random (1 + g)%nat) (random (2 + g)%nat) Hr0)
    as [[Hq ->] | [[Hq ->] | [[Hq ->] | [Hq ->]]]]; cbn [nth].
  - repeat split; try lra; try (intros; lra).
    left. rewrite Rabs_Ropp, Rabs_pos_eq by lra. lra.
  - repeat split; try lra; try (intros; lra).
    left. rewrite Rabs_pos_eq by lra. lra.
  - repeat split; try lra; try (intros; lra).
    right. rewrite Rabs_pos_eq by lra. lra.
  - repeat split; try lra; try (intros; lra).
    right. rewrite Rabs_Ropp, Rabs_pos_eq by lra. lra.
Qed.

(** One particle, one second of pause: the generator is called once, the
    machine is back in the build phase, and the particle, whose first draw
    is 0, spawns on the left edge. *)
Lemma pause_regenerates_cycle_witness :
  let r := tick draws 1 0.25 1 (scene1 WAIT) in
  snd r = [CallPrepareBuildCycle] /\
  phase (fst r) = BUILD_SPIN /\
  f32get (startPositions (fst r)) (0 * 3 + 0)
  = - (512 * (4.86 / 512) / 2 + SETTINGS.LOGO_DIAMETER * 0.75).
Proof.
  assert (Helapsed : 1 - tPhaseStart (scene1 WAIT) >= 1) by (simpl; lra).
  assert (Hw : 0 <= bounds_w (scene1 WAIT) * scale (scene1 WAIT))
    by (simpl; lra).
  assert (Hh : 0 <= bounds_h (scene1 WAIT) * scale (scene1 WAIT))
    by (simpl; lra).
  pose proof (pause_regenerates_cycle draws 1 0.25 1 (scene1 WAIT) eq_refl
                Helapsed draws_range Hw Hh) as H.
  cbv zeta in H. destruct H as (Hcalls & _ & Hph & Hall).
  destruct (Hall 0%nat (Nat.lt_0_succ 0)) as (_ & _ & Hleft & _).
  cbv zeta. split; [exact Hcalls |]. split; [exact Hph |].
  apply Hleft. unfold draws. simpl. lra.
Defined.

(** ** The exit target at the centre (C10) *)

Lemma hypot_nonneg (x y : R) : 0 <= Math.hypot x y.
Proof. unfold Math.hypot. apply sqrt_pos. Qed.

Lemma hypot_ge_abs_l (x y : R) : Rabs x <= Math.hypot x y.
Proof.
  unfold Math.hypot. rewrite <- sqrt_Rsqr_abs. unfold Rsqr.
  apply sqrt_le_1_alt. nra.
Qed.

Lemma hypot_ge_abs_r (x y : R) : Rabs y <= Math.hypot x y.
Proof.
  unfold Math.hypot. rewrite <- sqrt_Rsqr_abs. unfold Rsqr.
  apply sqrt_le_1_alt. nra.
Qed.

Lemma hypot_0_0 : Math.hypot 0 0 = 0.
Proof.
  unfold Math.hypot. replace (0 * 0 + 0 * 0) with 0 by lra. apply sqrt_0.
Qed.

Lemma exit_len_pos (vx vy : R) : 0 < exit_len vx vy.
Proof.
  unfold exit_len. cbv zeta.
  pose proof (hypot_nonneg vx vy).
  destruct (Req_dec_T (Math.hypot vx vy) 0); lra.
Qed.

Lemma exit_len_center : exit_len 0 0 = 1.
Proof.
  unfold exit_len. cbv zeta. rewrite hypot_0_0.
  destruct (Req_dec_T 0 0) as [_ | H]; [reflexivity | lra].
Qed.

Lemma exit_len_ge_abs (vx vy : R) :
  Rabs vx <= exit_len vx vy /\ Rabs vy <= exit_len vx vy.
Proof.
  unfold exit_len. cbv zeta.
  pose proof (hypot_ge_abs_l vx vy). pose proof (hypot_ge_abs_r vx vy).
  destruct (Req_dec_T (Math.hypot vx vy) 0) as [E | _]; [| tauto].
  rewrite E in *. lra.
Qed.

Lemma Rabs_le_bounds (x a : R) : Rabs x <= a -> - a <= x <= a.
Proof. unfold Rabs. destruct (Rcase_abs x); lra. Qed.

Lemma unit_component (v len : R) :
  0 < len -> Rabs v <= len -> Rabs (v / len) <= 1.
Proof.
  intros Hlen Hv. unfold Rdiv.
  rewrite Rabs_mult, (Rabs_pos_eq (/ len))
    by (left; apply Rinv_0_lt_compat; exact Hlen).
  apply Rmult_le_reg_r with len; [exact Hlen |].
  rewrite Rmult_assoc, Rinv_l by lra. lra.
Qed.

(** C10: the exit target is computed without a division by zero: the
    divisor [Math.hypot(vx, vy) || 1] is positive for every target, and is
    1 for a target at the centre; the direction it gives has components of
    absolute value at most 1, so that the exit target of every particle lies
    within [6 + 4.8] of its target in x and in y and within 1.2 of the plane
    in depth; the exit target of a particle at the centre is the centre. *)
Theorem exit_target_total
  (random : nat -> R) (now' : R) (st : State) (i : nat)
  (Hwf : wf st) (Hi : (i < N st)%nat)
  (Hrandom : forall n, 0 <= random n < 1) :
  let st' := prepareBuildCycle random now' st in
  let vx := f32get (endPositions st) (i * 3 + 0) in
  let vy := f32get (endPositions st) (i * 3 + 1) in
  let len := exit_len vx vy in
  let mag := SETTINGS.EXIT.pushDistance
             + random (3 + (rng st + 5 * i))%nat
               * (SETTINGS.LOGO_DIAMETER * 0.8) in
  let ex := f32get (exitPositions st') (i * 3 + 0) in
  let ey := f32get (exitPositions st') (i * 3 + 1) in
  let ez := f32get (exitPositions st') (i * 3 + 2) in
  0 < len /\
  (Math.hypot vx vy = 0 -> len = 1) /\
  ex = vx + vx / len * mag /\
  ey = vy + vy / len * mag /\
  Rabs (vx / len) <= 1 /\ Rabs (vy / len) <= 1 /\
  Rabs (ex - vx) <= 10.8 /\ Rabs (ey - vy) <= 10.8 /\ Rabs ez <= 1.2 /\
  (vx = 0 -> vy = 0 -> len = 1 /\ ex = 0 /\ ey = 0).
Proof.
  cbv zeta.
  destruct (prepareBuildCycle_arrays random now' st i 0 Hi ltac:(lia))
    as [_ Hx].
  destruct (prepareBuildCycle_arrays random now' st i 1 Hi ltac:(lia))
    as [_ Hy].
  destruct (prepareBuildCycle_arrays random now' st i 2 Hi ltac:(lia))
    as [_ Hz].
  cbv zeta in Hx, Hy, Hz. unfold exit_xyz in Hx, Hy, Hz.
  cbn [nth] in Hx, Hy, Hz. rewrite Hx, Hy, Hz.
  set (vx := f32get (endPositions st) (i * 3 + 0)) in *.
  set (vy := f32get (endPositions st) (i * 3 + 1)) in *.
  pose proof (exit_len_pos vx vy) as Hlen.
  destruct (exit_len_ge_abs vx vy) as [Hax Hay].
  pose proof (unit_component vx (exit_len vx vy) Hlen Hax) as Hux.
  pose proof (unit_component vy (exit_len vx vy) Hlen Hay) as Huy.
  pose proof (Hrandom (3 + (rng st + 5 * i))%nat) as Hr3.
  pose proof (Hrandom (4 + (rng st + 5 * i))%nat) as Hr4.
  unfold SETTINGS.EXIT.pushDistance, SETTINGS.LOGO_DIAMETER.
  set (r3 := random (3 + (rng st + 5 * i))%nat) in *.
  set (r4 := random (4 + (rng st + 5 * i))%nat) in *.
  set (dx := vx / exit_len vx vy) in *.
  set (dy := vy / exit_len vx vy) in *.
  assert (Hcenter : vx = 0 -> vy = 0 -> exit_len vx vy = 1).
  { intros -> ->. apply exit_len_center. }
  split; [exact Hlen |]. split.
  { intros H0. unfold exit_len. cbv zeta.
    destruct (Req_dec_T (Math.hypot vx vy) 0); [reflexivity | contradiction]. }
  split; [reflexivity |]. split; [reflexivity |].
  split; [exact Hux |]. split; [exact Huy |].
  apply Rabs_le_bounds in Hux. apply Rabs_le_bounds in Huy.
  split; [apply Rabs_le; nra |]. split; [apply Rabs_le; nra |].
  split; [apply Rabs_le; nra |].
  intros Hvx Hvy. split; [apply Hcenter; assumption |].
  unfold dx, dy. rewrite Hvx, Hvy. unfold Rdiv. split; ring.
Qed.

(** The particle at the centre in scenario A: its exit target is the
    centre. *)
Lemma exit_target_total_witness :
  let st' := prepareBuildCycle draws 0 scenarioA in
  exit_len 0 0 = 1 /\
  f32get (exitPositions st') (3 * 3 + 0) = 0 /\
  f32get (exitPositions st') (3 * 3 + 1) = 0.
Proof.
  assert (Hi : (3 < N scenarioA)%nat) by (simpl; lia).
  pose proof (exit_target_total draws 0 scenarioA 3 wf_scenarioA Hi
                draws_range) as H.
  cbv zeta in H.
  destruct H as (_ & _ & _ & _ & _ & _ & _ & _ & _ & Hcenter).
  apply Hcenter; reflexivity.
Defined.

(** ** Continuity of the hand-off (C2) *)

Lemma abs_sin_le (x : R) : Rabs (sin x) <= Rabs x.
Proof.
  assert (Hpos : forall y, 0 < y -> Rabs (sin y) <= y).
  { intros y Hy. apply Rabs_le. split; [| left; apply sin_lt_x; exact Hy].
    destruct (Rle_dec y PI) as [Hle | Hgt].
    - pose proof (sin_ge_0 y ltac:(lra) Hle). lra.
    - pose proof (SIN_bound y). pose proof PI2_3_2. lra. }
  destruct (Rtotal_order x 0) as [Hneg | [-> | Hp]].
  - rewrite <- (Ropp_involutive x) at 1. rewrite sin_neg, Rabs_Ropp.
    rewrite (Rabs_left x Hneg). apply Hpos. lra.
  - rewrite sin_0, Rabs_R0. lra.
  - rewrite (Rabs_pos_eq x) by lra. apply Hpos, Hp.
Qed.

Lemma sin_lipschitz (a b : R) : Rabs (sin a - sin b) <= Rabs (a - b).
Proof.
  rewrite form4, !Rabs_mult.
  pose proof (abs_sin_le ((a - b) / 2)) as Hs.
  assert (Hc : Rabs (cos ((a + b) / 2)) <= 1)
    by (apply Rabs_le; apply COS_bound).
  pose proof (Rabs_pos (cos ((a + b) / 2))).
  pose proof (Rabs_pos (sin ((a - b) / 2))).
  rewrite (Rabs_pos_eq 2) by lra.
  replace (Rabs ((a - b) / 2)) with (Rabs (a - b) / 2) in Hs.
  - nra.
  - unfold Rdiv. rewrite Rabs_mult, (Rabs_pos_eq (/ 2)) by lra. reflexivity.
Qed.

Lemma MAX_YAW_range : 0 < MAX_YAW < 1.
Proof.
  unfold MAX_YAW, MathUtils.degToRad, SETTINGS.SHAKE.maxYawDeg.
  pose proof PI_RGT_0. pose proof PI_4. lra.
Qed.

Lemma yawBuild_of_range (avg : R) :
  0 <= avg <= 1 -> - PI <= yawBuild_of avg <= 0.
Proof.
  intros H. unfold yawBuild_of, MathUtils.lerp. pose proof PI_RGT_0. nra.
Qed.

(** The change of a blend [(1 - s) * b + s * o] between two frames. *)
Lemma blend_step (s1 s2 b1 b2 o1 o2 B O : R) :
  0 <= s1 <= 1 -> 0 <= s2 <= 1 ->
  Rabs b1 <= B -> Rabs o1 <= O ->
  Rabs (((1 - s2) * b2 + s2 * o2) - ((1 - s1) * b1 + s1 * o1))
  <= Rabs (o2 - o1) + Rabs (b2 - b1) + (B + O) * Rabs (s2 - s1).
Proof.
  intros Hs1 Hs2 Hb Ho.
  replace (((1 - s2) * b2 + s2 * o2) - ((1 - s1) * b1 + s1 * o1))
    with (s2 * (o2 - o1) + (1 - s2) * (b2 - b1) + (s2 - s1) * (o1 - b1))
    by ring.
  eapply Rle_trans; [apply Rabs_triang |].
  eapply Rle_trans; [apply Rplus_le_compat_r, Rabs_triang |].
  rewrite !Rabs_mult.
  rewrite (Rabs_pos_eq s2), (Rabs_pos_eq (1 - s2)) by lra.
  pose proof (Rabs_pos (o2 - o1)). pose proof (Rabs_pos (b2 - b1)).
  pose proof (Rabs_pos (s2 - s1)).
  assert (Rabs (o1 - b1) <= B + O).
  { unfold Rminus. eapply Rle_trans; [apply Rabs_triang |].
    rewrite Rabs_Ropp. lra. }
  nra.
Qed.

(** C2, as the code has it: between two adjacent frames of the build phase
    (at least one particle, [dt] not negative) the yaw changes by at most
    [MAX_YAW * (speed * dt)], the most the oscillation can move in a frame,
    plus [PI] times the change of the average build progress, plus
    [PI + MAX_YAW] times the change of the blend factor; when the average
    build progress does not change between the frames the bound is
    [MAX_YAW * (speed * dt)] alone. *)
Theorem handoff_step_bound
  (random : nat -> R) (now1 dt1 now2 dt2 now' : R) (st : State)
  (Hphase : phase st = BUILD_SPIN)
  (HN : (0 < N st)%nat)
  (Hdt : 0 <= dt2)
  (Hstay : phase (fst (tick random now1 dt1 now' st)) = BUILD_SPIN) :
  let st1 := fst (tick random now1 dt1 now' st) in
  let st2 := fst (tick random now2 dt2 now' st1) in
  let avg1 := avgBuildProgress st1 in
  let avg2 := avgBuildProgress st2 in
  let s1 := smoothstep 0.94 1.00 avg1 in
  let s2 := smoothstep 0.94 1.00 avg2 in
  Rabs (rotation_y st2 - rotation_y st1)
  <= MAX_YAW * (SETTINGS.SHAKE.speed * dt2)
     + PI * Rabs (avg2 - avg1) + (PI + MAX_YAW) * Rabs (s2 - s1) /\
  (avg2 = avg1 ->
   Rabs (rotation_y st2 - rotation_y st1)
   <= MAX_YAW * (SETTINGS.SHAKE.speed * dt2)).
Proof.
  cbv zeta.
  set (st1 := fst (tick random now1 dt1 now' st)) in *.
  rewrite (tick_phase_build random now2 dt2 now' st1 Hstay).
  destruct (tick_build_fields now2 dt2 st1) as (Hsp2 & Hyaw2 & _).
  set (st2 := fst (tick_build now2 dt2 st1)) in *.
  assert (Hst1 : st1 = fst (tick_build now1 dt1 st))
    by (unfold st1; rewrite tick_phase_build by exact Hphase; reflexivity).
  destruct (tick_build_fields now1 dt1 st) as (_ & Hyaw1 & _).
  rewrite <- Hst1 in Hyaw1.
  assert (Havg1 : 0 <= avgBuildProgress st1 <= 1).
  { rewrite Hst1, tick_build_avg. apply build_avg_range. exact HN. }
  change (smoothstep 0.94 1.00 (avgBuildProgress st1))
    with (handoff_s (avgBuildProgress st1)).
  change (smoothstep 0.94 1.00 (avgBuildProgress st2))
    with (handoff_s (avgBuildProgress st2)).
  pose proof (handoff_s_range (avgBuildProgress st1)) as Hs1.
  pose proof (handoff_s_range (avgBuildProgress st2)) as Hs2.
  pose proof (yawBuild_of_range _ Havg1) as Hb1.
  pose proof MAX_YAW_range as HM.
  pose proof PI_RGT_0 as Hpi.
  set (avg1 := avgBuildProgress st1) in *.
  set (avg2 := avgBuildProgress st2) in *.
  set (s1 := handoff_s avg1) in *.
  set (s2 := handoff_s avg2) in *.
  set (p1 := shakePhase st1) in *.
  set (p2 := shakePhase st2) in *.
  assert (Hosc : Rabs (MAX_YAW * sin p2 - MAX_YAW * sin p1)
                 <= MAX_YAW * (SETTINGS.SHAKE.speed * dt2)).
  { replace (MAX_YAW * sin p2 - MAX_YAW * sin p1)
      with (MAX_YAW * (sin p2 - sin p1)) by ring.
    rewrite Rabs_mult, (Rabs_pos_eq MAX_YAW) by lra.
    apply Rmult_le_compat_l; [lra |].
    eapply Rle_trans; [apply sin_lipschitz |].
    rewrite Hsp2. unfold SETTINGS.SHAKE.speed.
    destruct (Rgt_dec s2 0); apply Rabs_le; lra. }
  assert (Hsweep : Rabs (yawBuild_of avg2 - yawBuild_of avg1)
                   = PI * Rabs (avg2 - avg1)).
  { unfold yawBuild_of, MathUtils.lerp.
    replace ((1 - avg2) * - PI + avg2 * 0 - ((1 - avg1) * - PI + avg1 * 0))
      with (PI * (avg2 - avg1)) by ring.
    rewrite Rabs_mult, (Rabs_pos_eq PI) by lra. reflexivity. }
  assert (Hb1' : Rabs (yawBuild_of avg1) <= PI) by (apply Rabs_le; lra).
  assert (Ho1 : Rabs (MAX_YAW * sin p1) <= MAX_YAW).
  { rewrite Rabs_mult, (Rabs_pos_eq MAX_YAW) by lra.
    pose proof (SIN_bound p1).
    assert (Rabs (sin p1) <= 1) by (apply Rabs_le; lra). nra. }
  pose proof (blend_step s1 s2 (yawBuild_of avg1) (yawBuild_of avg2)
                (MAX_YAW * sin p1) (MAX_YAW * sin p2) PI MAX_YAW
                Hs1 Hs2 Hb1' Ho1) as Hstep.
  rewrite Hsweep in Hstep.
  assert (Heq : rotation_y st2 - rotation_y st1
                = (1 - s2) * yawBuild_of avg2 + s2 * (MAX_YAW * sin p2)
                  - ((1 - s1) * yawBuild_of avg1 + s1 * (MAX_YAW * sin p1)))
    by (rewrite Hyaw1, Hyaw2; ring).
  rewrite Heq. split; [lra |].
  intros Hsame. unfold s1, s2 in *. rewrite Hsame in *.
  replace (avg1 - avg1) with 0 in Hstep by ring.
  replace (handoff_s avg1 - handoff_s avg1) with 0 in Hstep by ring.
  rewrite Rabs_R0 in Hstep. lra.
Qed.

(** *** Two frames of [scene1] across the start of the blend window *)

Lemma easeOutExpo_pow (t : R) (n : nat) :
  t < 1 -> 10 * t = INR n -> easeOutExpo t = 1 - / 2 ^ n.
Proof.
  intros Ht Hn. unfold easeOutExpo.
  destruct (Rge_dec t 1) as [H | _]; [lra |].
  rewrite pow2. replace (-10 * t) with (- INR n) by lra.
  rewrite Rpower2_neg_nat. reflexivity.
Qed.

Lemma handoff_s_15_16 : handoff_s (15 / 16) = 0.
Proof.
  unfold handoff_s, smoothstep, SETTINGS.HANDOFF.startProg,
    SETTINGS.HANDOFF.endProg. cbv zeta.
  replace (1.00 - 0.94) with (6 / 100) by lra.
  replace (15 / 16 - 0.94) with (- (1 / 400)) by lra.
  replace (- (1 / 400) / (6 / 100)) with (- (1 / 24)) by field.
  rewrite clamp01_low by lra. ring.
Qed.

Lemma handoff_s_31_32 : handoff_s (31 / 32) = 25921 / 55296.
Proof.
  unfold handoff_s, smoothstep, SETTINGS.HANDOFF.startProg,
    SETTINGS.HANDOFF.endProg. cbv zeta.
  replace (1.00 - 0.94) with (6 / 100) by lra.
  replace (31 / 32 - 0.94) with (23 / 800) by lra.
  replace (23 / 800 / (6 / 100)) with (23 / 48) by field.
  rewrite clamp01_id by lra. field.
Qed.

(** The mean over a single particle whose build starts at 0.5 and lasts
    2.5, when the phase started at 0. *)
Lemma build_avg_single (now : R) (st : State) (n : nat) :
  N st = 1%nat -> tPhaseStart st = 0 ->
  startTimesBuild st = [0.5] -> durationsBuild st = [2.5] ->
  0 <= now - 0.5 < 2.5 -> 4 * (now - 0.5) = INR n ->
  build_avg now st = 1 - / 2 ^ n.
Proof.
  intros HN Htp Ht0 Htd Hrange Hn.
  unfold build_avg, build_e, build_prog. rewrite HN, Htp, Ht0, Htd.
  unfold f32get. cbn [sum_upto nth INR].
  replace ((now - 0 - 0.5) / 2.5) with ((now - 0.5) * (2 / 5)) by lra.
  rewrite clamp01_id by lra.
  rewrite (easeOutExpo_pow _ n) by lra. lra.
Qed.

Lemma scene1_frame1 :
  let st1 := fst (tick draws 1.5 0.25 0 (scene1 BUILD_SPIN)) in
  avgBuildProgress st1 = 15 / 16 /\
  phase st1 = BUILD_SPIN /\ tPhaseStart st1 = 0 /\ shakePhase st1 = 0 /\
  rotation_y st1 = - (PI / 16) /\
  N st1 = 1%nat /\ startTimesBuild st1 = [0.5] /\ durationsBuild st1 = [2.5].
Proof.
  cbv zeta.
  rewrite (tick_phase_build draws 1.5 0.25 0 (scene1 BUILD_SPIN) eq_refl).
  destruct (tick_build_fields 1.5 0.25 (scene1 BUILD_SPIN))
    as (Hsp & Hyaw & _ & Hph & Htp & _).
  destruct (tick_build_frame 1.5 0.25 (scene1 BUILD_SPIN))
    as (HN & _ & _ & _ & Ht0 & Htd & _).
  assert (Havg : avgBuildProgress (fst (tick_build 1.5 0.25 (scene1 BUILD_SPIN)))
                 = 15 / 16).
  { rewrite tick_build_avg.
    rewrite (build_avg_single 1.5 (scene1 BUILD_SPIN) 4);
      try reflexivity; simpl; lra. }
  set (st1 := fst (tick_build 1.5 0.25 (scene1 BUILD_SPIN))) in *.
  rewrite Havg, handoff_s_15_16 in Hsp, Hyaw, Hph, Htp.
  destruct (Rge_dec 0 0.999) as [H | _]; [lra |].
  destruct (Rgt_dec 0 0) as [H | _]; [lra |].
  simpl in Hph, Htp.
  assert (Hp1 : shakePhase st1 = 0).
  { rewrite Hsp. change (shakePhase (scene1 BUILD_SPIN)) with 0. ring. }
  repeat split; try assumption.
  rewrite Hyaw. unfold yawBuild_of, MathUtils.lerp. field.
Qed.

Lemma scene1_frame2 :
  let st1 := fst (tick draws 1.5 0.25 0 (scene1 BUILD_SPIN)) in
  let st2 := fst (tick draws 1.75 0.25 0 st1) in
  avgBuildProgress st2 = 31 / 32 /\
  phase st2 = BUILD_SPIN /\
  shakePhase st2 = 0.125 /\
  rotation_y st2
  = (1 - 25921 / 55296) * - (PI / 32)
    + MAX_YAW * sin 0.125 * (25921 / 55296) /\
  tPhaseStart st2 = 0 /\
  N st2 = 1%nat /\ startTimesBuild st2 = [0.5] /\ durationsBuild st2 = [2.5].
Proof.
  cbv zeta.
  destruct scene1_frame1 as (_ & Hph1 & Htp1 & Hp1 & _ & HN & Ht0 & Htd).
  set (st1 := fst (tick draws 1.5 0.25 0 (scene1 BUILD_SPIN))) in *.
  rewrite (tick_phase_build draws 1.75 0.25 0 st1 Hph1).
  destruct (tick_build_fields 1.75 0.25 st1)
    as (Hsp & Hyaw & _ & Hph & Htp & _).
  destruct (tick_build_frame 1.75 0.25 st1)
    as (HN2 & _ & _ & _ & Ht02 & Htd2 & _).
  assert (Havg : avgBuildProgress (fst (tick_build 1.75 0.25 st1)) = 31 / 32).
  { rewrite tick_build_avg.
    rewrite (build_avg_single 1.75 st1 5); try assumption; simpl; lra. }
  set (st2 := fst (tick_build 1.75 0.25 st1)) in *.
  rewrite Havg, handoff_s_31_32 in Hsp, Hyaw, Hph, Htp.
  destruct (Rge_dec (25921 / 55296) 0.999) as [H | _]; [lra |].
  destruct (Rgt_dec (25921 / 55296) 0) as [_ | H]; [| lra].
  cbn [andb] in Hph, Htp.
  assert (Hp2 : shakePhase st2 = 0.125).
  { rewrite Hsp, Hp1. unfold SETTINGS.SHAKE.speed. lra. }
  split; [exact Havg |]. split; [rewrite Hph; exact Hph1 |].
  split; [exact Hp2 |].
  split; [rewrite Hyaw, Hp2; unfold yawBuild_of, MathUtils.lerp; field |].
  split; [rewrite Htp; exact Htp1 |].
  split; [rewrite HN2; exact HN |].
  split; [rewrite Ht02; exact Ht0 | rewrite Htd2; exact Htd].
Qed.

(** C2 fails as stated: [scene1] at 1.5 s and 1.75 s, two adjacent frames a
    quarter of a second apart.  The first has [s = 0], the second
    [0 < s < 1]; the yaw moves by more than [speed * dt], which is itself
    more than [MAX_YAW * (speed * dt)], the most the oscillation moves in
    the frame. *)
Lemma handoff_step_exceeds_speed_dt :
  let st1 := fst (tick draws 1.5 0.25 0 (scene1 BUILD_SPIN)) in
  let st2 := fst (tick draws 1.75 0.25 0 st1) in
  phase st1 = BUILD_SPIN /\ phase st2 = BUILD_SPIN /\
  smoothstep 0.94 1.00 (avgBuildProgress st1) = 0 /\
  0 < smoothstep 0.94 1.00 (avgBuildProgress st2) < 1 /\
  MAX_YAW * (SETTINGS.SHAKE.speed * 0.25) < SETTINGS.SHAKE.speed * 0.25 /\
  SETTINGS.SHAKE.speed * 0.25 < Rabs (rotation_y st2 - rotation_y st1).
Proof.
  cbv zeta.
  destruct scene1_frame1 as (Ha1 & Hph1 & _ & _ & Hy1 & _).
  destruct scene1_frame2 as (Ha2 & Hph2 & _ & Hy2 & _).
  set (st1 := fst (tick draws 1.5 0.25 0 (scene1 BUILD_SPIN))) in *.
  set (st2 := fst (tick draws 1.75 0.25 0 st1)) in *.
  change (smoothstep 0.94 1.00 (avgBuildProgress st1))
    with (handoff_s (avgBuildProgress st1)).
  change (smoothstep 0.94 1.00 (avgBuildProgress st2))
    with (handoff_s (avgBuildProgress st2)).
  rewrite Ha1, Ha2, handoff_s_15_16, handoff_s_31_32.
  pose proof MAX_YAW_range as HM. pose proof PI2_3_2 as Hpi.
  pose proof PI_4 as Hpi4.
  assert (Hsin : 0 <= sin 0.125) by (apply sin_ge_0; lra).
  assert (HK : 0 <= MAX_YAW * sin 0.125) by (apply Rmult_le_pos; lra).
  unfold SETTINGS.SHAKE.speed.
  split; [exact Hph1 |]. split; [exact Hph2 |]. split; [reflexivity |].
  split; [lra |]. split; [nra |].
  eapply Rlt_le_trans; [| apply Rle_abs].
  rewrite Hy1, Hy2. set (K := MAX_YAW * sin 0.125) in *. lra.
Qed.

(** The same two frames of [scene1] obey the bound that accounts for the
    sweep and for the blend factor. *)
Lemma handoff_step_bound_witness :
  let st1 := fst (tick draws 1.5 0.25 0 (scene1 BUILD_SPIN)) in
  let st2 := fst (tick draws 1.75 0.25 0 st1) in
  let avg1 := avgBuildProgress st1 in
  let avg2 := avgBuildProgress st2 in
  let s1 := smoothstep 0.94 1.00 avg1 in
  let s2 := smoothstep 0.94 1.00 avg2 in
  Rabs (rotation_y st2 - rotation_y st1)
  <= MAX_YAW * (SETTINGS.SHAKE.speed * 0.25)
     + PI * Rabs (avg2 - avg1) + (PI + MAX_YAW) * Rabs (s2 - s1).
Proof.
  assert (Hdt : 0 <= 0.25) by lra.
  destruct scene1_frame1 as (_ & Hstay & _).
  exact (proj1 (handoff_step_bound draws 1.5 0.25 1.75 0.25 0
                  (scene1 BUILD_SPIN) eq_refl (Nat.lt_0_succ 0) Hdt Hstay)).
Defined.

(** *** A third frame: both blend factors strictly inside (0, 1) *)

Lemma handoff_s_63_64 : handoff_s (63 / 64) = 367993 / 442368.
Proof.
  unfold handoff_s, smoothstep, SETTINGS.HANDOFF.startProg,
    SETTINGS.HANDOFF.endProg. cbv zeta.
  replace (1.00 - 0.94) with (6 / 100) by lra.
  replace (63 / 64 - 0.94) with (71 / 1600) by lra.
  replace (71 / 1600 / (6 / 100)) with (71 / 96) by field.
  rewrite clamp01_id by lra. field.
Qed.

Lemma sin_quarter_lower : 1 / 5 <= sin 0.25.
Proof.
  pose proof PI2_3_2 as Hpi.
  replace 0.25 with (1 / 4) by lra.
  destruct (SIN (1 / 4) ltac:(lra) ltac:(lra)) as [Hlb _].
  eapply Rle_trans; [| exact Hlb].
  unfold sin_lb, sin_approx, sin_term. simpl. lra.
Qed.

(** The frames of [scene1] at 1.75 s and 2 s: both blend factors lie
    strictly between 0 and 1, the machine stays in the build phase, and the
    yaw still moves by more than [MAX_YAW * (speed * dt)]. *)
Lemma handoff_step_inside_window :
  let st1 := fst (tick draws 1.5 0.25 0 (scene1 BUILD_SPIN)) in
  let st2 := fst (tick draws 1.75 0.25 0 st1) in
  let st3 := fst (tick draws 2.0 0.25 0 st2) in
  0 < smoothstep 0.94 1.00 (avgBuildProgress st2) < 1 /\
  0 < smoothstep 0.94 1.00 (avgBuildProgress st3) < 1 /\
  phase st2 = BUILD_SPIN /\ phase st3 = BUILD_SPIN /\
  MAX_YAW * (SETTINGS.SHAKE.speed * 0.25)
  < Rabs (rotation_y st3 - rotation_y st2).
Proof.
  cbv zeta.
  destruct scene1_frame2 as (Ha2 & Hph2 & Hp2 & Hy2 & Htp2 & HN & Ht0 & Htd).
  set (st1 := fst (tick draws 1.5 0.25 0 (scene1 BUILD_SPIN))) in *.
  set (st2 := fst (tick draws 1.75 0.25 0 st1)) in *.
  rewrite (tick_phase_build draws 2.0 0.25 0 st2 Hph2).
  destruct (tick_build_fields 2.0 0.25 st2) as (Hsp & Hyaw & _ & Hph & _).
  assert (Havg : avgBuildProgress (fst (tick_build 2.0 0.25 st2)) = 63 / 64).
  { rewrite tick_build_avg.
    rewrite (build_avg_single 2.0 st2 6); try assumption; simpl; lra. }
  set (st3 := fst (tick_build 2.0 0.25 st2)) in *.
  change (smoothstep 0.94 1.00 (avgBuildProgress st2))
    with (handoff_s (avgBuildProgress st2)).
  change (smoothstep 0.94 1.00 (avgBuildProgress st3))
    with (handoff_s (avgBuildProgress st3)).
  rewrite Havg, handoff_s_63_64 in *. rewrite Ha2, handoff_s_31_32.
  destruct (Rge_dec (367993 / 442368) 0.999) as [H | _]; [lra |].
  destruct (Rgt_dec (367993 / 442368) 0) as [_ | H]; [| lra].
  cbn [andb] in Hph.
  assert (Hp3 : shakePhase st3 = 0.25).
  { rewrite Hsp, Hp2. unfold SETTINGS.SHAKE.speed. lra. }
  rewrite Hp3 in Hyaw.
  split; [lra |]. split; [lra |]. split; [exact Hph2 |].
  split; [rewrite Hph; exact Hph2 |].
  eapply Rlt_le_trans; [| apply Rle_abs].
  rewrite Hyaw, Hy2. unfold yawBuild_of, MathUtils.lerp.
  pose proof MAX_YAW_range as HM. pose proof PI2_3_2 as Hpi.
  pose proof sin_quarter_lower as Hs3.
  assert (Hs2 : sin 0.125 < 0.125) by (apply sin_lt_x; lra).
  assert (HM' : MAX_YAW = 25 * (PI / 180)) by reflexivity.
  assert (HK3 : MAX_YAW * (1 / 5) <= MAX_YAW * sin 0.25)
    by (apply Rmult_le_compat_l; lra).
  assert (HK2 : MAX_YAW * sin 0.125 <= MAX_YAW * 0.125)
    by (apply Rmult_le_compat_l; lra).
  unfold SETTINGS.SHAKE.speed.
  set (K3 := MAX_YAW * sin 0.25) in *.
  set (K2 := MAX_YAW * sin 0.125) in *.
  lra.
Qed.

(** ** What the generator leaves: sizes and timings *)

Lemma timing_loop_spec (random : nat -> R) (jitter minDur maxDur : R)
  (n g0 : nat) :
  let r := for_rand n 0 (timing_body random jitter minDur maxDur)
             (f32new n, f32new n) g0 in
  snd r = (g0 + 2 * n)%nat /\
  length (fst (fst r)) = n /\
  length (snd (fst r)) = n /\
  (forall i, (i < n)%nat ->
     f32get (fst (fst r)) i = random (g0 + 2 * i)%nat * jitter /\
     f32get (snd (fst r)) i
     = minDur + random (1 + (g0 + 2 * i))%nat * (maxDur - minDur)).
Proof.
  intros r. subst r.
  pose (P := fun (j : nat) (arrs : list R * list R) (g : nat) =>
    g = (g0 + 2 * j)%nat /\
    length (fst arrs) = n /\
    length (snd arrs) = n /\
    (forall i, (i < j)%nat ->
       f32get (fst arrs) i = random (g0 + 2 * i)%nat * jitter /\
       f32get (snd arrs) i
       = minDur + random (1 + (g0 + 2 * i))%nat * (maxDur - minDur))).
  apply (for_rand_inv P (timing_body random jitter minDur maxDur) n 0).
  - unfold P. simpl fst; simpl snd. rewrite f32new_length.
    repeat split; try lia; intros; lia.
  - intros j [starts durs] g Hj (Hg & HL1 & HL2 & Hget).
    simpl fst in HL1, HL2, Hget. simpl snd in HL2, Hget.
    unfold P, timing_body, bind, Math_random, ret. simpl fst; simpl snd.
    split; [lia |]. split; [rewrite f32set_length; exact HL1 |].
    split; [rewrite f32set_length; exact HL2 |].
    intros i Hi. destruct (Nat.eq_dec i j) as [-> | Hne].
    + rewrite !f32get_set_same by lia. subst g. split; reflexivity.
    + rewrite !f32get_set_other by lia. apply Hget. lia.
Qed.

(** The generator leaves a well-formed state, whatever the sizes of the
    arrays it replaces. *)
Lemma prepareBuildCycle_wf (random : nat -> R) (now' : R) (st : State) :
  length (endPositions st) = (N st * 3)%nat ->
  wf (prepareBuildCycle random now' st).
Proof.
  intros Hend. unfold prepareBuildCycle.
  destruct (spawn_loop_spec random (halfW_of st) (halfH_of st)
              (endPositions st) (N st) (rng st)) as (_ & HL1 & HL2 & _).
  destruct (for_rand (N st) 0 _ _ (rng st)) as [[startP exitP] g1].
  destruct (timing_loop_spec random SETTINGS.BUILD.startJitter
              SETTINGS.BUILD.minDur SETTINGS.BUILD.maxDur (N st) g1)
    as (_ & HL3 & HL4 & _).
  destruct (for_rand (N st) 0 _ _ g1) as [[t0 td] g2].
  destruct (timing_loop_spec random SETTINGS.EXIT.startJitter
              SETTINGS.EXIT.minDur SETTINGS.EXIT.maxDur (N st) g2)
    as (_ & HL5 & HL6 & _).
  destruct (for_rand (N st) 0 _ _ g2) as [[e0 ed] g3].
  unfold wf. simpl in *. repeat split; assumption.
Qed.

(** With draws in [0, 1) the build timings of the new cycle lie in the
    configured ranges; in particular every build duration is positive. *)
Lemma prepareBuildCycle_build_timing (random : nat -> R) (now' : R)
  (st : State) (i : nat) :
  (forall n, 0 <= random n < 1) -> (i < N st)%nat ->
  let st' := prepareBuildCycle random now' st in
  0 <= f32get (startTimesBuild st') i < SETTINGS.BUILD.startJitter /\
  SETTINGS.BUILD.minDur <= f32get (durationsBuild st') i
                        < SETTINGS.BUILD.maxDur.
Proof.
  intros Hrandom Hi. unfold prepareBuildCycle.
  destruct (for_rand (N st) 0 _ _ (rng st)) as [[startP exitP] g1].
  destruct (timing_loop_spec random SETTINGS.BUILD.startJitter
              SETTINGS.BUILD.minDur SETTINGS.BUILD.maxDur (N st) g1)
    as (_ & _ & _ & Hget).
  destruct (for_rand (N st) 0 _ _ g1) as [[t0 td] g2].
  destruct (for_rand (N st) 0 _ _ g2) as [[e0 ed] g3].
  cbn [fst snd] in Hget. cbn [startTimesBuild durationsBuild].
  destruct (Hget i Hi) as [-> ->].
  pose proof (Hrandom (g1 + 2 * i)%nat).
  pose proof (Hrandom (1 + (g1 + 2 * i))%nat).
  unfold SETTINGS.BUILD.startJitter, SETTINGS.BUILD.minDur,
    SETTINGS.BUILD.maxDur.
  split; nra.
Qed.

(** * Further properties of the frame callback *)

(** ** What a frame leaves alone *)

Lemma prepareBuildCycle_keeps (random : nat -> R) (now' : R) (st : State) :
  let st' := prepareBuildCycle random now' st in
  N st' = N st /\ endPositions st' = endPositions st /\
  bounds_w st' = bounds_w st /\ bounds_h st' = bounds_h st /\
  scale st' = scale st /\
  points_visible st' = true /\ points_opacity st' = 1 /\
  rotation_x st' = 0 /\ rotation_z st' = 0.
Proof.
  unfold prepareBuildCycle.
  destruct (for_rand (N st) 0 _ _ (rng st)) as [[startP exitP] g1].
  destruct (for_rand (N st) 0 _ _ g1) as [[t0 td] g2].
  destruct (for_rand (N st) 0 _ _ g2) as [[e0 ed] g3].
  simpl. repeat split; try reflexivity. lra.
Qed.

Lemma tick_keeps (random : nat -> R) (now dt now' : R) (st : State) :
  let st' := fst (tick random now dt now' st) in
  N st' = N st /\ endPositions st' = endPositions st /\
  bounds_w st' = bounds_w st /\ bounds_h st' = bounds_h st /\
  scale st' = scale st.
Proof.
  unfold tick. destruct (phase st).
  - unfold tick_build.
    destruct (for_range (N st) 0 (build_body now st) (position st, 0)).
    simpl. repeat split; reflexivity.
  - unfold tick_shake. simpl. repeat split; reflexivity.
  - unfold tick_exit.
    destruct (for_range (N st) 0 (exit_body now st) (position st, O)).
    simpl. repeat split; reflexivity.
  - unfold tick_wait. destruct Rge_dec; simpl.
    + destruct (prepareBuildCycle_keeps random now' st)
        as (H1 & H2 & H3 & H4 & H5 & _).
      repeat split; assumption.
    + repeat split; reflexivity.
Qed.

(** X1: the number of particles, their targets, the bounds and the scale are
    fixed for the life of the page: no run of frames, through whatever
    phases and cycles, changes them. *)
Theorem run_keeps_targets
  (random : nat -> R) (frames : list Frame) (st : State) :
  let st' := run random frames st in
  N st' = N st /\ endPositions st' = endPositions st /\
  bounds_w st' = bounds_w st /\ bounds_h st' = bounds_h st /\
  scale st' = scale st.
Proof.
  revert st. induction frames as [| f fs IH]; intros st; simpl.
  - repeat split; reflexivity.
  - destruct (IH (fst (tick random (frame_now f) (frame_dt f)
                         (frame_now' f) st)))
      as (H1 & H2 & H3 & H4 & H5).
    destruct (tick_keeps random (frame_now f) (frame_dt f) (frame_now' f) st)
      as (K1 & K2 & K3 & K4 & K5).
    cbv zeta in *. repeat split; congruence.
Qed.

(** ** The order of the phases *)

Lemma tick_shake_fields (now dt : R) (st : State) :
  let st' := fst (tick_shake now dt st) in
  let over :=
    if Rge_dec (now - tPhaseStart st) SETTINGS.SHAKE.secs
    then true else false in
  phase st' = (if over then EXIT else phase st) /\
  tPhaseStart st' = (if over then now else tPhaseStart st) /\
  shakePhase st' = shakePhase st + SETTINGS.SHAKE.speed * dt /\
  rotation_y st' = MAX_YAW * sin (shakePhase st') /\
  rotation_x st' = sin (now * 0.6) * 0.05 /\
  points_visible st' = (if over then true else points_visible st) /\
  points_opacity st' = (if over then 1 else points_opacity st) /\
  plane_opacity st' = plane_opacity st /\
  position st' = position st /\
  snd (tick_shake now dt st) = [CallRender].
Proof.
  unfold tick_shake. simpl.
  destruct (Rge_dec (now - tPhaseStart st) SETTINGS.SHAKE.secs);
    repeat split; try reflexivity; lra.
Qed.

(** X2: a frame either keeps the phase or moves to the next phase of the
    cycle build, oscillate, exit, pause, build; the start of the phase is
    stamped when, and only when, the phase changes: with [now], or with the
    generator's own reading of the clock when the pause ends. *)
Theorem tick_follows_cycle
  (random : nat -> R) (now dt now' : R) (st : State) :
  let st' := fst (tick random now dt now' st) in
  (phase st' = phase st /\ tPhaseStart st' = tPhaseStart st) \/
  (phase st' = next_phase (phase st) /\
   tPhaseStart st' = (match phase st with WAIT => now' | _ => now end)).
Proof.
  unfold tick. destruct (phase st) eqn:Hphase; cbv zeta.
  - destruct (tick_build_fields now dt st) as (_ & _ & _ & Hph & Htp & _).
    rewrite Hph, Htp, Hphase.
    destruct (_ && _); [right | left]; split; reflexivity.
  - destruct (tick_shake_fields now dt st) as (Hph & Htp & _).
    cbv zeta in Hph, Htp. rewrite Hph, Htp, Hphase.
    destruct (Rge_dec _ _); [right | left]; split; reflexivity.
  - unfold tick_exit.
    destruct (for_range (N st) 0 (exit_body now st) (position st, O))
      as [pos done].
    simpl. rewrite Hphase.
    destruct (N st <=? done)%nat; [right | left]; split; reflexivity.
  - unfold tick_wait. destruct Rge_dec; simpl.
    + right. destruct (prepareBuildCycle_resets random now' st)
        as (H1 & H2 & _). split; assumption.
    + left. split; [exact Hphase | reflexivity].
Qed.

(** ** Invariants of a run *)

Lemma tick_wf (random : nat -> R) (now dt now' : R) (st : State) :
  wf st -> wf (fst (tick random now dt now' st)).
Proof.
  intros Hwf.
  destruct Hwf as (H1 & H2 & H3 & H4 & H5 & H6 & H7 & H8).
  unfold tick. destruct (phase st).
  - destruct (build_loop_spec now st H4) as (HL & _).
    unfold tick_build.
    destruct (for_range (N st) 0 (build_body now st) (position st, 0)).
    unfold wf. simpl in *. repeat split; assumption.
  - unfold tick_shake, wf. simpl. repeat split; assumption.
  - destruct (exit_loop_spec now st H4) as (HL & _).
    unfold tick_exit.
    destruct (for_range (N st) 0 (exit_body now st) (position st, O)).
    unfold wf. simpl in *. repeat split; assumption.
  - unfold tick_wait. destruct Rge_dec; simpl.
    + apply prepareBuildCycle_wf. exact H2.
    + unfold wf. repeat split; assumption.
Qed.



Lemma tick_opacity_range (random : nat -> R) (now dt now' : R) (st : State) :
  0 <= plane_opacity st <= 1 ->
  0 <= plane_opacity (fst (tick random now dt now' st)) <= 1.
Proof.
  intros Hop. unfold tick. destruct (phase st).
  - destruct (tick_build_fields now dt st) as (_ & _ & Ho & _).
    rewrite Ho. destruct Rgt_dec; [| exact Hop].
    unfold Math.min, Rmin. destruct Rle_dec; lra.
  - destruct (tick_shake_fields now dt st)
      as (_ & _ & _ & _ & _ & _ & _ & Ho & _).
    rewrite Ho. exact Hop.
  - unfold tick_exit.
    destruct (for_range (N st) 0 (exit_body now st) (position st, O)).
    simpl. unfold Math.max, Rmax. destruct Rle_dec; lra.
  - unfold tick_wait. destruct Rge_dec; simpl; [| exact Hop].
    destruct (prepareBuildCycle_resets random now' st)
      as (_ & _ & _ & _ & Ho & _).
    rewrite Ho. lra.
Qed.

(** X4: the opacity of the overlay is always a fraction: from an opacity in
    [0, 1], every run of frames, through whatever phases, leaves it in
    [0, 1]. *)
Theorem run_keeps_opacity
  (random : nat -> R) (frames : list Frame) (st : State)
  (Hop : 0 <= plane_opacity st <= 1) :
  0 <= plane_opacity (run random frames st) <= 1.
Proof.
  revert st Hop. induction frames as [| f fs IH]; intros st Hop; simpl.
  - exact Hop.
  - apply IH. apply tick_opacity_range. exact Hop.
Qed.

Lemma run_keeps_opacity_witness :
  0 <= plane_opacity
         (run draws [mkFrame 3 0.25 0; mkFrame 3.25 0.25 0]
            (scene1 BUILD_SPIN)) <= 1.
Proof.
  assert (Hop : 0 <= plane_opacity (scene1 BUILD_SPIN) <= 1)
    by (simpl; lra).
  exact (run_keeps_opacity draws [mkFrame 3 0.25 0; mkFrame 3.25 0.25 0]
           (scene1 BUILD_SPIN) Hop).
Defined.

(** ** The oscillation phase *)

(** X5: a frame of the oscillation phase advances the phase accumulator by
    [speed * dt] and sets the yaw to [MAX_YAW * sin shakePhase], within
    [MAX_YAW] (25 degrees, less than one radian) of the rest position; it
    leaves the particles and the overlay as they are; it moves to the exit
    phase exactly when 8 seconds have passed in the phase, and then makes the
    particles visible again at full opacity. *)
Theorem oscillation_frame
  (random : nat -> R) (now dt now' : R) (st : State)
  (Hphase : phase st = SHAKE) :
  let st' := fst (tick random now dt now' st) in
  shakePhase st' = shakePhase st + 0.5 * dt /\
  rotation_y st' = MAX_YAW * sin (shakePhase st') /\
  - MAX_YAW <= rotation_y st' <= MAX_YAW /\
  MAX_YAW = 25 * (PI / 180) /\ MAX_YAW < 1 /\
  position st' = position st /\
  plane_opacity st' = plane_opacity st /\
  (phase st' = EXIT <-> now - tPhaseStart st >= 8) /\
  (now - tPhaseStart st < 8 ->
   phase st' = SHAKE /\ tPhaseStart st' = tPhaseStart st /\
   points_visible st' = points_visible st /\
   points_opacity st' = points_opacity st) /\
  (now - tPhaseStart st >= 8 ->
   tPhaseStart st' = now /\ points_visible st' = true /\
   points_opacity st' = 1).
Proof.
  unfold tick. rewrite Hphase. cbv zeta.
  destruct (tick_shake_fields now dt st)
    as (Hph & Htp & Hsp & Hy & _ & Hv & Ho & Hpl & Hpos & _).
  cbv zeta in *. unfold SETTINGS.SHAKE.secs, SETTINGS.SHAKE.speed in *.
  pose proof MAX_YAW_range as HM.
  pose proof (SIN_bound (shakePhase (fst (tick_shake now dt st)))) as Hsin.
  rewrite Hph, Htp, Hv, Ho, Hphase.
  split; [exact Hsp |]. split; [exact Hy |].
  split; [rewrite Hy; nra |].
  split; [reflexivity |]. split; [lra |].
  split; [exact Hpos |]. split; [exact Hpl |].
  destruct (Rge_dec (now - tPhaseStart st) 8.0) as [Hge | Hlt].
  - split; [split; [intros _; lra | reflexivity] |].
    split; [intros; lra | intros _; repeat split; reflexivity].
  - split; [split; [discriminate | intros; lra] |].
    split; [intros _; repeat split; reflexivity | intros; lra].
Qed.

Lemma oscillation_frame_witness :
  let st' := fst (tick draws 9 0.25 0 (scene1 SHAKE)) in
  phase st' = EXIT /\ tPhaseStart st' = 9 /\ points_visible st' = true.
Proof.
  pose proof (oscillation_frame draws 9 0.25 0 (scene1 SHAKE) eq_refl) as H.
  cbv zeta in H.
  destruct H as (_ & _ & _ & _ & _ & _ & _ & Hexit & _ & Hover).
  assert (Hge : 9 - tPhaseStart (scene1 SHAKE) >= 8) by (simpl; lra).
  cbv zeta. split; [apply Hexit; exact Hge |].
  destruct (Hover Hge) as (Ht & Hv & _). split; assumption.
Defined.

(** ** More on the build phase *)

Lemma tick_build_points (now dt : R) (st : State) :
  let st' := fst (tick_build now dt st) in
  let s := handoff_s (avgBuildProgress st') in
  points_opacity st' = Math.pow (1 - s) 1.5 /\
  points_visible st'
  = (if Rge_dec s 0.999 then false else points_visible st) /\
  rotation_x st' = sin (now * 0.6) * 0.05.
Proof.
  unfold tick_build.
  destruct (for_range (N st) 0 (build_body now st) (position st, 0))
    as [pos avg].
  simpl. destruct (Rge_dec _ 0.999); repeat split; reflexivity.
Qed.

Lemma Rpower_1_base (y : R) : Rpower 1 y = 1.
Proof. unfold Rpower. rewrite ln_1, Rmult_0_r. apply exp_0. Qed.

Lemma pow_fraction (x y : R) : 0 <= x <= 1 -> 0 < y -> 0 <= Math.pow x y <= 1.
Proof.
  intros Hx Hy. unfold Math.pow.
  destruct (Req_dec_T x 0) as [-> | Hn].
  - destruct (Req_dec_T y 0); lra.
  - split; [left; unfold Rpower; apply exp_pos |].
    rewrite <- (Rpower_1_base y). apply Rle_Rpower_l; lra.
Qed.

(** X6: during the build phase, with at least one particle, the yaw stays
    between the start of the sweep, [- PI], and the amplitude of the
    oscillation, [MAX_YAW]; the tilt is within 0.05; and the average build
    progress is a fraction. *)
Theorem build_yaw_range
  (random : nat -> R) (now dt now' : R) (st : State)
  (Hphase : phase st = BUILD_SPIN) (HN : (0 < N st)%nat) :
  let st' := fst (tick random now dt now' st) in
  0 <= avgBuildProgress st' <= 1 /\
  - PI <= rotation_y st' <= MAX_YAW /\
  - 0.05 <= rotation_x st' <= 0.05.
Proof.
  rewrite (tick_phase_build random now dt now' st Hphase). cbv zeta.
  destruct (tick_build_fields now dt st) as (_ & Hyaw & _).
  destruct (tick_build_points now dt st) as (_ & _ & Hx).
  assert (Havg : 0 <= avgBuildProgress (fst (tick_build now dt st)) <= 1).
  { rewrite tick_build_avg. apply build_avg_range. exact HN. }
  set (st' := fst (tick_build now dt st)) in *.
  pose proof (handoff_s_range (avgBuildProgress st')) as Hs.
  pose proof (yawBuild_of_range _ Havg) as Hb.
  pose proof MAX_YAW_range as HM. pose proof PI2_3_2 as Hpi.
  pose proof (SIN_bound (shakePhase st')) as Hsin.
  pose proof (SIN_bound (now * 0.6)) as Hsx.
  set (s := handoff_s (avgBuildProgress st')) in *.
  set (b := yawBuild_of (avgBuildProgress st')) in *.
  set (o := sin (shakePhase st')) in *.
  assert (H1 : 0 <= (1 - s) * (b + PI)) by (apply Rmult_le_pos; lra).
  assert (H2 : 0 <= (1 - s) * - b) by (apply Rmult_le_pos; lra).
  assert (H3 : 0 <= s * (MAX_YAW * (o + 1)))
    by (apply Rmult_le_pos; [lra | apply Rmult_le_pos; lra]).
  assert (H4 : 0 <= s * (MAX_YAW * (1 - o)))
    by (apply Rmult_le_pos; [lra | apply Rmult_le_pos; lra]).
  assert (H5 : 0 <= s * (PI - MAX_YAW)) by (apply Rmult_le_pos; lra).
  assert (H6 : 0 <= (1 - s) * MAX_YAW) by (apply Rmult_le_pos; lra).
  split; [exact Havg |]. split; [rewrite Hyaw; split; nra |].
  rewrite Hx. lra.
Qed.

Lemma build_yaw_range_witness :
  let st' := fst (tick draws 1.75 0.25 0 (scene1 BUILD_SPIN)) in
  0 <= avgBuildProgress st' <= 1 /\
  - PI <= rotation_y st' <= MAX_YAW /\
  - 0.05 <= rotation_x st' <= 0.05.
Proof.
  exact (build_yaw_range draws 1.75 0.25 0 (scene1 BUILD_SPIN) eq_refl
           (Nat.lt_0_succ 0)).
Defined.

(** X7: during the build phase of a scene with at least one particle the
    opacity of the particles is
    [(1 - s) ^ 1.5], a fraction: 1 while the blend has not begun ([s = 0])
    and 0 once it is complete ([s = 1]); the particles are hidden on every
    frame with [s >= 0.999] and are never shown again by a build frame, so
    that they are hidden when the machine moves to the oscillation. *)
Theorem particle_fade
  (random : nat -> R) (now dt now' : R) (st : State)
  (Hphase : phase st = BUILD_SPIN)
  (HN : (0 < N st)%nat) :
  let st' := fst (tick random now dt now' st) in
  let s := smoothstep 0.94 1.00 (avgBuildProgress st') in
  points_opacity st' = Math.pow (1 - s) 1.5 /\
  0 <= points_opacity st' <= 1 /\
  (s = 0 -> points_opacity st' = 1) /\
  (s = 1 -> points_opacity st' = 0) /\
  (s >= 0.999 -> points_visible st' = false) /\
  (s < 0.999 -> points_visible st' = points_visible st) /\
  (phase st' = SHAKE -> points_visible st' = false).
Proof.
  rewrite (tick_phase_build random now dt now' st Hphase). cbv zeta.
  destruct (tick_build_points now dt st) as (Hop & Hv & _).
  destruct (tick_build_fields now dt st) as (_ & _ & _ & Hph & _).
  set (st' := fst (tick_build now dt st)) in *.
  change (smoothstep 0.94 1.00 (avgBuildProgress st'))
    with (handoff_s (avgBuildProgress st')).
  pose proof (handoff_s_range (avgBuildProgress st')) as Hs.
  set (s := handoff_s (avgBuildProgress st')) in *.
  rewrite Hop, Hv.
  split; [reflexivity |].
  split; [apply pow_fraction; lra |].
  split.
  { intros ->. unfold Math.pow. replace (1 - 0) with 1 by ring.
    destruct (Req_dec_T 1 0); [lra | apply Rpower_1_base]. }
  split.
  { intros ->. unfold Math.pow. replace (1 - 1) with 0 by ring.
    destruct (Req_dec_T 0 0) as [_ | H]; [| lra].
    destruct (Req_dec_T 1.5 0); [lra | reflexivity]. }
  split; [intros Hge; destruct (Rge_dec s 0.999); [reflexivity | lra] |].
  split; [intros Hlt; destruct (Rge_dec s 0.999); [lra | reflexivity] |].
  intros Hshake. rewrite Hph, Hphase in Hshake.
  destruct (Rge_dec s 0.999); [reflexivity |].
  simpl in Hshake. discriminate.
Qed.

Lemma particle_fade_witness :
  let st' := fst (tick draws 1.75 0.25 0 (scene1 BUILD_SPIN)) in
  0 <= points_opacity st' <= 1.
Proof.
  pose proof (particle_fade draws 1.75 0.25 0 (scene1 BUILD_SPIN) eq_refl
                (Nat.lt_0_succ 0)) as H.
  cbv zeta in H. destruct H as (_ & Hr & _). exact Hr.
Defined.

(** ** How long the build phase lasts *)

Lemma build_frame_opacity_step (now dt : R) (st : State) :
  let st' := fst (tick_build now dt st) in
  plane_opacity st' <= plane_opacity st + 0.03 /\
  (phase st = BUILD_SPIN -> plane_opacity st' < 0.999 ->
   phase st' = BUILD_SPIN).
Proof.
  cbv zeta.
  destruct (tick_build_fields now dt st) as (_ & _ & Ho & Hph & _).
  split.
  - rewrite Ho. destruct Rgt_dec; [| lra].
    unfold Math.min, Rmin. destruct Rle_dec; lra.
  - intros Hphase Hlt. rewrite Hph, Hphase.
    destruct (Rge_dec (plane_opacity (fst (tick_build now dt st))) 0.999);
      [lra |].
    rewrite andb_false_r. reflexivity.
Qed.

Lemma run_build_opacity (random : nat -> R) (frames : list Frame) :
  forall (k : nat) (st : State),
    phase st = BUILD_SPIN ->
    plane_opacity st <= 0.03 * INR k ->
    (k + length frames < 34)%nat ->
    phase (run random frames st) = BUILD_SPIN /\
    plane_opacity (run random frames st)
    <= 0.03 * INR (k + length frames).
Proof.
  induction frames as [| f fs IH]; intros k st Hphase Hop Hlen; simpl.
  - rewrite Nat.add_0_r. split; assumption.
  - simpl in Hlen.
    rewrite (tick_phase_build random _ _ _ st Hphase).
    destruct (build_frame_opacity_step (frame_now f) (frame_dt f) st)
      as (Hstep & Hstay).
    cbv zeta in Hstep, Hstay.
    assert (Hk : INR (S k) <= 33).
    { replace 33 with (INR 33) by (simpl; lra). apply le_INR. lia. }
    rewrite S_INR in Hk.
    replace (k + S (length fs))%nat with (S k + length fs)%nat by lia.
    apply IH.
    + apply Hstay; [exact Hphase | lra].
    + rewrite S_INR. lra.
    + lia.
Qed.

(** X8: the overlay fades in by 0.03 per frame, so the hand-off takes at
    least 34 frames whatever the clock says: from a build phase that starts
    with a transparent overlay, as the generator leaves it, no run of fewer
    than 34 frames has left the build phase. *)
Theorem build_lasts_34_frames
  (random : nat -> R) (frames : list Frame) (st : State)
  (Hphase : phase st = BUILD_SPIN)
  (Hop : plane_opacity st <= 0)
  (Hlen : (length frames < 34)%nat) :
  phase (run random frames st) = BUILD_SPIN /\
  plane_opacity (run random frames st) <= 0.03 * INR (length frames).
Proof.
  apply (run_build_opacity random frames 0 st Hphase).
  - simpl. lra.
  - simpl. exact Hlen.
Qed.

Lemma build_lasts_34_frames_witness :
  phase (run draws [mkFrame 100 100 0; mkFrame 200 100 0] (scene1 BUILD_SPIN))
  = BUILD_SPIN.
Proof.
  assert (Hop : plane_opacity (scene1 BUILD_SPIN) <= 0) by (simpl; lra).
  assert (Hlen : (length [mkFrame 100 100 0; mkFrame 200 100 0] < 34)%nat)
    by (simpl; lia).
  exact (proj1 (build_lasts_34_frames draws
                  [mkFrame 100 100 0; mkFrame 200 100 0]
                  (scene1 BUILD_SPIN) eq_refl Hop Hlen)).
Defined.

Lemma sum_upto_const (f : nat -> R) (n : nat) (c : R) :
  (forall i, (i < n)%nat -> f i = c) -> sum_upto f n = INR n * c.
Proof.
  induction n as [| n IH]; intros H.
  - simpl. ring.
  - rewrite S_INR. simpl. rewrite IH by (intros; apply H; lia).
    rewrite (H n) by lia. ring.
Qed.

Lemma handoff_s_1 : handoff_s 1 = 1.
Proof.
  unfold handoff_s, smoothstep, SETTINGS.HANDOFF.startProg,
    SETTINGS.HANDOFF.endProg. cbv zeta.
  replace (1.00 - 0.94) with (6 / 100) by lra.
  replace (1 - 0.94) with (6 / 100) by lra.
  replace (6 / 100 / (6 / 100)) with 1 by field.
  rewrite clamp01_high by lra. ring.
Qed.

(** The average build progress once every particle has finished. *)
Lemma build_avg_complete (now : R) (st : State) :
  (0 < N st)%nat ->
  (forall i, (i < N st)%nat ->
     0 < f32get (durationsBuild st) i /\
     now - tPhaseStart st - f32get (startTimesBuild st) i
     >= f32get (durationsBuild st) i) ->
  build_avg now st = 1.
Proof.
  intros HN Hdone. unfold build_avg.
  rewrite (sum_upto_const _ _ 1).
  - field. apply not_0_INR. lia.
  - intros i Hi. destruct (Hdone i Hi) as [Hd Hge].
    unfold build_e, build_prog.
    rewrite clamp01_high by (apply div_ge_1; assumption).
    apply easeOutExpo_1.
Qed.

(** X9: once every particle's build time has run out, a build frame has the
    average build progress at exactly 1 and the blend complete: every
    particle is at its target, the yaw is the oscillation's, and the
    particles are hidden at opacity 0; the machine moves to the oscillation on
    that frame exactly when the overlay, after its step of 0.03, has reached
    0.999. *)
Theorem build_complete_frame
  (random : nat -> R) (now dt now' : R) (st : State)
  (Hwf : wf st) (Hphase : phase st = BUILD_SPIN) (HN : (0 < N st)%nat)
  (Hdone : forall i, (i < N st)%nat ->
     0 < f32get (durationsBuild st) i /\
     now - tPhaseStart st - f32get (startTimesBuild st) i
     >= f32get (durationsBuild st) i) :
  let st' := fst (tick random now dt now' st) in
  avgBuildProgress st' = 1 /\
  smoothstep 0.94 1.00 (avgBuildProgress st') = 1 /\
  (forall i k, (i < N st)%nat -> (k < 3)%nat ->
     f32get (position st') (i * 3 + k)
     = f32get (endPositions st) (i * 3 + k)) /\
  shakePhase st' = shakePhase st + 0.5 * dt /\
  rotation_y st' = MAX_YAW * sin (shakePhase st') /\
  points_opacity st' = 0 /\ points_visible st' = false /\
  (phase st' = SHAKE <-> Rmin 1 (plane_opacity st + 0.03) >= 0.999).
Proof.
  rewrite (tick_phase_build random now dt now' st Hphase). cbv zeta.
  destruct Hwf as (_ & _ & _ & Hpos & _).
  destruct (tick_build_fields now dt st) as (Hsp & Hyaw & Ho & Hph & _).
  destruct (tick_build_points now dt st) as (Hpo & Hv & _).
  pose proof (tick_build_avg now dt st) as Havg.
  rewrite (build_avg_complete now st HN Hdone) in Havg.
  set (st' := fst (tick_build now dt st)) in *.
  change (smoothstep 0.94 1.00 (avgBuildProgress st'))
    with (handoff_s (avgBuildProgress st')).
  rewrite Havg in *. rewrite handoff_s_1 in *.
  unfold SETTINGS.BUILD.planeFadeAt, SETTINGS.SHAKE.speed in *.
  destruct (Rgt_dec 1 0.92) as [_ | H]; [| lra].
  destruct (Rgt_dec 1 0) as [_ | H]; [| lra].
  destruct (Rge_dec 1 0.999) as [_ | H]; [| lra].
  split; [reflexivity |]. split; [reflexivity |].
  split.
  { intros i k Hi Hk. unfold st'.
    rewrite tick_build_position by assumption.
    destruct (Hdone i Hi) as [Hd Hge].
    unfold build_e, build_prog.
    rewrite clamp01_high by (apply div_ge_1; assumption).
    rewrite easeOutExpo_1. apply lerp_1. }
  split; [rewrite Hsp; lra |].
  split; [rewrite Hyaw; lra |].
  split.
  { rewrite Hpo. unfold Math.pow. replace (1 - 1) with 0 by ring.
    destruct (Req_dec_T 0 0) as [_ | H]; [| lra].
    destruct (Req_dec_T 1.5 0); [lra | reflexivity]. }
  split; [exact Hv |].
  rewrite Hph, Ho, Hphase. unfold Math.min.
  destruct (Rge_dec (Rmin 1 (plane_opacity st + 0.03)) 0.999); simpl;
    split; intros; try reflexivity; try discriminate; try assumption; lra.
Qed.

Lemma build_complete_frame_witness :
  let st' := fst (tick draws 2 0.25 0 scenarioA) in
  avgBuildProgress st' = 1 /\ rotation_y st' = MAX_YAW * sin (shakePhase st').
Proof.
  assert (HN : (0 < N scenarioA)%nat) by (simpl; lia).
  assert (Hdone : forall i, (i < N scenarioA)%nat ->
     0 < f32get (durationsBuild scenarioA) i /\
     2 - tPhaseStart scenarioA - f32get (startTimesBuild scenarioA) i
     >= f32get (durationsBuild scenarioA) i).
  { intros i Hi. unfold f32get.
    destruct i as [| [| [| [| i]]]]; simpl in *; try lia; split; lra. }
  pose proof (build_complete_frame draws 2 0.25 0 scenarioA wf_scenarioA
                eq_refl HN Hdone) as H.
  cbv zeta in H. destruct H as (Ha & _ & _ & _ & Hy & _).
  cbv zeta. split; assumption.
Defined.

(** X10: a cycle the generator has produced has finished building 5.2 seconds
    (the largest start delay plus the largest duration) after the
    generator's reading of the clock: on a frame at or after that time the
    average build progress is 1 and every particle is at its target. *)
Theorem generated_build_completes
  (random : nat -> R) (now0 now dt now' : R) (st : State)
  (Hrandom : forall n, 0 <= random n < 1)
  (Hend : length (endPositions st) = (N st * 3)%nat)
  (HN : (0 < N st)%nat)
  (Hlate : now - now0 >= SETTINGS.BUILD.startJitter + SETTINGS.BUILD.maxDur) :
  let cycle := prepareBuildCycle random now0 st in
  let st' := fst (tick random now dt now' cycle) in
  SETTINGS.BUILD.startJitter + SETTINGS.BUILD.maxDur = 5.2 /\
  avgBuildProgress st' = 1 /\
  (forall i k, (i < N st)%nat -> (k < 3)%nat ->
     f32get (position st') (i * 3 + k)
     = f32get (endPositions st) (i * 3 + k)).
Proof.
  cbv zeta.
  destruct (prepareBuildCycle_resets random now0 st)
    as (Hph & Htp & _ & _ & _ & _ & HN' & Hend' & _).
  pose proof (prepareBuildCycle_wf random now0 st Hend) as Hwf.
  assert (Hdone : forall i, (i < N (prepareBuildCycle random now0 st))%nat ->
     0 < f32get (durationsBuild (prepareBuildCycle random now0 st)) i /\
     now - tPhaseStart (prepareBuildCycle random now0 st)
     - f32get (startTimesBuild (prepareBuildCycle random now0 st)) i
     >= f32get (durationsBuild (prepareBuildCycle random now0 st)) i).
  { intros i Hi. rewrite HN' in Hi.
    destruct (prepareBuildCycle_build_timing random now0 st i Hrandom Hi)
      as [Hs Hd].
    rewrite Htp.
    unfold SETTINGS.BUILD.startJitter, SETTINGS.BUILD.minDur,
      SETTINGS.BUILD.maxDur in *. lra. }
  rewrite (tick_phase_build random now dt now' _ Hph).
  split; [unfold SETTINGS.BUILD.startJitter, SETTINGS.BUILD.maxDur; lra |].
  split.
  - rewrite tick_build_avg. apply build_avg_complete; [| exact Hdone].
    rewrite HN'. exact HN.
  - intros i k Hi Hk. destruct Hwf as (_ & _ & _ & Hpos & _).
    rewrite tick_build_position
      by first [assumption | rewrite HN'; assumption].
    assert (Hi' : (i < N (prepareBuildCycle random now0 st))%nat)
      by (rewrite HN'; exact Hi).
    destruct (Hdone i Hi') as [Hd Hge].
    unfold build_e, build_prog.
    rewrite clamp01_high by (apply div_ge_1; assumption).
    rewrite easeOutExpo_1, lerp_1, Hend'. reflexivity.
Qed.

Lemma generated_build_completes_witness :
  avgBuildProgress
    (fst (tick draws 6 0.25 0 (prepareBuildCycle draws 0 scenarioA))) = 1.
Proof.
  assert (Hend : length (endPositions scenarioA) = (N scenarioA * 3)%nat)
    by reflexivity.
  assert (HN : (0 < N scenarioA)%nat) by (simpl; lia).
  assert (Hlate : 6 - 0 >= SETTINGS.BUILD.startJitter + SETTINGS.BUILD.maxDur)
    by (unfold SETTINGS.BUILD.startJitter, SETTINGS.BUILD.maxDur; lra).
  pose proof (generated_build_completes draws 0 6 0.25 0 scenarioA
                draws_range Hend HN Hlate) as H.
  cbv zeta in H. destruct H as (_ & Ha & _). exact Ha.
Defined.

(** ** More on the exit phase *)

Lemma easeInCubic_range (p : R) : 0 <= p <= 1 -> 0 <= easeInCubic p <= 1.
Proof.
  intros Hp. unfold easeInCubic.
  assert (0 <= p * p <= 1) by nra. nra.
Qed.

Lemma exit_prog_range (now : R) (st : State) (i : nat) :
  0 <= exit_prog now st i <= 1.
Proof. unfold exit_prog. apply clamp01_range. Qed.

(** X11: in the exit phase every coordinate a frame writes lies between the
    particle's target and its exit target, whatever the time; once every
    particle's exit time has run out the particles are exactly at their
    exit targets and the machine moves to the pause, stamping [now]; and
    every exit frame takes 0.03 off the overlay's opacity, never below 0. *)
Theorem exit_frame_bounds
  (random : nat -> R) (now dt now' : R) (st : State)
  (Hwf : wf st) (Hphase : phase st = EXIT) :
  let st' := fst (tick random now dt now' st) in
  (forall i k, (i < N st)%nat -> (k < 3)%nat ->
     Rmin (f32get (endPositions st) (i * 3 + k))
          (f32get (exitPositions st) (i * 3 + k))
     <= f32get (position st') (i * 3 + k)
     <= Rmax (f32get (endPositions st) (i * 3 + k))
             (f32get (exitPositions st) (i * 3 + k))) /\
  plane_opacity st' = Rmax 0 (plane_opacity st - 0.03) /\
  0 <= plane_opacity st' /\
  ((forall i, (i < N st)%nat ->
      0 < f32get (durationsExit st) i /\
      now - tPhaseStart st - f32get (startTimesExit st) i
      >= f32get (durationsExit st) i) ->
   phase st' = WAIT /\ tPhaseStart st' = now /\
   forall i k, (i < N st)%nat -> (k < 3)%nat ->
     f32get (position st') (i * 3 + k)
     = f32get (exitPositions st) (i * 3 + k)).
Proof.
  rewrite (tick_phase_exit random now dt now' st Hphase). cbv zeta.
  destruct Hwf as (_ & _ & _ & Hpos & _).
  destruct (tick_exit_fields now st Hpos) as (Hp & Hph & Htp & Ho & _).
  split.
  { intros i k Hi Hk. rewrite Hp by assumption.
    apply lerp_between, easeInCubic_range, exit_prog_range. }
  split; [exact Ho |].
  split; [rewrite Ho; unfold Math.max, Rmax; destruct Rle_dec; lra |].
  intros Hdone.
  assert (Hone : forall i, (i < N st)%nat -> exit_prog now st i = 1).
  { intros i Hi. destruct (Hdone i Hi) as [Hd Hge].
    unfold exit_prog. apply clamp01_high, div_ge_1; assumption. }
  assert (Hall : (N st <=? exit_done now st)%nat = true).
  { apply exit_done_all. intros i Hi. rewrite (Hone i Hi). lra. }
  rewrite Hph, Htp, Hall.
  split; [reflexivity |]. split; [reflexivity |].
  intros i k Hi Hk. rewrite Hp by assumption. rewrite (Hone i Hi).
  unfold easeInCubic. replace (1 * 1 * 1) with 1 by ring. apply lerp_1.
Qed.

Lemma exit_frame_bounds_witness :
  let st' := fst (tick draws 1 0.25 0 scenarioB) in
  phase st' = WAIT /\ tPhaseStart st' = 1 /\
  f32get (position st') (0 * 3 + 0) = 4.
Proof.
  pose proof (exit_frame_bounds draws 1 0.25 0 scenarioB wf_scenarioB eq_refl)
    as H.
  cbv zeta in H. destruct H as (_ & _ & _ & Hdone).
  assert (Hd : forall i, (i < N scenarioB)%nat ->
      0 < f32get (durationsExit scenarioB) i /\
      1 - tPhaseStart scenarioB - f32get (startTimesExit scenarioB) i
      >= f32get (durationsExit scenarioB) i).
  { intros i Hi. unfold f32get.
    destruct i as [| [| [| [| i]]]]; simpl in *; try lia; split; lra. }
  destruct (Hdone Hd) as (Hph & Htp & Hpos).
  cbv zeta. split; [exact Hph |]. split; [exact Htp |].
  rewrite (Hpos 0%nat 0%nat) by (simpl; lia). reflexivity.
Defined.

(** ** More on the cycle generator *)

Lemma prepareBuildCycle_timings (random : nat -> R) (now' : R) (st : State)
  (i : nat) :
  (i < N st)%nat ->
  let st' := prepareBuildCycle random now' st in
  let gb := (rng st + 5 * N st + 2 * i)%nat in
  let ge := (rng st + 5 * N st + 2 * N st + 2 * i)%nat in
  f32get (startTimesBuild st') i = random gb * SETTINGS.BUILD.startJitter /\
  f32get (durationsBuild st') i
  = SETTINGS.BUILD.minDur
    + random (1 + gb)%nat * (SETTINGS.BUILD.maxDur - SETTINGS.BUILD.minDur) /\
  f32get (startTimesExit st') i = random ge * SETTINGS.EXIT.startJitter /\
  f32get (durationsExit st') i
  = SETTINGS.EXIT.minDur
    + random (1 + ge)%nat * (SETTINGS.EXIT.maxDur - SETTINGS.EXIT.minDur) /\
  rng st' = (rng st + 9 * N st)%nat.
Proof.
  intros Hi. unfold prepareBuildCycle.
  destruct (spawn_loop_spec random (halfW_of st) (halfH_of st)
              (endPositions st) (N st) (rng st)) as (Hg1 & _).
  destruct (for_rand (N st) 0 _ _ (rng st)) as [[startP exitP] g1].
  destruct (timing_loop_spec random SETTINGS.BUILD.startJitter
              SETTINGS.BUILD.minDur SETTINGS.BUILD.maxDur (N st) g1)
    as (Hg2 & _ & _ & Hb).
  destruct (for_rand (N st) 0 _ _ g1) as [[t0 td] g2].
  destruct (timing_loop_spec random SETTINGS.EXIT.startJitter
              SETTINGS.EXIT.minDur SETTINGS.EXIT.maxDur (N st) g2)
    as (Hg3 & _ & _ & He).
  destruct (for_rand (N st) 0 _ _ g2) as [[e0 ed] g3].
  cbn [fst snd] in *. cbv zeta.
  cbn [startTimesBuild durationsBuild startTimesExit durationsExit rng].
  destruct (Hb i Hi) as [-> ->]. destruct (He i Hi) as [-> ->].
  subst g3 g2 g1.
  replace (rng st + 5 * N st + 2 * N st + 2 * N st)%nat
    with (rng st + 9 * N st)%nat by lia.
  repeat split; reflexivity.
Qed.

(** X12: with draws in [0, 1) every particle of a new cycle has its build
    start in [0, 1.2) and its build duration in [2, 4), its exit start in
    [0, 0.5) and its exit duration in [1, 1.8), and spawns at a depth in
    [-0.8, 0.8); in particular every duration is positive. *)
Theorem generator_ranges
  (random : nat -> R) (now' : R) (st : State) (i : nat)
  (Hrandom : forall n, 0 <= random n < 1)
  (Hi : (i < N st)%nat) :
  let st' := prepareBuildCycle random now' st in
  0 <= f32get (startTimesBuild st') i < 1.2 /\
  2 <= f32get (durationsBuild st') i < 4 /\
  0 <= f32get (startTimesExit st') i < 0.5 /\
  1 <= f32get (durationsExit st') i < 1.8 /\
  - 0.8 <= f32get (startPositions st') (i * 3 + 2) < 0.8.
Proof.
  cbv zeta.
  destruct (prepareBuildCycle_timings random now' st i Hi)
    as (-> & -> & -> & -> & _).
  destruct (prepareBuildCycle_arrays random now' st i 2 Hi ltac:(lia))
    as [Hz _].
  cbv zeta in Hz. rewrite Hz.
  pose proof (Hrandom (rng st + 5 * N st + 2 * i)%nat).
  pose proof (Hrandom (1 + (rng st + 5 * N st + 2 * i))%nat).
  pose proof (Hrandom (rng st + 5 * N st + 2 * N st + 2 * i)%nat).
  pose proof (Hrandom (1 + (rng st + 5 * N st + 2 * N st + 2 * i))%nat).
  pose proof (Hrandom (rng st + 5 * i)%nat) as Hr0.
  pose proof (Hrandom (1 + (rng st + 5 * i))%nat) as Hr1.
  unfold SETTINGS.BUILD.startJitter, SETTINGS.BUILD.minDur,
    SETTINGS.BUILD.maxDur, SETTINGS.EXIT.startJitter, SETTINGS.EXIT.minDur,
    SETTINGS.EXIT.maxDur.
  split; [lra |]. split; [lra |]. split; [lra |]. split; [lra |].
  destruct (spawn_xyz_cases (halfW_of st) (halfH_of st)
              (random (rng st + 5 * i)%nat)
              (random (1 + (rng st + 5 * i))%nat)
              (random (2 + (rng st + 5 * i))%nat) Hr0)
    as [[_ ->] | [[_ ->] | [[_ ->] | [_ ->]]]]; cbn [nth]; lra.
Qed.

Lemma generator_ranges_witness :
  2 <= f32get (durationsBuild (prepareBuildCycle draws 0 scenarioA)) 2 < 4.
Proof.
  assert (Hi : (2 < N scenarioA)%nat) by (simpl; lia).
  pose proof (generator_ranges draws 0 scenarioA 2 draws_range Hi) as H.
  cbv zeta in H. destruct H as (_ & Hd & _). exact Hd.
Defined.

(** X13: the generator makes exactly nine draws per particle and uses each
    once.  In the first loop draw [g + 5 i] chooses the edge, [g + 5 i + 1]
    the spawn depth, [g + 5 i + 2] the place on the edge, [g + 5 i + 3] the
    exit magnitude and [g + 5 i + 4] the exit depth; then draws
    [g + 5 N + 2 i] and the next give the build start and duration, and
    [g + 7 N + 2 i] and the next the exit start and duration.  The nine
    indices of a particle are distinct, lie among the [9 * N] draws of the
    cycle and are shared with no other particle; a cycle of [N] particles
    moves the random source on by [9 * N] draws. *)
Theorem generator_draws
  (random : nat -> R) (now' : R) (st : State) (i : nat)
  (Hi : (i < N st)%nat) :
  let st' := prepareBuildCycle random now' st in
  let g := rng st in
  let n := N st in
  let halfW := bounds_w st * scale st / 2 + SETTINGS.LOGO_DIAMETER * 0.75 in
  let halfH := bounds_h st * scale st / 2 + SETTINGS.LOGO_DIAMETER * 0.75 in
  let edge := Math.floor (random (g + 5 * i)%nat * 4) in
  let place := random (g + 5 * i + 2)%nat in
  let vx := f32get (endPositions st) (i * 3 + 0) in
  let vy := f32get (endPositions st) (i * 3 + 1) in
  let mag := 6 + random (g + 5 * i + 3)%nat * 4.8 in
  rng st' = (g + 9 * n)%nat /\
  f32get (startPositions st') (i * 3 + 0)
  = (if (edge =? 0)%Z then - halfW
     else if (edge =? 1)%Z then halfW
     else randBetween_of place (- halfW) halfW) /\
  f32get (startPositions st') (i * 3 + 1)
  = (if (edge =? 0)%Z then randBetween_of place (- halfH) halfH
     else if (edge =? 1)%Z then randBetween_of place (- halfH) halfH
     else if (edge =? 2)%Z then halfH
     else - halfH) /\
  f32get (startPositions st') (i * 3 + 2)
  = (random (g + 5 * i + 1)%nat * 2 - 1) * 0.8 /\
  f32get (exitPositions st') (i * 3 + 0) = vx + vx / exit_len vx vy * mag /\
  f32get (exitPositions st') (i * 3 + 1) = vy + vy / exit_len vx vy * mag /\
  f32get (exitPositions st') (i * 3 + 2)
  = (random (g + 5 * i + 4)%nat * 2 - 1) * 1.2 /\
  f32get (startTimesBuild st') i = random (g + 5 * n + 2 * i)%nat * 1.2 /\
  f32get (durationsBuild st') i
  = 2 + random (g + 5 * n + 2 * i + 1)%nat * 2 /\
  f32get (startTimesExit st') i = random (g + 7 * n + 2 * i)%nat * 0.5 /\
  f32get (durationsExit st') i
  = 1 + random (g + 7 * n + 2 * i + 1)%nat * 0.8 /\
  NoDup (particle_draws g n i) /\
  (forall d, In d (particle_draws g n i) -> (g <= d < g + 9 * n)%nat) /\
  (forall j d, (j < n)%nat -> j <> i ->
     In d (particle_draws g n i) -> ~ In d (particle_draws g n j)).
Proof.
  cbv zeta.
  destruct (prepareBuildCycle_timings random now' st i Hi)
    as (-> & -> & -> & -> & ->).
  destruct (prepareBuildCycle_arrays random now' st i 0 Hi ltac:(lia))
    as [Hx Hex].
  destruct (prepareBuildCycle_arrays random now' st i 1 Hi ltac:(lia))
    as [Hy Hey].
  destruct (prepareBuildCycle_arrays random now' st i 2 Hi ltac:(lia))
    as [Hz Hez].
  cbv zeta in Hx, Hy, Hz, Hex, Hey, Hez.
  rewrite Hx, Hy, Hz, Hex, Hey, Hez.
  replace (rng st + 5 * i + 1)%nat with (1 + (rng st + 5 * i))%nat by lia.
  replace (rng st + 5 * i + 2)%nat with (2 + (rng st + 5 * i))%nat by lia.
  replace (rng st + 5 * i + 3)%nat with (3 + (rng st + 5 * i))%nat by lia.
  replace (rng st + 5 * i + 4)%nat with (4 + (rng st + 5 * i))%nat by lia.
  replace (rng st + 5 * N st + 2 * i + 1)%nat
    with (1 + (rng st + 5 * N st + 2 * i))%nat by lia.
  replace (rng st + 7 * N st + 2 * i + 1)%nat
    with (1 + (rng st + 5 * N st + 2 * N st + 2 * i))%nat by lia.
  replace (rng st + 7 * N st + 2 * i)%nat
    with (rng st + 5 * N st + 2 * N st + 2 * i)%nat by lia.
  unfold SETTINGS.BUILD.startJitter, SETTINGS.BUILD.minDur,
    SETTINGS.BUILD.maxDur, SETTINGS.EXIT.startJitter, SETTINGS.EXIT.minDur,
    SETTINGS.EXIT.maxDur, SETTINGS.EXIT.pushDistance, exit_xyz, spawn_xyz,
    halfW_of, halfH_of, PAD.
  cbv zeta. cbn [nth].
  split; [reflexivity |].
  split.
  { destruct (Math.floor (random (rng st + 5 * i)%nat * 4) =? 0)%Z;
      [reflexivity |].
    destruct (Math.floor (random (rng st + 5 * i)%nat * 4) =? 1)%Z;
      [reflexivity |].
    destruct (Math.floor (random (rng st + 5 * i)%nat * 4) =? 2)%Z;
      reflexivity. }
  split.
  { destruct (Math.floor (random (rng st + 5 * i)%nat * 4) =? 0)%Z;
      [reflexivity |].
    destruct (Math.floor (random (rng st + 5 * i)%nat * 4) =? 1)%Z;
      [reflexivity |].
    destruct (Math.floor (random (rng st + 5 * i)%nat * 4) =? 2)%Z;
      reflexivity. }
  split.
  { destruct (Math.floor (random (rng st + 5 * i)%nat * 4) =? 0)%Z;
      [reflexivity |].
    destruct (Math.floor (random (rng st + 5 * i)%nat * 4) =? 1)%Z;
      [reflexivity |].
    destruct (Math.floor (random (rng st + 5 * i)%nat * 4) =? 2)%Z;
      reflexivity. }
  unfold SETTINGS.LOGO_DIAMETER, SETTINGS.EXIT.pushDistance.
  split; [f_equal; f_equal; lra |].
  split; [f_equal; f_equal; lra |].
  split; [reflexivity |].
  split; [reflexivity |]. split; [lra |]. split; [reflexivity |].
  split; [lra |].
  unfold particle_draws.
  split.
  { repeat (constructor; [simpl; lia |]). constructor. }
  split.
  { intros d Hd. simpl in Hd. lia. }
  intros j d Hj Hne Hd Hd'. simpl in Hd, Hd'. lia.
Qed.

Lemma generator_draws_witness :
  rng (prepareBuildCycle draws 0 scenarioA) = 36%nat.
Proof.
  assert (Hi : (0 < N scenarioA)%nat) by (simpl; lia).
  pose proof (generator_draws draws 0 scenarioA 0 Hi) as H.
  cbv zeta in H. destruct H as (Hr & _). exact Hr.
Defined.

Lemma hypot_scale (c x y : R) :
  0 <= c -> Math.hypot (c * x) (c * y) = c * Math.hypot x y.
Proof.
  intros Hc. unfold Math.hypot.
  replace (c * x * (c * x) + c * y * (c * y))
    with (c * c * (x * x + y * y)) by ring.
  rewrite sqrt_mult by nra. rewrite sqrt_square by exact Hc. reflexivity.
Qed.

(** X14: with draws in [0, 1), the exit target of a particle that is not at
    the centre lies on the ray from the centre through its target,
    [mag] further out, where [mag] is at least the push distance 6 and less
    than 10.8: its planar distance from the centre is the target's plus
    [mag]. *)
Theorem exit_target_pushed_out
  (random : nat -> R) (now' : R) (st : State) (i : nat)
  (Hrandom : forall n, 0 <= random n < 1)
  (Hi : (i < N st)%nat)
  (Hoff : Math.hypot (f32get (endPositions st) (i * 3 + 0))
            (f32get (endPositions st) (i * 3 + 1)) <> 0) :
  let st' := prepareBuildCycle random now' st in
  let vx := f32get (endPositions st) (i * 3 + 0) in
  let vy := f32get (endPositions st) (i * 3 + 1) in
  let ex := f32get (exitPositions st') (i * 3 + 0) in
  let ey := f32get (exitPositions st') (i * 3 + 1) in
  let mag := 6 + random (3 + (rng st + 5 * i))%nat * 4.8 in
  6 <= mag < 10.8 /\
  ex = (1 + mag / Math.hypot vx vy) * vx /\
  ey = (1 + mag / Math.hypot vx vy) * vy /\
  Math.hypot ex ey = Math.hypot vx vy + mag.
Proof.
  cbv zeta.
  destruct (prepareBuildCycle_arrays random now' st i 0 Hi ltac:(lia))
    as [_ Hx].
  destruct (prepareBuildCycle_arrays random now' st i 1 Hi ltac:(lia))
    as [_ Hy].
  cbv zeta in Hx, Hy. unfold exit_xyz, exit_len in Hx, Hy.
  cbn [nth] in Hx, Hy. cbv zeta in Hx, Hy.
  set (vx := f32get (endPositions st) (i * 3 + 0)) in *.
  set (vy := f32get (endPositions st) (i * 3 + 1)) in *.
  destruct (Req_dec_T (Math.hypot vx vy) 0) as [E | _]; [contradiction |].
  pose proof (hypot_nonneg vx vy) as Hh.
  assert (Hpos : 0 < Math.hypot vx vy) by lra.
  pose proof (Hrandom (3 + (rng st + 5 * i))%nat) as Hr.
  unfold SETTINGS.EXIT.pushDistance, SETTINGS.LOGO_DIAMETER in Hx, Hy.
  set (r := random (3 + (rng st + 5 * i))%nat) in *.
  set (h := Math.hypot vx vy) in *.
  assert (Hmag : 6.0 + r * (6.0 * 0.8) = 6 + r * 4.8) by lra.
  rewrite Hmag in Hx, Hy.
  assert (Hex : f32get (exitPositions (prepareBuildCycle random now' st))
                  (i * 3 + 0) = (1 + (6 + r * 4.8) / h) * vx)
    by (rewrite Hx; field; lra).
  assert (Hey : f32get (exitPositions (prepareBuildCycle random now' st))
                  (i * 3 + 1) = (1 + (6 + r * 4.8) / h) * vy)
    by (rewrite Hy; field; lra).
  split; [lra |]. split; [exact Hex |]. split; [exact Hey |].
  rewrite Hex, Hey.
  assert (Hc : 0 <= 1 + (6 + r * 4.8) / h).
  { assert (0 <= (6 + r * 4.8) / h)
      by (apply Rmult_le_pos; [lra | left; apply Rinv_0_lt_compat; lra]).
    lra. }
  rewrite hypot_scale by exact Hc. fold h. field. lra.
Qed.

Lemma exit_target_pushed_out_witness :
  let st' := prepareBuildCycle draws 0 scenarioA in
  Math.hypot (f32get (exitPositions st') (0 * 3 + 0))
             (f32get (exitPositions st') (0 * 3 + 1))
  = Math.hypot 1 2 + (6 + draws 3 * 4.8).
Proof.
  assert (Hi : (0 < N scenarioA)%nat) by (simpl; lia).
  assert (Hoff : Math.hypot (f32get (endPositions scenarioA) (0 * 3 + 0))
                   (f32get (endPositions scenarioA) (0 * 3 + 1)) <> 0).
  { unfold f32get. simpl nth. unfold Math.hypot. intros E.
    apply sqrt_eq_0 in E; lra. }
  pose proof (exit_target_pushed_out draws 0 scenarioA 0 draws_range Hi Hoff)
    as H.
  cbv zeta in H. destruct H as (_ & _ & _ & Hd). exact Hd.
Defined.

(** ** The helpers *)

(** X15: for [a < b], [smoothstep a b] is 0 up to [a], 1 from [b] on, one
    half at the middle, a fraction everywhere and nondecreasing. *)
Theorem smoothstep_shape (a b x y : R) (Hab : a < b) :
  0 <= smoothstep a b x <= 1 /\
  (x <= a -> smoothstep a b x = 0) /\
  (b <= x -> smoothstep a b x = 1) /\
  smoothstep a b ((a + b) / 2) = 1 / 2 /\
  (x <= y -> smoothstep a b x <= smoothstep a b y).
Proof.
  assert (Hinv : 0 < / (b - a)) by (apply Rinv_0_lt_compat; lra).
  assert (Hrange : forall z, 0 <= smoothstep a b z <= 1).
  { intros z. unfold smoothstep. cbv zeta.
    pose proof (clamp01_range ((z - a) / (b - a))) as H.
    set (t := clamp01 _) in *.
    assert (0 <= t * t) by nra.
    assert (0 <= (1 - t) * (1 - t) * (1 + 2 * t))
      by (apply Rmult_le_pos; nra).
    split; [apply Rmult_le_pos; lra | lra]. }
  split; [apply Hrange |]. split.
  { intros Hx. unfold smoothstep. cbv zeta. rewrite clamp01_low; [ring |].
    unfold Rdiv. assert (0 <= (a - x) * / (b - a)) by (apply Rmult_le_pos; lra).
    lra. }
  split.
  { intros Hx. unfold smoothstep. cbv zeta. rewrite clamp01_high; [ring |].
    apply div_ge_1; lra. }
  split.
  { unfold smoothstep. cbv zeta.
    replace (((a + b) / 2 - a) / (b - a)) with (1 / 2) by (field; lra).
    rewrite clamp01_id by lra. field. }
  intros Hxy. unfold smoothstep. cbv zeta.
  assert (Hq : (x - a) / (b - a) <= (y - a) / (b - a)).
  { unfold Rdiv. apply Rmult_le_compat_r; lra. }
  pose proof (clamp01_mono _ _ Hq) as Hm.
  pose proof (clamp01_range ((x - a) / (b - a))) as Hu.
  pose proof (clamp01_range ((y - a) / (b - a))) as Hv.
  set (u := clamp01 ((x - a) / (b - a))) in *.
  set (v := clamp01 ((y - a) / (b - a))) in *.
  assert (H1 : 0 <= (v - u) * (u * (3 - 2 * u - v) + v * (3 - 2 * v - u))).
  { apply Rmult_le_pos; [lra |].
    assert (0 <= u * (3 - 2 * u - v)) by (apply Rmult_le_pos; lra).
    assert (0 <= v * (3 - 2 * v - u)) by (apply Rmult_le_pos; lra).
    lra. }
  nra.
Qed.

Lemma smoothstep_shape_witness :
  smoothstep 0.94 1.00 0.5 = 0 /\ smoothstep 0.94 1.00 2 = 1.
Proof.
  assert (Hab : 0.94 < 1.00) by lra.
  destruct (smoothstep_shape 0.94 1.00 0.5 2 Hab) as (_ & H0 & _).
  destruct (smoothstep_shape 0.94 1.00 2 2 Hab) as (_ & _ & H1 & _).
  split; [apply H0; lra | apply H1; lra].
Defined.

Lemma Rpower2_mono (x y : R) : x <= y -> Rpower 2 x <= Rpower 2 y.
Proof.
  intros [Hlt | ->]; [left; apply Rpower_lt; lra | lra].
Qed.

(** X16: [easeOutExpo] is nondecreasing on the whole line and is a fraction
    from 0 on, but it is not continuous: below [t = 1] its values stay
    under [1023 / 1024], and at [t = 1] it is 1; no build progress is eased
    to a value between the two. *)
Theorem easeOutExpo_shape (t u : R) :
  (t <= u -> easeOutExpo t <= easeOutExpo u) /\
  (0 <= t -> 0 <= easeOutExpo t <= 1) /\
  (t < 1 -> easeOutExpo t < 1023 / 1024) /\
  (1 <= t -> easeOutExpo t = 1) /\
  ~ (1023 / 1024 <= easeOutExpo t < 1).
Proof.
  assert (Hgap : forall v, v < 1 -> easeOutExpo v < 1023 / 1024).
  { intros v Hv. unfold easeOutExpo.
    destruct (Rge_dec v 1) as [H | _]; [lra |]. rewrite pow2.
    assert (H10 : Rpower 2 (-10) = / 1024).
    { replace (-10) with (- INR 10) by (simpl; lra).
      rewrite Rpower2_neg_nat. simpl. f_equal. lra. }
    assert (Hlt : Rpower 2 (-10) < Rpower 2 (-10 * v))
      by (apply Rpower_lt; lra).
    lra. }
  assert (Hone : forall v, 1 <= v -> easeOutExpo v = 1).
  { intros v Hv. unfold easeOutExpo.
    destruct (Rge_dec v 1) as [_ | H]; [reflexivity | lra]. }
  split.
  { intros Htu. destruct (Rlt_dec u 1) as [Hu | Hu].
    - unfold easeOutExpo.
      destruct (Rge_dec t 1) as [H | _]; [lra |].
      destruct (Rge_dec u 1) as [H | _]; [lra |].
      rewrite !pow2.
      pose proof (Rpower2_mono (-10 * u) (-10 * t) ltac:(lra)). lra.
    - rewrite (Hone u) by lra.
      destruct (Rlt_dec t 1) as [Ht | Ht].
      + pose proof (Hgap t Ht). lra.
      + rewrite (Hone t) by lra. lra. }
  split; [apply easeOutExpo_range |].
  split; [apply Hgap |]. split; [apply Hone |].
  intros [Hlo Hhi]. destruct (Rlt_dec t 1) as [Ht | Ht].
  - pose proof (Hgap t Ht). lra.
  - rewrite (Hone t) in Hhi by lra. lra.
Qed.

Lemma easeOutExpo_shape_witness : easeOutExpo 0.5 < 1023 / 1024.
Proof.
  destruct (easeOutExpo_shape 0.5 0.5) as (_ & _ & Hgap & _).
  apply Hgap. lra.
Defined.

(** * Sampling the image and starting the animation *)

(** ** Loops with a step *)

Lemma for_step_steps {St : Type} (body : nat -> St -> Rand St)
  (bound step : nat) :
  forall (fuel x : nat) (s : St) (g : nat),
    for_step fuel x bound step body s g
    = for_each body (steps fuel x bound step) s g.
Proof.
  induction fuel as [| fuel IH]; intros x s g; simpl; [reflexivity |].
  destruct (x <? bound)%nat; simpl; [| reflexivity].
  unfold bind. destruct (body x s g) as [s' g']. apply IH.
Qed.

Lemma steps_sound (bound step : nat) :
  forall (fuel x v : nat),
    In v (steps fuel x bound step) ->
    (v < bound)%nat /\ exists k, v = (x + k * step)%nat.
Proof.
  induction fuel as [| fuel IH]; intros x v Hin; simpl in Hin; [tauto |].
  destruct (Nat.ltb_spec x bound) as [Hlt | Hge]; [| destruct Hin].
  destruct Hin as [<- | Hin].
  - split; [exact Hlt | exists 0%nat; lia].
  - destruct (IH _ _ Hin) as [Hv [k Hk]].
    split; [exact Hv | exists (S k); lia].
Qed.

Lemma steps_complete (bound step : nat) :
  (1 <= step)%nat ->
  forall (fuel x k : nat),
    (bound <= x + fuel)%nat -> (x + k * step < bound)%nat ->
    In (x + k * step)%nat (steps fuel x bound step).
Proof.
  intros Hstep. induction fuel as [| fuel IH]; intros x k Hfuel Hlt.
  - lia.
  - simpl. destruct (Nat.ltb_spec x bound) as [Hx | Hx]; [| nia].
    destruct k as [| k].
    + left. lia.
    + right. replace (x + S k * step)%nat with (x + step + k * step)%nat
        by lia.
      apply IH; [nia | lia].
Qed.

Lemma for_each_app {A St : Type} (body : A -> St -> Rand St)
  (l1 l2 : list A) (s : St) (g : nat) :
  for_each body (l1 ++ l2) s g
  = for_each body l2 (fst (for_each body l1 s g))
      (snd (for_each body l1 s g)).
Proof.
  revert s g. induction l1 as [| a l1 IH]; intros s g; simpl; [reflexivity |].
  unfold bind. destruct (body a s g) as [s' g']. apply IH.
Qed.

(** The rule of the loop invariant for [for_each]. *)
Lemma for_each_inv {A St : Type} (P : St -> nat -> Prop)
  (body : A -> St -> Rand St) (l : list A) :
  (forall a s g, In a l -> P s g ->
     P (fst (body a s g)) (snd (body a s g))) ->
  forall s g, P s g ->
    P (fst (for_each body l s g)) (snd (for_each body l s g)).
Proof.
  induction l as [| a l IH]; intros Hstep s g H0; simpl; [exact H0 |].
  unfold bind. pose proof (Hstep a s g (or_introl eq_refl) H0) as H1.
  destruct (body a s g) as [s' g']. apply IH; [| exact H1].
  intros b s2 g2 Hb. apply Hstep. right. exact Hb.
Qed.

(** ** sampleImageToPoints *)

Lemma jitter_range (r : R) : 0 <= r < 1 -> - 0.3 <= (r - 0.5) * 0.6 < 0.3.
Proof. intros H. lra. Qed.

Lemma sample_pixel_cases (random : nat -> R) (cw alphaCutoff : nat)
  (data : list nat) (y x : nat) (pts : list (R * R)) (g : nat) :
  (exists a, alpha_at cw data x y = Some a /\ (alphaCutoff < a)%nat /\
     sample_pixel random cw alphaCutoff data y x pts g
     = (pts ++ [(INR x + (random g - 0.5) * 0.6,
                 INR y + (random (S g) - 0.5) * 0.6)], S (S g))) \/
  ((forall a, alpha_at cw data x y = Some a -> (a <= alphaCutoff)%nat) /\
   sample_pixel random cw alphaCutoff data y x pts g = (pts, g)).
Proof.
  unfold sample_pixel, alpha_at. cbv zeta.
  destruct (nth_error data ((y * cw + x) * 4 + 3)) as [a |].
  - destruct (Nat.ltb_spec alphaCutoff a) as [Hlt | Hge].
    + left. exists a. split; [reflexivity |].
      split; [exact Hlt | reflexivity].
    + right. split; [| reflexivity]. intros b Hb. injection Hb as <-. exact Hge.
  - right. split; [| reflexivity]. intros b Hb. discriminate.
Qed.

Lemma sample_pixel_keeps (random : nat -> R) (cw alphaCutoff : nat)
  (data : list nat) (y x : nat) (pts : list (R * R)) (g : nat) (p : R * R) :
  In p pts -> In p (fst (sample_pixel random cw alphaCutoff data y x pts g)).
Proof.
  intros Hin.
  destruct (sample_pixel_cases random cw alphaCutoff data y x pts g)
    as [(a & _ & _ & ->) | (_ & ->)]; simpl; [| exact Hin].
  apply in_or_app. left. exact Hin.
Qed.

Lemma sample_row_keeps (random : nat -> R) (cw step alphaCutoff : nat)
  (data : list nat) (y : nat) (xs : list nat) (pts : list (R * R)) (g : nat)
  (p : R * R) :
  In p pts ->
  In p (fst (for_each (sample_pixel random cw alphaCutoff data y) xs pts g)).
Proof.
  intros Hin.
  apply (for_each_inv (fun s _ => In p s)); [| exact Hin].
  intros x s g' _ Hs. apply sample_pixel_keeps. exact Hs.
Qed.

Lemma sample_rows_keep (random : nat -> R) (cw step alphaCutoff : nat)
  (data : list nat) (ys : list nat) (pts : list (R * R)) (g : nat)
  (p : R * R) :
  In p pts ->
  In p (fst (for_each (sample_row random cw step alphaCutoff data) ys pts g)).
Proof.
  intros Hin.
  apply (for_each_inv (fun s _ => In p s)); [| exact Hin].
  intros y s g' _ Hs. unfold sample_row. rewrite for_step_steps.
  apply (sample_row_keeps random cw step). exact Hs.
Qed.

Lemma sample_grid_ok (random : nat -> R) (cw ch step alphaCutoff : nat)
  (data : list nat) (g : nat) :
  (forall n, 0 <= random n < 1) ->
  samples_ok cw ch step alphaCutoff data g
    (fst (sample_grid random cw ch step alphaCutoff data g))
    (snd (sample_grid random cw ch step alphaCutoff data g)).
Proof.
  intros Hrandom. unfold sample_grid. rewrite for_step_steps.
  apply (for_each_inv (samples_ok cw ch step alphaCutoff data g)).
  - intros y pts g1 Hy Hok. unfold sample_row. rewrite for_step_steps.
    apply (for_each_inv (samples_ok cw ch step alphaCutoff data g));
      [| exact Hok].
    intros x pts2 g2 Hx [Hall Hg].
    destruct (steps_sound _ _ _ _ _ Hy) as [Hylt [ky Hky]].
    destruct (steps_sound _ _ _ _ _ Hx) as [Hxlt [kx Hkx]].
    destruct (sample_pixel_cases random cw alphaCutoff data y x pts2 g2)
      as [(a & Ha & Hlt & ->) | (_ & ->)]; simpl; [| split; assumption].
    split.
    + apply Forall_app. split; [exact Hall |].
      constructor; [| constructor].
      exists x, y. unfold sampled_from. simpl fst; simpl snd.
      pose proof (jitter_range _ (Hrandom g2)).
      pose proof (jitter_range _ (Hrandom (S g2))).
      split; [exact Hxlt |]. split; [exact Hylt |].
      split; [exists kx; lia |]. split; [exists ky; lia |].
      split; [exists a; split; assumption |].
      split; lra.
    + rewrite length_app. simpl. lia.
  - split; [constructor | simpl; lia].
Qed.

(** X17: with draws in [0, 1) and a step of at least 1, every sample the two
    loops of
    [sampleImageToPoints] return comes from a pixel of the canvas that is on
    the grid of the given step and whose alpha exceeds the cutoff, displaced
    by less than 0.3 of a pixel in each direction, so that it lies within
    0.3 of the canvas; each sample costs two draws; and a canvas with no
    pixel above the cutoff gives no sample at all and draws nothing. *)
Theorem sampling_sound
  (random : nat -> R) (cw ch step alphaCutoff : nat) (data : list nat)
  (g : nat)
  (Hrandom : forall n, 0 <= random n < 1)
  (Hstep : (1 <= step)%nat) :
  let r := sample_grid random cw ch step alphaCutoff data g in
  (forall p, In p (fst r) ->
     exists x y, sampled_from cw ch step alphaCutoff data p x y) /\
  (forall p, In p (fst r) ->
     - 0.3 <= fst p < INR cw - 0.7 /\ - 0.3 <= snd p < INR ch - 0.7) /\
  snd r = (g + 2 * length (fst r))%nat /\
  ((forall x y a, alpha_at cw data x y = Some a -> (a <= alphaCutoff)%nat) ->
   fst r = [] /\ snd r = g).
Proof.
  cbv zeta.
  destruct (sample_grid_ok random cw ch step alphaCutoff data g Hrandom)
    as [Hall Hg].
  rewrite Forall_forall in Hall.
  split; [exact Hall |]. split.
  { intros p Hp. destruct (Hall p Hp) as (x & y & Hx & Hy & _ & _ & _ & Hpx & Hpy).
    apply le_INR in Hx. apply le_INR in Hy. rewrite S_INR in Hx, Hy.
    pose proof (pos_INR x). pose proof (pos_INR y). split; lra. }
  split; [exact Hg |].
  intros Htransparent.
  destruct (fst (sample_grid random cw ch step alphaCutoff data g))
    as [| p pts] eqn:E.
  - split; [reflexivity |]. rewrite Hg. simpl. lia.
  - exfalso.
    destruct (Hall p (or_introl eq_refl))
      as (x & y & _ & _ & _ & _ & (a & Ha & Hlt) & _).
    specialize (Htransparent x y a Ha). lia.
Qed.

Lemma sampling_sound_witness :
  let r := sample_grid draws 4 4 3 12 (pixels4 4 4) 0%nat in
  snd r = (0 + 2 * length (fst r))%nat.
Proof.
  assert (Hstep : (1 <= 3)%nat) by lia.
  pose proof (sampling_sound draws 4 4 3 12 (pixels4 4 4) 0%nat draws_range
                Hstep) as H.
  cbv zeta in H. destruct H as (_ & _ & Hg & _). exact Hg.
Defined.

(** X18: with a step of at least 1 the two loops miss no pixel of the
    grid: for every pixel of the canvas whose coordinates
    are multiples of the step and whose alpha exceeds the cutoff there is a
    sample within 0.3 of it. *)
Theorem sampling_complete
  (random : nat -> R) (cw ch step alphaCutoff : nat) (data : list nat)
  (g kx ky a : nat)
  (Hrandom : forall n, 0 <= random n < 1)
  (Hstep : (1 <= step)%nat)
  (Hx : (kx * step < cw)%nat) (Hy : (ky * step < ch)%nat)
  (Ha : alpha_at cw data (kx * step) (ky * step) = Some a)
  (Hopaque : (alphaCutoff < a)%nat) :
  exists p,
    In p (fst (sample_grid random cw ch step alphaCutoff data g)) /\
    - 0.3 <= fst p - INR (kx * step) < 0.3 /\
    - 0.3 <= snd p - INR (ky * step) < 0.3.
Proof.
  unfold sample_grid. rewrite for_step_steps.
  assert (Hiny : In (ky * step)%nat (steps ch 0 ch step))
    by (apply (steps_complete ch step Hstep ch 0 ky); lia).
  assert (Hinx : In (kx * step)%nat (steps cw 0 cw step))
    by (apply (steps_complete cw step Hstep cw 0 kx); lia).
  destruct (in_split _ _ Hiny) as (ys1 & ys2 & ->).
  destruct (in_split _ _ Hinx) as (xs1 & xs2 & Exs).
  rewrite for_each_app. simpl for_each at 1. unfold bind.
  set (s1 := fst (for_each (sample_row random cw step alphaCutoff data)
                    ys1 [] g)).
  set (g1 := snd (for_each (sample_row random cw step alphaCutoff data)
                    ys1 [] g)).
  assert (Hrow : exists p,
            In p (fst (sample_row random cw step alphaCutoff data
                         (ky * step) s1 g1)) /\
            - 0.3 <= fst p - INR (kx * step) < 0.3 /\
            - 0.3 <= snd p - INR (ky * step) < 0.3).
  { unfold sample_row. rewrite for_step_steps, Exs, for_each_app.
    simpl for_each at 1. unfold bind.
    set (s2 := fst (for_each _ xs1 s1 g1)).
    set (g2 := snd (for_each _ xs1 s1 g1)).
    destruct (sample_pixel_cases random cw alphaCutoff data (ky * step)
                (kx * step) s2 g2)
      as [(b & _ & _ & E) | (Hno & _)].
    - rewrite E.
      exists (INR (kx * step) + (random g2 - 0.5) * 0.6,
              INR (ky * step) + (random (S g2) - 0.5) * 0.6).
      pose proof (jitter_range _ (Hrandom g2)).
      pose proof (jitter_range _ (Hrandom (S g2))).
      split; [| simpl fst; simpl snd; split; lra].
      apply (sample_row_keeps random cw step).
      apply in_or_app. right. left. reflexivity.
    - specialize (Hno a Ha). lia. }
  destruct Hrow as (p & Hp & Hnear).
  exists p. split; [| exact Hnear].
  destruct (sample_row random cw step alphaCutoff data (ky * step) s1 g1)
    as [s3 g3].
  apply sample_rows_keep. exact Hp.
Qed.

Lemma sampling_complete_witness :
  exists p,
    In p (fst (sample_grid draws 4 4 3 12 (pixels4 4 4) 0%nat)) /\
    - 0.3 <= fst p - INR (1 * 3) < 0.3 /\
    - 0.3 <= snd p - INR (0 * 3) < 0.3.
Proof.
  apply (sampling_complete draws 4 4 3 12 (pixels4 4 4) 0%nat 1%nat 0%nat 255%nat
           draws_range); try (simpl; lia).
  reflexivity.
Defined.

(** ** The canvas *)

Lemma Zfloor_to_nat_le (x : R) (n : nat) :
  x <= INR n -> (Z.to_nat (Zfloor x) <= n)%nat.
Proof.
  intros Hx. pose proof (Zfloor_bound x) as [Hlo _].
  assert (Hz : (Zfloor x <= Z.of_nat n)%Z).
  { apply le_IZR. rewrite <- INR_IZR_INZ. lra. }
  lia.
Qed.

Lemma canvas_scale_range (iw ih : nat) :
  (0 < iw \/ 0 < ih)%nat ->
  0 < canvas_scale iw ih <= 1 /\
  INR iw * canvas_scale iw ih <= maxSide /\
  INR ih * canvas_scale iw ih <= maxSide /\
  (Rmax (INR iw) (INR ih) <= maxSide -> canvas_scale iw ih = 1).
Proof.
  intros Hpos. unfold canvas_scale, Math.min, Math.max, maxSide.
  pose proof (pos_INR iw) as Hw. pose proof (pos_INR ih) as Hh.
  set (m := Rmax (INR iw) (INR ih)).
  assert (Hmw : INR iw <= m) by apply Rmax_l.
  assert (Hmh : INR ih <= m) by apply Rmax_r.
  assert (Hm : 0 < m).
  { destruct Hpos as [H | H]; apply lt_INR in H; simpl in H; lra. }
  assert (Hinv : 0 < / m) by (apply Rinv_0_lt_compat; exact Hm).
  assert (Hq : 0 < 512 / m) by (unfold Rdiv; apply Rmult_lt_0_compat; lra).
  assert (Hqw : INR iw * (512 / m) <= 512).
  { replace (INR iw * (512 / m)) with (512 * (INR iw * / m)) by (field; lra).
    assert (INR iw * / m <= 1).
    { apply Rmult_le_reg_r with m; [exact Hm |].
      rewrite Rmult_assoc, Rinv_l by lra. lra. }
    lra. }
  assert (Hqh : INR ih * (512 / m) <= 512).
  { replace (INR ih * (512 / m)) with (512 * (INR ih * / m)) by (field; lra).
    assert (INR ih * / m <= 1).
    { apply Rmult_le_reg_r with m; [exact Hm |].
      rewrite Rmult_assoc, Rinv_l by lra. lra. }
    lra. }
  unfold Rmin. destruct (Rle_dec 1 (512 / m)) as [Hle | Hgt].
  - repeat split; try lra.
    + apply Rle_trans with (INR iw * (512 / m)); [| exact Hqw].
      apply Rmult_le_compat_l; lra.
    + apply Rle_trans with (INR ih * (512 / m)); [| exact Hqh].
      apply Rmult_le_compat_l; lra.
  - repeat split; try lra.
    intros Hsmall. exfalso. apply Hgt.
    apply Rmult_le_reg_r with m; [exact Hm |].
    unfold Rdiv. rewrite Rmult_assoc, Rinv_l by lra. lra.
Qed.

(** X19: the canvas on which an image (not empty) is sampled is never larger
    than 512 pixels on a side and never larger than the image; an image that
    fits in 512 by 512 is sampled at its own size. *)
Theorem canvas_fits (iw ih : nat) (Hpos : (0 < iw \/ 0 < ih)%nat) :
  (canvas_width iw ih <= 512)%nat /\ (canvas_height iw ih <= 512)%nat /\
  (canvas_width iw ih <= iw)%nat /\ (canvas_height iw ih <= ih)%nat /\
  ((iw <= 512)%nat -> (ih <= 512)%nat ->
   canvas_width iw ih = iw /\ canvas_height iw ih = ih).
Proof.
  destruct (canvas_scale_range iw ih Hpos) as (Hs & Hw & Hh & Hone).
  pose proof (pos_INR iw) as Hiw. pose proof (pos_INR ih) as Hih.
  unfold maxSide in *.
  assert (H512 : INR 512 = 512) by (rewrite INR_IZR_INZ; reflexivity).
  unfold canvas_width, canvas_height, Math.floor.
  split; [apply Zfloor_to_nat_le; rewrite H512; exact Hw |].
  split; [apply Zfloor_to_nat_le; rewrite H512; exact Hh |].
  split; [apply Zfloor_to_nat_le; nra |].
  split; [apply Zfloor_to_nat_le; nra |].
  intros Hsw Hsh.
  assert (Hmax : Rmax (INR iw) (INR ih) <= 512).
  { apply le_INR in Hsw. apply le_INR in Hsh. rewrite H512 in *.
    unfold Rmax. destruct Rle_dec; lra. }
  rewrite (Hone Hmax), !Rmult_1_r, !INR_IZR_INZ, !ZfloorZ, !Nat2Z.id.
  split; reflexivity.
Qed.

Lemma canvas_fits_witness :
  (canvas_width 640 480 <= 512)%nat /\ canvas_width 300 200 = 300%nat.
Proof.
  assert (H1 : (0 < 640 \/ 0 < 480)%nat) by (left; apply Nat.lt_0_succ).
  assert (H2 : (0 < 300 \/ 0 < 200)%nat) by (left; apply Nat.lt_0_succ).
  destruct (canvas_fits 640 480 H1) as (Hw & _).
  destruct (canvas_fits 300 200 H2) as (_ & _ & _ & _ & Hid).
  split; [exact Hw |].
  apply Hid; apply Nat.leb_le; reflexivity.
Defined.

(** ** init *)

Lemma fill_loop_spec (centered : list (R * R * R)) :
  let n := length centered in
  let arr := for_range n 0 (fill_body centered) (f32new (n * 3)) in
  length arr = (n * 3)%nat /\
  forall i, (i < n)%nat ->
    f32get arr (i * 3 + 0) = fst (fst (nth i centered (0, 0, 0))) /\
    f32get arr (i * 3 + 1) = snd (fst (nth i centered (0, 0, 0))) /\
    f32get arr (i * 3 + 2) = snd (nth i centered (0, 0, 0)).
Proof.
  cbv zeta. set (n := length centered).
  pose (P := fun (j : nat) (arr : list R) =>
    length arr = (n * 3)%nat /\
    forall i, (i < j)%nat ->
      f32get arr (i * 3 + 0) = fst (fst (nth i centered (0, 0, 0))) /\
      f32get arr (i * 3 + 1) = snd (fst (nth i centered (0, 0, 0))) /\
      f32get arr (i * 3 + 2) = snd (nth i centered (0, 0, 0))).
  apply (for_range_inv P (fill_body centered) n 0).
  - unfold P. rewrite f32new_length. split; [reflexivity | intros; lia].
  - intros j arr Hj [HL Hget]. unfold P, fill_body. cbv zeta.
    split; [rewrite !f32set_length; exact HL |].
    intros i Hi. rewrite !write3_get by lia.
    destruct (Nat.eqb_spec i j) as [-> | Hne].
    + repeat split; reflexivity.
    + apply Hget. lia.
Qed.

Lemma centered_nth (s : Samples) (i : nat) :
  (i < length (targets s))%nat ->
  nth i (centeredTargets s) (0, 0, 0)
  = ((fst (nth i (targets s) (0, 0)) - b_cx (bounds s))
       * init_scale (bounds s),
     (b_cy (bounds s) - snd (nth i (targets s) (0, 0)))
       * init_scale (bounds s),
     0).
Proof.
  intros Hi. unfold centeredTargets.
  set (f := fun p : R * R =>
              ((fst p - b_cx (bounds s)) * init_scale (bounds s),
               (b_cy (bounds s) - snd p) * init_scale (bounds s), 0)).
  transitivity (nth i (map f (targets s)) (f (0, 0))).
  - apply nth_indep. rewrite length_map. exact Hi.
  - exact (map_nth f (targets s) (0, 0) i).
Qed.

Lemma init_scale_fit (b : Bounds) :
  0 < Rmax (b_w b) (b_h b) ->
  0 < init_scale b /\
  Rmax (b_w b) (b_h b) * init_scale b
  = SETTINGS.LOGO_DIAMETER * SETTINGS.IMAGE_FIT.
Proof.
  intros Hm. unfold init_scale, Math.max.
  unfold SETTINGS.LOGO_DIAMETER, SETTINGS.IMAGE_FIT.
  split.
  - apply Rmult_lt_0_compat; [lra | apply Rinv_0_lt_compat; exact Hm].
  - field. lra.
Qed.

(** The state [init] builds from given samples. *)
Lemma init_of_samples_spec
  (random : nat -> R) (now' : R) (s : Samples) (g : nat)
  (Hmax : 0 < Rmax (b_w (bounds s)) (b_h (bounds s))) :
  let st := init_of_samples random now' s g in
  wf st /\ phase st = BUILD_SPIN /\ tPhaseStart st = now' /\
  N st = length (targets s) /\
  Rmax (bounds_w st) (bounds_h st) * scale st = 4.86 /\
  forall i, (i < N st)%nat ->
    let p := nth i (targets s) (0, 0) in
    f32get (endPositions st) (i * 3 + 0)
    = (fst p - b_cx (bounds s)) * scale st /\
    f32get (endPositions st) (i * 3 + 1)
    = (b_cy (bounds s) - snd p) * scale st /\
    f32get (endPositions st) (i * 3 + 2) = 0.
Proof.
  cbv zeta. unfold init_of_samples. cbv zeta.
  set (centered := centeredTargets s).
  set (base := {| phase := BUILD_SPIN; tPhaseStart := 0; shakePhase := 0;
                  bounds_w := b_w (bounds s); bounds_h := b_h (bounds s);
                  scale := init_scale (bounds s);
                  N := length centered |}).
  destruct (fill_loop_spec centered) as [HL Hget]. cbv zeta in HL, Hget.
  destruct (prepareBuildCycle_resets random now' base)
    as (Hph & Htp & _).
  destruct (prepareBuildCycle_keeps random now' base)
    as (HN & Hend & Hbw & Hbh & Hsc & _).
  destruct (init_scale_fit (bounds s) Hmax) as [_ Hfit].
  assert (Hlen : length centered = length (targets s))
    by (unfold centered, centeredTargets; apply length_map).
  split; [apply prepareBuildCycle_wf; exact HL |].
  split; [exact Hph |]. split; [exact Htp |].
  split; [rewrite HN; exact Hlen |].
  split.
  { rewrite Hbw, Hbh, Hsc. simpl. rewrite Hfit.
    unfold SETTINGS.LOGO_DIAMETER, SETTINGS.IMAGE_FIT. lra. }
  intros i Hi. rewrite HN in Hi. simpl in Hi.
  rewrite Hend, Hsc. simpl endPositions. simpl scale.
  destruct (Hget i Hi) as (-> & -> & ->).
  unfold centered. rewrite centered_nth by (rewrite <- Hlen; exact Hi).
  repeat split; reflexivity.
Qed.

Lemma init_on_canvas_unfold (random : nat -> R) (cw ch : nat)
  (pixels : nat -> nat -> list nat) (now' : R) (g : nat) :
  (0 < cw)%nat -> (0 < ch)%nat ->
  let r := sample_grid random cw ch BUILD_step BUILD_alphaCutoff
             (pixels cw ch) g in
  init_on_canvas random cw ch pixels now' g
  = Some (init_of_samples random now'
            {| targets := fst r;
               bounds := {| b_w := INR cw; b_h := INR ch;
                            b_cx := INR cw / 2; b_cy := INR ch / 2 |} |}
            (snd r)).
Proof.
  intros Hcw Hch. cbv zeta. unfold init_on_canvas, sample_canvas.
  destruct (Nat.eqb_spec cw 0) as [E | _]; [lia |].
  destruct (Nat.eqb_spec ch 0) as [E | _]; [lia |].
  cbn [orb]. unfold bind, ret. cbv zeta.
  destruct (sample_grid random cw ch BUILD_step BUILD_alphaCutoff
              (pixels cw ch) g) as [pts g'].
  reflexivity.
Qed.

Lemma init_on_empty_canvas (random : nat -> R) (cw ch : nat)
  (pixels : nat -> nat -> list nat) (now' : R) (g : nat) :
  cw = 0%nat \/ ch = 0%nat ->
  init_on_canvas random cw ch pixels now' g = None.
Proof.
  intros H. unfold init_on_canvas, sample_canvas.
  destruct (Nat.eqb_spec cw 0) as [_ | Hcw];
    [reflexivity |].
  destruct (Nat.eqb_spec ch 0) as [_ | Hch]; [reflexivity | lia].
Qed.

Lemma Rmax_nat_ge_1 (a b : nat) :
  (0 < a \/ 0 < b)%nat -> 1 <= Rmax (INR a) (INR b).
Proof.
  intros H. pose proof (Rmax_l (INR a) (INR b)).
  pose proof (Rmax_r (INR a) (INR b)).
  destruct H as [H | H]; apply (le_INR 1) in H; simpl in H; lra.
Qed.

(** X20: [init], from the point where the canvas has its sides, whatever
    they are.  On a canvas with a side of 0 the sampling throws and [init]
    never starts the animation.  On a canvas with both sides positive, with
    draws in [0, 1), [init] hands the animation loop a well-formed state in
    the build phase, with one particle per sample.  The target of a particle
    is its sample centred on the canvas, with the y axis turned upwards,
    scaled, at depth 0; the scale makes the longer side of the canvas span
    [LOGO_DIAMETER * IMAGE_FIT = 4.86]; every target lies within 0.3 pixel of
    the overlay's rectangle, hence strictly inside the rectangle on which
    the particles spawn. *)
Theorem init_starts_ready
  (random : nat -> R) (cw ch : nat) (pixels : nat -> nat -> list nat)
  (now' : R) (g : nat)
  (Hrandom : forall n, 0 <= random n < 1) :
  (cw = 0%nat \/ ch = 0%nat ->
   init_on_canvas random cw ch pixels now' g = None) /\
  ((0 < cw)%nat -> (0 < ch)%nat ->
   let pts := fst (sample_grid random cw ch 3 12 (pixels cw ch) g) in
   exists st,
     init_on_canvas random cw ch pixels now' g = Some st /\
     wf st /\ phase st = BUILD_SPIN /\ tPhaseStart st = now' /\
     N st = length pts /\
     bounds_w st = INR cw /\ bounds_h st = INR ch /\
     Rmax (bounds_w st) (bounds_h st) * scale st = 4.86 /\
     0 < scale st <= 4.86 /\
     forall i, (i < N st)%nat ->
       let p := nth i pts (0, 0) in
       let tx := f32get (endPositions st) (i * 3 + 0) in
       let ty := f32get (endPositions st) (i * 3 + 1) in
       tx = (fst p - INR cw / 2) * scale st /\
       ty = (INR ch / 2 - snd p) * scale st /\
       f32get (endPositions st) (i * 3 + 2) = 0 /\
       Rabs tx <= bounds_w st * scale st / 2 + 0.3 * scale st /\
       Rabs ty <= bounds_h st * scale st / 2 + 0.3 * scale st /\
       Rabs tx < halfW_of st /\ Rabs ty < halfH_of st).
Proof.
  split; [apply init_on_empty_canvas |].
  intros Hcw Hch. cbv zeta.
  rewrite (init_on_canvas_unfold random cw ch pixels now' g Hcw Hch).
  cbv zeta. unfold BUILD_step, BUILD_alphaCutoff.
  destruct (sample_grid_ok random cw ch 3 12 (pixels cw ch) g Hrandom)
    as [Hall _].
  rewrite Forall_forall in Hall.
  set (r := sample_grid random cw ch 3 12 (pixels cw ch) g) in *.
  set (s := {| targets := fst r;
               bounds := {| b_w := INR cw; b_h := INR ch;
                            b_cx := INR cw / 2; b_cy := INR ch / 2 |} |}).
  exists (init_of_samples random now' s (snd r)).
  split; [reflexivity |].
  pose proof (Rmax_nat_ge_1 cw ch (or_introl Hcw)) as Hm1.
  assert (Hmax : 0 < Rmax (b_w (bounds s)) (b_h (bounds s)))
    by (simpl; lra).
  destruct (init_of_samples_spec random now' s (snd r) Hmax)
    as (Hwf & Hph & Htp & HN & Hfit & Htargets).
  destruct (init_scale_fit (bounds s) Hmax) as [Hsc0 Hfit'].
  unfold init_of_samples in *. cbv zeta in *.
  set (base := {| phase := BUILD_SPIN; N := length (centeredTargets s) |})
    in *.
  destruct (prepareBuildCycle_keeps random now' base)
    as (_ & _ & Hbw & Hbh & Hsc & _).
  set (st := prepareBuildCycle random now' base) in *.
  simpl in Hbw, Hbh, Hsc.
  assert (Hscale : 0 < scale st <= 4.86).
  { rewrite Hsc. split; [exact Hsc0 |].
    simpl in Hfit'. unfold SETTINGS.LOGO_DIAMETER, SETTINGS.IMAGE_FIT in Hfit'.
    nra. }
  split; [exact Hwf |]. split; [exact Hph |]. split; [exact Htp |].
  split; [exact HN |]. split; [exact Hbw |]. split; [exact Hbh |].
  split; [exact Hfit |]. split; [exact Hscale |].
  intros i Hi. destruct (Htargets i Hi) as (Hx & Hy & Hz).
  cbv zeta in Hx, Hy. unfold s in Hx, Hy.
  cbn [b_cx b_cy bounds targets] in Hx, Hy.
  assert (Hin : In (nth i (fst r) (0, 0)) (fst r)).
  { apply nth_In. rewrite HN in Hi. exact Hi. }
  destruct (Hall _ Hin) as (x & y & Hxlt & Hylt & _ & _ & _ & Hpx & Hpy).
  apply le_INR in Hxlt. apply le_INR in Hylt. rewrite S_INR in Hxlt, Hylt.
  pose proof (pos_INR x). pose proof (pos_INR y).
  set (p := nth i (fst r) (0, 0)) in *.
  split; [exact Hx |]. split; [exact Hy |]. split; [exact Hz |].
  rewrite Hx, Hy, Hbw, Hbh.
  unfold halfW_of, halfH_of, PAD, SETTINGS.LOGO_DIAMETER. rewrite Hbw, Hbh.
  assert (Hax : Rabs ((fst p - INR cw / 2) * scale st)
                <= INR cw * scale st / 2 + 0.3 * scale st).
  { apply Rabs_le. split; nra. }
  assert (Hay : Rabs ((INR ch / 2 - snd p) * scale st)
                <= INR ch * scale st / 2 + 0.3 * scale st).
  { apply Rabs_le. split; nra. }
  split; [exact Hax |]. split; [exact Hay |]. split; lra.
Qed.

(** A canvas of 4 by 4 starts the animation; a canvas of 512 by 0, that of
    an image of 2000 by 1, does not. *)
Lemma init_starts_ready_witness :
  (exists st, init_on_canvas draws 4 4 pixels4 0 0 = Some st /\
              wf st /\ phase st = BUILD_SPIN) /\
  init_on_canvas draws 512 0 pixels4 0 0 = None.
Proof.
  destruct (init_starts_ready draws 4 4 pixels4 0 0%nat draws_range)
    as [_ Hok].
  destruct (init_starts_ready draws 512 0 pixels4 0 0%nat draws_range)
    as [Hnone _].
  split.
  - destruct (Hok (Nat.lt_0_succ 3) (Nat.lt_0_succ 3))
      as (st & Hst & Hwf & Hph & _).
    exists st. split; [exact Hst |]. split; assumption.
  - apply Hnone. right. reflexivity.
Defined.

(** * The hand-off ends, and frames do not depend on their past *)

(** A build frame on which every particle has finished. *)
Lemma build_done_step (now dt : R) (st : State) :
  phase st = BUILD_SPIN -> (0 < N st)%nat ->
  (forall i, (i < N st)%nat ->
     0 < f32get (durationsBuild st) i /\
     now - tPhaseStart st - f32get (startTimesBuild st) i
     >= f32get (durationsBuild st) i) ->
  let st' := fst (tick_build now dt st) in
  plane_opacity st' = Rmin 1 (plane_opacity st + 0.03) /\
  (plane_opacity st' >= 0.999 -> phase st' = SHAKE) /\
  (plane_opacity st' < 0.999 ->
   phase st' = BUILD_SPIN /\ tPhaseStart st' = tPhaseStart st).
Proof.
  intros Hphase HN Hdone. cbv zeta.
  destruct (tick_build_fields now dt st) as (_ & _ & Ho & Hph & Htp & _).
  pose proof (tick_build_avg now dt st) as Havg.
  rewrite (build_avg_complete now st HN Hdone) in Havg.
  set (st' := fst (tick_build now dt st)) in *.
  rewrite Havg in Ho, Hph, Htp. rewrite handoff_s_1 in Hph, Htp.
  unfold SETTINGS.BUILD.planeFadeAt in Ho.
  destruct (Rgt_dec 1 0.92) as [_ | H]; [| lra].
  destruct (Rge_dec 1 0.999) as [_ | H]; [| lra].
  split; [exact Ho |].
  rewrite Hph, Htp, Hphase.
  destruct (Rge_dec (plane_opacity st') 0.999); simpl; split; intros;
    try reflexivity; try lra. split; reflexivity.
Qed.

Lemma handoff_within (random : nat -> R) (T : R) (n : nat) :
  forall (frames : list Frame) (st : State),
    phase st = BUILD_SPIN -> (0 < N st)%nat ->
    (forall i, (i < N st)%nat ->
       0 < f32get (durationsBuild st) i /\
       T - tPhaseStart st - f32get (startTimesBuild st) i
       >= f32get (durationsBuild st) i) ->
    (forall f, In f frames -> frame_now f >= T) ->
    (S n <= length frames)%nat ->
    plane_opacity st + 0.03 * INR (S n) >= 0.999 ->
    exists k, (1 <= k <= S n)%nat /\
      phase (run random (firstn k frames) st) = SHAKE.
Proof.
  induction n as [| n IH]; intros frames st Hphase HN Hdone Hnow Hlen Hop;
    destruct frames as [| f fs]; simpl in Hlen; try lia.
  - exists 1%nat. split; [lia |]. simpl.
    rewrite (tick_phase_build random _ _ _ st Hphase).
    assert (Hd : forall i, (i < N st)%nat ->
       0 < f32get (durationsBuild st) i /\
       frame_now f - tPhaseStart st - f32get (startTimesBuild st) i
       >= f32get (durationsBuild st) i).
    { intros i Hi. destruct (Hdone i Hi) as [H1 H2].
      pose proof (Hnow f (or_introl eq_refl)). split; lra. }
    destruct (build_done_step (frame_now f) (frame_dt f) st Hphase HN Hd)
      as (Ho & Hshake & _).
    apply Hshake. rewrite Ho. simpl in Hop.
    unfold Rmin. destruct Rle_dec; lra.
  - assert (Hd : forall i, (i < N st)%nat ->
       0 < f32get (durationsBuild st) i /\
       frame_now f - tPhaseStart st - f32get (startTimesBuild st) i
       >= f32get (durationsBuild st) i).
    { intros i Hi. destruct (Hdone i Hi) as [H1 H2].
      pose proof (Hnow f (or_introl eq_refl)). split; lra. }
    destruct (build_done_step (frame_now f) (frame_dt f) st Hphase HN Hd)
      as (Ho & Hshake & Hstay).
    destruct (tick_build_frame (frame_now f) (frame_dt f) st)
      as (HN' & _ & _ & _ & Ht0 & Htd & _).
    set (st1 := fst (tick_build (frame_now f) (frame_dt f) st)) in *.
    destruct (Rge_dec (plane_opacity st1) 0.999) as [Hge | Hlt].
    + exists 1%nat. split; [lia |]. simpl.
      rewrite (tick_phase_build random _ _ _ st Hphase).
      apply Hshake. exact Hge.
    + assert (Hlt' : plane_opacity st1 < 0.999) by lra.
      destruct (Hstay Hlt') as [Hph1 Htp1].
      destruct (IH fs st1) as (k & Hk & Hrun).
      * exact Hph1.
      * rewrite HN'. exact HN.
      * intros i Hi. rewrite HN' in Hi. rewrite Htp1, Ht0, Htd.
        apply Hdone. exact Hi.
      * intros f' Hf'. apply Hnow. right. exact Hf'.
      * lia.
      * rewrite Ho in *. rewrite S_INR in Hop.
        unfold Rmin in *. destruct Rle_dec; lra.
      * exists (S k). split; [lia |]. simpl.
        rewrite (tick_phase_build random _ _ _ st Hphase). exact Hrun.
Qed.

(** X21: once every particle has finished building, the hand-off to the
    oscillation takes at most 34 frames, whatever the overlay's opacity was:
    among the first 34 frames that come after the last particle's end there
    is one that leaves the machine in the oscillation phase. *)
Theorem handoff_within_34_frames
  (random : nat -> R) (T : R) (frames : list Frame) (st : State)
  (Hphase : phase st = BUILD_SPIN) (HN : (0 < N st)%nat)
  (Hop : 0 <= plane_opacity st)
  (Hdone : forall i, (i < N st)%nat ->
     0 < f32get (durationsBuild st) i /\
     T - tPhaseStart st - f32get (startTimesBuild st) i
     >= f32get (durationsBuild st) i)
  (Hnow : forall f, In f frames -> frame_now f >= T)
  (Hlen : (34 <= length frames)%nat) :
  exists k, (1 <= k <= 34)%nat /\
    phase (run random (firstn k frames) st) = SHAKE.
Proof.
  apply (handoff_within random T 33 frames st Hphase HN Hdone Hnow Hlen).
  replace (INR 34) with 34 by (rewrite INR_IZR_INZ; reflexivity). lra.
Qed.

Lemma handoff_within_34_frames_witness :
  exists k, (1 <= k <= 34)%nat /\
    phase (run draws (firstn k (repeat (mkFrame 3 0.25 0) 34)) scenarioA)
    = SHAKE.
Proof.
  assert (HN : (0 < N scenarioA)%nat) by (simpl; lia).
  assert (Hop : 0 <= plane_opacity scenarioA) by (simpl; lra).
  assert (Hdone : forall i, (i < N scenarioA)%nat ->
     0 < f32get (durationsBuild scenarioA) i /\
     3 - tPhaseStart scenarioA - f32get (startTimesBuild scenarioA) i
     >= f32get (durationsBuild scenarioA) i).
  { intros i Hi. unfold f32get.
    destruct i as [| [| [| [| i]]]]; simpl in *; try lia; split; lra. }
  assert (Hnow : forall f, In f (repeat (mkFrame 3 0.25 0) 34) ->
                           frame_now f >= 3).
  { intros f Hf. apply repeat_spec in Hf. subst f. simpl. lra. }
  assert (Hlen : (34 <= length (repeat (mkFrame 3 0.25 0) 34))%nat)
    by (rewrite repeat_length; lia).
  exact (handoff_within_34_frames draws 3 (repeat (mkFrame 3 0.25 0) 34)
           scenarioA eq_refl HN Hop Hdone Hnow Hlen).
Defined.

(** X22: the position a build frame writes does not depend on the frames
    before it: the spawn positions are kept apart from the position buffer,
    so after any number of earlier frames of the same build phase a frame at
    [now] puts every particle where a first frame at [now] would have. *)
Theorem build_positions_history_free
  (random : nat -> R) (now1 dt1 now2 dt2 now' : R) (st : State) (i k : nat)
  (Hwf : wf st) (Hphase : phase st = BUILD_SPIN)
  (Hstay : phase (fst (tick random now1 dt1 now' st)) = BUILD_SPIN)
  (Hi : (i < N st)%nat) (Hk : (k < 3)%nat) :
  let st1 := fst (tick random now1 dt1 now' st) in
  f32get (position (fst (tick random now2 dt2 now' st1))) (i * 3 + k)
  = f32get (position (fst (tick random now2 dt2 now' st))) (i * 3 + k) /\
  startPositions st1 = startPositions st.
Proof.
  cbv zeta.
  pose proof (tick_wf random now1 dt1 now' st Hwf) as Hwf1.
  rewrite (tick_phase_build random now2 dt2 now' _ Hstay).
  rewrite (tick_phase_build random now2 dt2 now' st Hphase).
  rewrite (tick_phase_build random now1 dt1 now' st Hphase) in *.
  destruct (tick_build_frame now1 dt1 st)
    as (HN & Hsp & Hep & _ & Ht0 & Htd & _).
  destruct (tick_build_fields now1 dt1 st) as (_ & _ & _ & Hph & Htp & _).
  set (st1 := fst (tick_build now1 dt1 st)) in *.
  assert (Htp1 : tPhaseStart st1 = tPhaseStart st).
  { rewrite Htp. rewrite Hph, Hphase in Hstay.
    destruct (_ && _); [discriminate | reflexivity]. }
  destruct Hwf as (_ & _ & _ & Hpos & _).
  destruct Hwf1 as (_ & _ & _ & Hpos1 & _).
  split; [| exact Hsp].
  rewrite !tick_build_position
    by first [assumption | rewrite HN; assumption].
  unfold build_e, build_prog. rewrite Hsp, Hep, Ht0, Htd, Htp1. reflexivity.
Qed.

Lemma build_positions_history_free_witness :
  let st1 := fst (tick draws 1.5 0.25 0 (scene1 BUILD_SPIN)) in
  f32get (position (fst (tick draws 1.75 0.25 0 st1))) (0 * 3 + 0)
  = f32get (position (fst (tick draws 1.75 0.25 0 (scene1 BUILD_SPIN))))
      (0 * 3 + 0).
Proof.
  destruct scene1_frame1 as (_ & Hstay & _).
  exact (proj1 (build_positions_history_free draws 1.5 0.25 1.75 0.25 0
                  (scene1 BUILD_SPIN) 0 0 (wf_scene1 BUILD_SPIN) eq_refl
                  Hstay (Nat.lt_0_succ 0) (Nat.lt_0_succ 2))).
Defined.
